(** * operations.py: data-access layer over a document store and a relational store

    A shallow embedding of [src/operations.py]: the [DecimalEncoder] used by
    every document-store read path, the [OperationsDynamo] operations and the
    [OperationsSQL] statement builders, followed by the properties of the
    specification that concern them. *)

From Stdlib Require Import ZArith NArith List String Ascii Bool Lia.
From Stdlib Require Import SpecFloat DecimalString.
From Stdlib Require Import Permutation.
From Stdlib Require DecimalPos DecimalZ.
Import ListNotations.

Local Open Scope string_scope.
Local Open Scope Z_scope.

(** ** Exceptions and results *)

(** The exceptions the modelled code can meet.  [ClientError] is
    [botocore.exceptions.ClientError] with the text of
    [e.response['Error']['Message']]; [InvalidOperation] is
    [decimal.InvalidOperation]; [ValueError] is what the interpreter raises
    when an integer too long to be written in decimal is converted to text;
    [OtherError] stands for any other [Exception] a backend client raises. *)
Inductive exn : Type :=
| ClientError (msg : string)
| IndexError
| KeyError (key : string)
| TypeError
| ValueError
| InvalidOperation
| OtherError (msg : string).

(** [str(e)], the text an f-string writes for an exception. *)
Definition str_exn (e : exn) : string :=
  match e with
  | ClientError msg => msg
  | IndexError => "list index out of range"
  | KeyError key => "'" ++ key ++ "'"
  | TypeError => "TypeError"
  | ValueError => "Exceeds the limit (4300 digits) for integer string conversion"
  | InvalidOperation => "[<class 'decimal.DivisionImpossible'>]"
  | OtherError msg => msg
  end.

(** What running a piece of Python gives: a value, a raised exception, or
    [Diverged] when a loop is still running after the fuel given to it. *)
Inductive result (A : Type) : Type :=
| Ok (a : A)
| Raise (e : exn)
| Diverged.
Arguments Ok {A} a.
Arguments Raise {A} e.
Arguments Diverged {A}.

Definition rbind {A B} (r : result A) (k : A -> result B) : result B :=
  match r with
  | Ok a => k a
  | Raise e => Raise e
  | Diverged => Diverged
  end.

Definition rmap {A B} (f : A -> B) (r : result A) : result B :=
  rbind r (fun a => Ok (f a)).

(** ** Integers as text *)

(** [sys.int_info.default_max_str_digits]: CPython (3.11 and later, and
    the security releases of the versions before) refuses to convert an
    [int] of more decimal digits than this to or from text; the sign is not
    counted. *)
Definition int_max_str_digits : Z := 4300.

(** [10 ^ int_max_str_digits], the least magnitude that has too many
    digits. *)
Definition int_str_bound : Z := Eval vm_compute in 10 ^ 4300.

Definition int_str_fits (n : Z) : bool := Z.abs n <? int_str_bound.

(** The decimal digits of [n], with a leading [-] when it is negative. *)
Definition decimal_text (n : Z) : string := NilZero.string_of_int (Z.to_int n).

(** [str(n)], which is also what an f-string writes for [{n}] and what the
    JSON encoder writes for an int: the decimal text, or [ValueError] when
    [n] has more than [int_max_str_digits] digits. *)
Definition str_int (n : Z) : result string :=
  if int_str_fits n then Ok (decimal_text n) else Raise ValueError.

(** ** decimal.Decimal *)

(** A finite [decimal.Decimal], as CPython keeps it: [_sign], the
    coefficient [_int] and the exponent [_exp]; its value is
    [(-1)^_sign * _int * 10^_exp].  The document store only produces finite
    numbers. *)
Record PyDecimal : Type := mkDecimal {
  dec_sign : bool;
  dec_int : N;
  dec_exp : Z
}.

(** The default arithmetic context of the [decimal] module. *)
Definition ctx_prec : Z := 28.
Definition ctx_Emax : Z := 999999.
Definition ctx_Emin : Z := -999999.
Definition ctx_Etiny : Z := ctx_Emin - ctx_prec + 1.
Definition ctx_Etop : Z := ctx_Emax - ctx_prec + 1.

Fixpoint ndigits_aux (fuel : nat) (n : Z) : Z :=
  match fuel with
  | O => 1
  | S f => if n <? 10 then 1 else 1 + ndigits_aux f (n / 10)
  end.

(** [len(self._int)]: the number of decimal digits of a coefficient (one
    for zero, whose digit string is ["0"]). *)
Definition ndigits (n : N) : Z :=
  ndigits_aux (S (Z.to_nat (Z.log2 (Z.of_N n)))) (Z.of_N n).

(** [Decimal.adjusted]. *)
Definition adjusted (d : PyDecimal) : Z := dec_exp d + ndigits (dec_int d) - 1.

(** [Decimal.__bool__]: a finite decimal is true when its coefficient is
    not zero. *)
Definition decimal_bool (d : PyDecimal) : bool := negb (dec_int d =? 0)%N.

Definition pow10 (k : Z) : N := (10 ^ Z.to_N k)%N.

(** The rounding of [Decimal._fix] under the default context
    ([ROUND_HALF_EVEN], clamp 0): a zero keeps its sign and has its exponent
    brought into range; a value with more than [ctx_prec] digits (or below
    [ctx_Etiny]) is rounded to the digits that fit; [decimal.Overflow] is
    trapped. *)
Definition round_half_even (c : N) (drop : Z) : N :=
  let p := pow10 drop in
  let q := (c / p)%N in
  let r := (c mod p)%N in
  match (2 * r ?= p)%N with
  | Lt => q
  | Gt => (q + 1)%N
  | Eq => if N.even q then q else (q + 1)%N
  end.

Definition decimal_fix (d : PyDecimal) : result PyDecimal :=
  if (dec_int d =? 0)%N then
    Ok (mkDecimal (dec_sign d) 0 (Z.min (Z.max (dec_exp d) ctx_Etiny) ctx_Emax))
  else
    let len := ndigits (dec_int d) in
    let exp_min := len + dec_exp d - ctx_prec in
    if ctx_Etop <? exp_min then Raise (OtherError "Overflow")
    else
      let exp_min := Z.max exp_min ctx_Etiny in
      if dec_exp d <? exp_min then
        let digits := len + dec_exp d - exp_min in
        let coeff :=
          if digits <? 0 then 0%N
          else round_half_even (dec_int d) (exp_min - dec_exp d) in
        if ctx_prec <? ndigits coeff then
          if ctx_Etop <? exp_min + 1 then Raise (OtherError "Overflow")
          else Ok (mkDecimal (dec_sign d) (coeff / 10)%N (exp_min + 1))
        else Ok (mkDecimal (dec_sign d) coeff exp_min)
      else Ok d.

(** [o % 1] for a finite decimal [o]: [Decimal.__mod__] with the other
    operand [Decimal(1)], that is [self._divide(other, context)[1]] followed
    by [_fix].  The remainder takes the sign of [o] and the exponent
    [min(o._exp, 0)].  When the integer quotient does not fit in the
    [ctx_prec] digits of the context, [_divide] signals
    [DivisionImpossible] ("quotient too large in //, % or divmod"), which
    the default context raises as [decimal.InvalidOperation]. *)
Definition decimal_mod1 (d : PyDecimal) : result PyDecimal :=
  let ideal_exp := Z.min (dec_exp d) 0 in
  let expdiff := adjusted d in
  if (dec_int d =? 0)%N || (expdiff <=? -2) then
    decimal_fix
      (mkDecimal (dec_sign d) (dec_int d * pow10 (dec_exp d - ideal_exp))%N ideal_exp)
  else if expdiff <=? ctx_prec then
    let op1 := if 0 <=? dec_exp d then (dec_int d * pow10 (dec_exp d))%N else dec_int d in
    let op2 := if 0 <=? dec_exp d then 1%N else pow10 (- dec_exp d) in
    let q := (op1 / op2)%N in
    let r := (op1 mod op2)%N in
    if (q <? pow10 ctx_prec)%N then decimal_fix (mkDecimal (dec_sign d) r ideal_exp)
    else Raise InvalidOperation
  else Raise InvalidOperation.

(** [int(o)]: [Decimal.__int__] truncates towards zero. *)
Definition decimal_int (d : PyDecimal) : Z :=
  let m :=
    if 0 <=? dec_exp d then (dec_int d * pow10 (dec_exp d))%N
    else (dec_int d / pow10 (- dec_exp d))%N in
  if dec_sign d then - Z.of_N m else Z.of_N m.

(** [float(o)]: the binary64 number nearest to the decimal's value, ties to
    even (CPython converts through the decimal string, which is correctly
    rounded).  The quotient of the two integers is rounded once, by
    [SFdiv]. *)
Definition decimal_float (d : PyDecimal) : spec_float :=
  let num := if 0 <=? dec_exp d then (dec_int d * pow10 (dec_exp d))%N else dec_int d in
  let den := if 0 <=? dec_exp d then 1%N else pow10 (- dec_exp d) in
  match num, den with
  | N0, _ => S754_zero (dec_sign d)
  | Npos n, Npos m =>
      SFdiv 53 1024 (S754_finite (dec_sign d) n 0) (S754_finite false m 0)
  | Npos _, N0 => S754_nan
  end.

(** ** Python values *)

(** The values that travel through the layer: what the document-store
    client hands back for an attribute (null, boolean, [Decimal], string,
    binary, set, list, map with string keys) and what [json.loads] builds
    (null, boolean, [int], [float], string, list, dict).  A dict is kept as
    the list of its entries in insertion order. *)
Unset Elimination Schemes.
Inductive value : Type :=
| VNone
| VBool (b : bool)
| VInt (n : Z)
| VFloat (f : spec_float)
| VStr (s : string)
| VDecimal (d : PyDecimal)
| VBinary (b : string)
| VSet (l : list value)
| VList (l : list value)
| VDict (kvs : list (string * value)).
Set Elimination Schemes.

Section value_induction.
Variable P : value -> Prop.
Hypothesis HNone : P VNone.
Hypothesis HBool : forall b, P (VBool b).
Hypothesis HInt : forall n, P (VInt n).
Hypothesis HFloat : forall f, P (VFloat f).
Hypothesis HStr : forall s, P (VStr s).
Hypothesis HDecimal : forall d, P (VDecimal d).
Hypothesis HBinary : forall b, P (VBinary b).
Hypothesis HSet : forall l, Forall P l -> P (VSet l).
Hypothesis HList : forall l, Forall P l -> P (VList l).
Hypothesis HDict : forall kvs, Forall (fun kv => P (snd kv)) kvs -> P (VDict kvs).

Fixpoint value_ind (v : value) : P v :=
  match v with
  | VNone => HNone
  | VBool b => HBool b
  | VInt n => HInt n
  | VFloat f => HFloat f
  | VStr s => HStr s
  | VDecimal d => HDecimal d
  | VBinary b => HBinary b
  | VSet l =>
      HSet l ((fix go (l : list value) : Forall P l :=
                 match l with
                 | [] => Forall_nil _
                 | x :: l' => Forall_cons x (value_ind x) (go l')
                 end) l)
  | VList l =>
      HList l ((fix go (l : list value) : Forall P l :=
                  match l with
                  | [] => Forall_nil _
                  | x :: l' => Forall_cons x (value_ind x) (go l')
                  end) l)
  | VDict kvs =>
      HDict kvs ((fix go (l : list (string * value)) : Forall (fun kv => P (snd kv)) l :=
                    match l with
                    | [] => Forall_nil _
                    | x :: l' => Forall_cons x (value_ind (snd x)) (go l')
                    end) kvs)
  end.
End value_induction.

(** Python truth value of a value ([if item:], [if items:], [if filtro:]).
    The client's [Binary] wrapper defines neither [__bool__] nor [__len__],
    so it is true whatever bytes it holds. *)
Definition truthy (v : value) : bool :=
  match v with
  | VNone => false
  | VBool b => b
  | VInt n => negb (n =? 0)
  | VFloat f =>
      match f with
      | S754_zero _ => false
      | _ => true
      end
  | VStr s => negb (s =? EmptyString)%string
  | VDecimal d => decimal_bool d
  | VBinary _ => true
  | VSet l | VList l => match l with [] => false | _ => true end
  | VDict kvs => match kvs with [] => false | _ => true end
  end.

(** ** DecimalEncoder and the JSON round trip *)

Module DecimalEncoder.

(** [DecimalEncoder.default]: a [Decimal] becomes a float when [o % 1] is
    true and an int otherwise; anything else goes to
    [json.JSONEncoder.default], which raises [TypeError]. *)
Definition default (o : value) : result value :=
  match o with
  | VDecimal d =>
      rbind (decimal_mod1 d) (fun r =>
        if decimal_bool r then Ok (VFloat (decimal_float d))
        else Ok (VInt (decimal_int d)))
  | _ => Raise TypeError
  end.

End DecimalEncoder.

(** An int through the round trip: the encoder writes it with
    [int.__repr__], which raises [ValueError] past [int_max_str_digits]
    digits, and [json.loads] reads the digits back as the same int. *)
Definition encode_int (n : Z) : result value :=
  rbind (str_int n) (fun _ => Ok (VInt n)).

(** The value the encoder writes for what [default] returned.  [default]
    only ever returns an int or a float ([default_returns_number] below);
    the encoder writes these as it writes any int or float. *)
Definition encode_default_result (o : value) : result value :=
  match o with
  | VInt n => encode_int n
  | VNone | VBool _ | VFloat _ | VStr _ => Ok o
  | _ => Raise TypeError
  end.

(** [json.loads(json.dumps(o, indent=4, cls=DecimalEncoder))], by its action
    on the value: the encoder writes null, booleans, ints, floats and
    strings itself and [json.loads] reads them back as they were (an int
    only when its digits can be written, see [encode_int]); it walks
    lists and dicts (string keys, order kept); for every other object it
    calls [default] and writes what that returns. *)
Fixpoint normalize (o : value) : result value :=
  match o with
  | VInt n => encode_int n
  | VNone | VBool _ | VFloat _ | VStr _ => Ok o
  | VList l =>
      rmap VList
        ((fix go (l : list value) : result (list value) :=
            match l with
            | [] => Ok []
            | x :: l' =>
                rbind (normalize x) (fun y => rbind (go l') (fun ys => Ok (y :: ys)))
            end) l)
  | VDict kvs =>
      rmap VDict
        ((fix go (l : list (string * value)) : result (list (string * value)) :=
            match l with
            | [] => Ok []
            | (k, x) :: l' =>
                rbind (normalize x) (fun y => rbind (go l') (fun ys => Ok ((k, y) :: ys)))
            end) kvs)
  | VDecimal _ | VBinary _ | VSet _ =>
      rbind (DecimalEncoder.default o) encode_default_result
  end.

(** ** The backends and the effects of an operation *)

(** A caller-built condition object: a textual expression, or
    [Key(name).eq(v)] as [getByIndex] builds it.  The layer passes it on
    without looking inside. *)
Inductive expression : Type :=
| ExprText (s : string)
| KeyEq (name : string) (v : value).

(** Truth value of an optional caller argument ([if fields:],
    [if attrnames:], [if filter:]). *)
Definition truthy_str (s : option string) : bool :=
  match s with
  | Some s => negb (s =? EmptyString)%string
  | None => false
  end.

Definition truthy_dict {A} (d : option (list (string * A))) : bool :=
  match d with
  | Some (_ :: _) => true
  | _ => false
  end.

Definition truthy_expr (e : option expression) : bool :=
  match e with
  | Some (ExprText s) => negb (s =? EmptyString)%string
  | Some (KeyEq _ _) => true
  | None => false
  end.

(** The keyword arguments of [tabela.query(...)]; [None] is a keyword that
    is not passed. *)
Record query_args : Type := mkQuery {
  IndexName : option string;
  KeyConditionExpression : expression;
  FilterExpression : option expression;
  ProjectionExpression : option string;
  ExpressionAttributeNames : option (list (string * string));
  ExpressionAttributeValues : option (list (string * value));
  ScanIndexForward : option bool;
  Limit : option Z;
  ExclusiveStartKey : option value;
  Select : option string
}.

(** [tabela.query(KeyConditionExpression=e)] with nothing else passed. *)
Definition plain_query (e : expression) : query_args :=
  mkQuery None e None None None None None None None None.

Definition set_ProjectionExpression (v : string) (q : query_args) : query_args :=
  mkQuery (IndexName q) (KeyConditionExpression q) (FilterExpression q) (Some v)
    (ExpressionAttributeNames q) (ExpressionAttributeValues q) (ScanIndexForward q)
    (Limit q) (ExclusiveStartKey q) (Select q).

Definition set_ExpressionAttributeNames (v : list (string * string)) (q : query_args)
  : query_args :=
  mkQuery (IndexName q) (KeyConditionExpression q) (FilterExpression q)
    (ProjectionExpression q) (Some v) (ExpressionAttributeValues q) (ScanIndexForward q)
    (Limit q) (ExclusiveStartKey q) (Select q).

Definition set_FilterExpression (v : expression) (q : query_args) : query_args :=
  mkQuery (IndexName q) (KeyConditionExpression q) (Some v) (ProjectionExpression q)
    (ExpressionAttributeNames q) (ExpressionAttributeValues q) (ScanIndexForward q)
    (Limit q) (ExclusiveStartKey q) (Select q).

Definition set_ExclusiveStartKey (v : value) (q : query_args) : query_args :=
  mkQuery (IndexName q) (KeyConditionExpression q) (FilterExpression q)
    (ProjectionExpression q) (ExpressionAttributeNames q) (ExpressionAttributeValues q)
    (ScanIndexForward q) (Limit q) (Some v) (Select q).

(** [if s: q[...] = s]: an optional keyword is added to the query only when
    the caller's argument is true. *)
Definition when_str (s : option string) (set : string -> query_args -> query_args)
  (q : query_args) : query_args :=
  match s with
  | Some x => if truthy_str s then set x q else q
  | None => q
  end.

Definition when_dict (d : option (list (string * string)))
  (set : list (string * string) -> query_args -> query_args) (q : query_args)
  : query_args :=
  match d with
  | Some x => if truthy_dict d then set x q else q
  | None => q
  end.

Definition when_expr (e : option expression)
  (set : expression -> query_args -> query_args) (q : query_args) : query_args :=
  match e with
  | Some x => if truthy_expr e then set x q else q
  | None => q
  end.

Definition when_value (v : option value) (set : value -> query_args -> query_args)
  (q : query_args) : query_args :=
  match v with
  | Some x => if truthy x then set x q else q
  | None => q
  end.

(** A call made to a backend. *)
Inductive call : Type :=
| GetItem (key : list (string * value))
| Query (q : query_args)
| Execute (statement : string).

(** The response dict of the document store; [None] is an absent key. *)
Record response : Type := mkResponse {
  Item : option value;
  Items : option (list value);
  LastEvaluatedKey : option value;
  Count : option Z
}.

(** A page of a paginated query: its items and its continuation cursor. *)
Definition page (items : list value) (cursor : option value) : response :=
  mkResponse None (Some items) cursor None.

(** The handle [tabela]: what the backend answers to a call, given the
    calls already made to it (so that a backend may change over time). *)
Definition table : Type := list call -> call -> result response.

(** The relational [connection]: executing a statement gives the column
    names of [cursor.description] and the rows, or raises. *)
Definition connection : Type :=
  list call -> string -> result (list string * list (list value)).

Inductive level : Type := ERROR | WARNING.

(** What an operation can change: the calls made to the backends so far and
    the lines written by [logging]. *)
Record world : Type := mkWorld {
  calls : list call;
  log : list (level * string)
}.

Definition M (A : Type) : Type := world -> result A * world.

Definition ret {A} (a : A) : M A := fun w => (Ok a, w).

Definition raise {A} (e : exn) : M A := fun w => (Raise e, w).

Definition bind {A B} (m : M A) (k : A -> M B) : M B :=
  fun w =>
    match m w with
    | (Ok a, w') => k a w'
    | (Raise e, w') => (Raise e, w')
    | (Diverged, w') => (Diverged, w')
    end.

Definition lift {A} (r : result A) : M A := fun w => (r, w).

Declare Scope py_scope.
Delimit Scope py_scope with py.
Notation "x <- m ;; k" := (bind m (fun x => k))
  (at level 100, m at next level, right associativity) : py_scope.
Notation "m ;;; k" := (bind m (fun _ => k))
  (at level 100, right associativity) : py_scope.
Local Open Scope py_scope.

(** [try: body / except ClientError as e: handler / else: orelse].  Only a
    [ClientError] raised by [body] is handled; what [orelse] raises
    propagates. *)
Definition try_except_ClientError {A B}
  (body : M A) (handler : string -> M B) (orelse : A -> M B) : M B :=
  fun w =>
    match body w with
    | (Ok a, w') => orelse a w'
    | (Raise (ClientError msg), w') => handler msg w'
    | (Raise e, w') => (Raise e, w')
    | (Diverged, w') => (Diverged, w')
    end.

(** [try: body / except Exception as e: handler]. *)
Definition try_except_Exception {A} (body : M A) (handler : exn -> M A) : M A :=
  fun w =>
    match body w with
    | (Ok a, w') => (Ok a, w')
    | (Raise e, w') => handler e w'
    | (Diverged, w') => (Diverged, w')
    end.

Definition logging_error (msg : string) : M unit :=
  fun w => (Ok tt, mkWorld (calls w) (log w ++ [(ERROR, msg)])).

Definition logging_warning (msg : string) : M unit :=
  fun w => (Ok tt, mkWorld (calls w) (log w ++ [(WARNING, msg)])).

Definition table_get_item (tabela : table) (key : list (string * value)) : M response :=
  fun w => (tabela (calls w) (GetItem key), mkWorld (calls w ++ [GetItem key]) (log w)).

Definition table_query (tabela : table) (q : query_args) : M response :=
  fun w => (tabela (calls w) (Query q), mkWorld (calls w ++ [Query q]) (log w)).

Definition cursor_execute (conn : connection) (statement : string)
  : M (list string * list (list value)) :=
  fun w => (conn (calls w) statement, mkWorld (calls w ++ [Execute statement]) (log w)).

(** [json.loads(json.dumps(x, indent=4, cls=DecimalEncoder))] inside an
    operation. *)
Definition json_roundtrip (x : value) : M value := lift (normalize x).

(** ** Dicts *)

Fixpoint dict_get {A} (k : string) (d : list (string * A)) : option A :=
  match d with
  | [] => None
  | (k', v) :: d' => if (k' =? k)%string then Some v else dict_get k d'
  end.

(** [d[k] = v]: an existing key keeps its place and takes the new value, a
    new key goes last. *)
Fixpoint dict_set {A} (k : string) (v : A) (d : list (string * A)) : list (string * A) :=
  match d with
  | [] => [(k, v)]
  | (k', v') :: d' =>
      if (k' =? k)%string then (k, v) :: d' else (k', v') :: dict_set k v d'
  end.

(** [dict(pairs)]. *)
Definition dict_of {A} (pairs : list (string * A)) : list (string * A) :=
  fold_left (fun d kv => dict_set (fst kv) (snd kv) d) pairs [].

(** [d[k]], raising [KeyError] for an absent key. *)
Definition subscript (d : list (string * value)) (k : string) : M value :=
  match dict_get k d with
  | Some v => ret v
  | None => raise (KeyError k)
  end.

(** ** OperationsDynamo *)

(** The read operations of [OperationsDynamo].  They return the Python
    value they return in the source: [VBool false] is [False]. *)
Module OperationsDynamo.

Definition get (tabela : table) (params : list (string * value)) : M value :=
  try_except_ClientError
    (table_get_item tabela params)
    (fun msg =>
       logging_error ("Erro ao obter item: " ++ msg) ;;;
       ret (VBool false))
    (fun response =>
       match Item response with
       | Some item =>
           if truthy item then json_roundtrip item
           else (logging_warning "Item não encontrado" ;;; ret (VBool false))
       | None => logging_warning "Item não encontrado" ;;; ret (VBool false)
       end).

Definition getByIndex (tabela : table) (index : list (string * value)) : M value :=
  index_key <- match map fst index with
               | [] => raise IndexError
               | k :: _ => ret k
               end ;;
  try_except_ClientError
    (v <- subscript index index_key ;;
     table_query tabela
       (mkQuery (Some (index_key ++ "-index")) (KeyEq index_key v)
          None None None None None None None None))
    (fun msg =>
       logging_error ("Erro ao consultar índice: " ++ msg) ;;;
       ret (VBool false))
    (fun response =>
       match Items response with
       | Some (i :: items) => json_roundtrip (VList (i :: items))
       | _ => logging_warning "Itens não encontrados" ;;; ret (VBool false)
       end).

Definition listAll (tabela : table) (params : expression) (fields : option string)
  (filter : option expression) (attrnames : option (list (string * string))) : M value :=
  try_except_ClientError
    (let query := mkQuery None params None None None None (Some false) None None None in
     let query := when_str fields set_ProjectionExpression query in
     let query := when_dict attrnames set_ExpressionAttributeNames query in
     let query := when_expr filter set_FilterExpression query in
     table_query tabela query)
    (fun msg =>
       logging_error ("Erro ao listar todos os itens: " ++ msg) ;;;
       ret (VBool false))
    (fun response =>
       match Items response with
       | Some (i :: items) => json_roundtrip (VList (i :: items))
       | _ => logging_warning "Nenhum item encontrado" ;;; ret (VBool false)
       end).

Definition getFirstRegistry (tabela : table) (params : expression) (fields : option string)
  : M value :=
  try_except_ClientError
    (let query_args := mkQuery None params None None None None (Some true) (Some 1) None None in
     let query_args := when_str fields set_ProjectionExpression query_args in
     table_query tabela query_args)
    (fun msg =>
       logging_error ("Erro ao obter primeiro registro: " ++ msg) ;;;
       ret (VBool false))
    (fun response =>
       match Items response with
       | Some (i :: items) => json_roundtrip (VList (i :: items))
       | _ => logging_warning "Primeiro registro não encontrado" ;;; ret (VBool false)
       end).

Definition getLastRegistry (tabela : table) (params : expression) (fields : option string)
  : M value :=
  try_except_ClientError
    (let query_args := mkQuery None params None None None None (Some false) (Some 1) None None in
     let query_args := when_str fields set_ProjectionExpression query_args in
     table_query tabela query_args)
    (fun msg =>
       logging_error ("Erro ao obter último registro: " ++ msg) ;;;
       ret (VBool false))
    (fun response =>
       match Items response with
       | Some (i :: items) => json_roundtrip (VList (i :: items))
       | _ => logging_warning "Último registro não encontrado" ;;; ret (VBool false)
       end).

(** The arguments of the first query of [listAllPaginate]. *)
Definition listAllPaginate_query (params : expression) (fields : option string)
  (attrnames : option (list (string * string))) : query_args :=
  let query := mkQuery None params None None None None (Some false) None None None in
  let query := when_str fields set_ProjectionExpression query in
  when_dict attrnames set_ExpressionAttributeNames query.

(** The loop of [listAllPaginate]:
    [while 'LastEvaluatedKey' in response:] set [ExclusiveStartKey], query
    again and extend [data].  Each turn of the loop uses one unit of
    [fuel]. *)
Fixpoint listAllPaginate_loop (fuel : nat) (tabela : table) (query : query_args)
  (response : response) (data : list value) : M (list value) :=
  match LastEvaluatedKey response with
  | None => ret data
  | Some key =>
      match fuel with
      | O => lift Diverged
      | S fuel' =>
          let query := set_ExclusiveStartKey key query in
          response <- table_query tabela query ;;
          listAllPaginate_loop fuel' tabela query response
            (data ++ match Items response with Some l => l | None => [] end)
      end
  end.

Definition listAllPaginate (fuel : nat) (tabela : table) (params : expression)
  (fields : option string) (attrnames : option (list (string * string))) : M value :=
  let query := listAllPaginate_query params fields attrnames in
  try_except_ClientError
    (table_query tabela query)
    (fun msg =>
       logging_error ("Erro ao listar todos os itens com paginação: " ++ msg) ;;;
       ret (VBool false))
    (fun response =>
       match Items response with
       | Some (i :: items) =>
           data <- listAllPaginate_loop fuel tabela query response (i :: items) ;;
           json_roundtrip (VList data)
       | _ => logging_warning "Nenhum item encontrado" ;;; ret (VBool false)
       end).

Definition scanPaginate (tabela : table) (expression : expression) (fields : string)
  (lastKey : option value) (limit : Z) (attrnames : option (list (string * string)))
  : M value :=
  try_except_ClientError
    (let query :=
       mkQuery None expression None (Some fields) None None (Some false) (Some limit)
         None None in
     let query := when_dict attrnames set_ExpressionAttributeNames query in
     let query := when_value lastKey set_ExclusiveStartKey query in
     table_query tabela query)
    (fun msg =>
       logging_error ("Erro ao realizar scan com paginação: " ++ msg) ;;;
       ret (VDict [("lastKey", VNone); ("results", VList [])]))
    (fun response =>
       match Items response with
       | Some (i :: items) =>
           results <- json_roundtrip (VList (i :: items)) ;;
           ret (VDict [("lastKey",
                        match LastEvaluatedKey response with
                        | Some k => k
                        | None => VNone
                        end);
                       ("results", results)])
       | _ =>
           logging_warning "Nenhum item encontrado no scan" ;;;
           ret (VDict [("lastKey", VNone); ("results", VList [])])
       end).

Definition scanFilter (tabela : table) (expression : expression) (limit : Z) : M value :=
  try_except_ClientError
    (table_query tabela
       (mkQuery None expression None None None None (Some false) (Some limit) None None))
    (fun msg =>
       logging_error ("Erro ao realizar scan com filtro: " ++ msg) ;;;
       ret (VBool false))
    (fun response =>
       match Items response with
       | Some (i :: items) => json_roundtrip (VList (i :: items))
       | _ =>
           logging_warning "Nenhum item encontrado no scan com filtro" ;;;
           ret (VBool false)
       end).

(** The query [queryFilter] issues for a filter object whose [tela] field
    is [t]. *)
Definition queryFilter_query (expression : expression) (t : value) : query_args :=
  mkQuery None expression
    (Some (ExprText "tela = :t OR descricao = :d OR cliente = :c"))
    None None
    (Some [(":t", t); (":d", VBool false); (":c", VBool false)])
    None None None None.

Definition queryFilter (tabela : table) (expression : expression)
  (filtro : option (list (string * value))) : M value :=
  try_except_ClientError
    (match filtro with
     | Some (e :: f) =>
         t <- subscript (e :: f) "tela" ;;
         table_query tabela (queryFilter_query expression t)
     | _ => table_query tabela (plain_query expression)
     end)
    (fun msg =>
       logging_error ("Erro ao realizar query com filtro: " ++ msg) ;;;
       ret (VBool false))
    (fun response =>
       match Items response with
       | Some (i :: items) => json_roundtrip (VList (i :: items))
       | _ =>
           logging_warning "Nenhum item encontrado na query com filtro" ;;;
           ret (VBool false)
       end).

Definition countQuery (tabela : table) (params : expression) : M value :=
  try_except_ClientError
    (table_query tabela
       (mkQuery None params None None None None (Some false) None None (Some "COUNT")))
    (fun msg =>
       logging_error ("Erro ao realizar count query: " ++ msg) ;;;
       ret (VBool false))
    (fun response =>
       match Count response with
       | Some count => ret (VInt count)
       | None =>
           logging_warning "Nenhum item encontrado na count query" ;;;
           ret (VBool false)
       end).

End OperationsDynamo.

(** ** OperationsSQL *)

Module OperationsSQL.

Definition nl : string := String (ascii_of_nat 10) EmptyString.
Definition indent8 : string := "        ".
Definition indent12 : string := "            ".

(** [dict(zip(columns, row))]. *)
Definition record_of (columns : list string) (row : list value) : value :=
  VDict (dict_of (combine columns row)).

Definition get (conn : connection) (tabela condicao : string) : M value :=
  let query := "SELECT * FROM " ++ tabela ++ " WHERE " ++ condicao ++ " LIMIT 1" in
  try_except_Exception
    (cr <- cursor_execute conn query ;;
     match snd cr with
     | (c :: row) :: _ => ret (record_of (fst cr) (c :: row))
     | _ =>
         logging_warning "Nenhum registro encontrado na consulta 'get'" ;;;
         ret VNone
     end)
    (fun e =>
       logging_error ("Erro ao executar a consulta 'get': " ++ str_exn e) ;;;
       ret VNone).

(** The statement [filter] builds: the f-string of the source, with its
    line breaks and indentation.  Its fields are written from left to
    right; writing the page size or the offset raises [ValueError] when the
    number is too long (see [str_int]). *)
Definition filter_query (tabela : string) (condicao campo_ordenar ordenacao : option string)
  (limite_por_pagina pagina : Z) (inner_join_receive select_receive : option string)
  : result string :=
  let offset := (pagina - 1) * limite_por_pagina in
  let select := "*" in
  let inner_join := EmptyString in
  let order_clause := EmptyString in
  let where_clause :=
    match condicao with
    | Some c => if truthy_str condicao then "WHERE " ++ c else EmptyString
    | None => EmptyString
    end in
  let order_clause :=
    match campo_ordenar, ordenacao with
    | Some c, Some o =>
        if truthy_str campo_ordenar && truthy_str ordenacao
        then "ORDER BY " ++ c ++ " " ++ o else order_clause
    | _, _ => order_clause
    end in
  let inner_join :=
    match inner_join_receive with
    | Some j => if truthy_str inner_join_receive then j else inner_join
    | None => inner_join
    end in
  let select :=
    match select_receive with
    | Some s => if truthy_str select_receive then s else select
    | None => select
    end in
  rbind (str_int limite_por_pagina) (fun limit_text =>
  rbind (str_int offset) (fun offset_text =>
  Ok (nl ++ indent12 ++ "SELECT " ++ select ++ " FROM " ++ tabela ++
      nl ++ indent12 ++ inner_join ++
      nl ++ indent12 ++ where_clause ++
      nl ++ indent12 ++ order_clause ++
      nl ++ indent12 ++ "LIMIT " ++ limit_text ++ " OFFSET " ++ offset_text ++
      nl ++ indent8))).

(** The statement is built before the [try]: an exception of the f-string
    is not caught by the handler. *)
Definition filter (conn : connection) (tabela : string)
  (condicao campo_ordenar ordenacao : option string) (limite_por_pagina pagina : Z)
  (inner_join_receive select_receive : option string) : M value :=
  query <- lift
    (filter_query tabela condicao campo_ordenar ordenacao limite_por_pagina pagina
       inner_join_receive select_receive) ;;
  try_except_Exception
    (cr <- cursor_execute conn query ;;
     ret (VList (map (record_of (fst cr)) (snd cr))))
    (fun e =>
       logging_error ("Erro ao executar a consulta 'filter': " ++ str_exn e) ;;;
       ret (VList [])).

Definition count_query (tabela field_count : string)
  (condicao inner_join_receive : option string) : string :=
  let select := "COUNT(" ++ field_count ++ ") AS total" in
  let inner_join := EmptyString in
  let where_clause :=
    match condicao with
    | Some c => if truthy_str condicao then "WHERE " ++ c else EmptyString
    | None => EmptyString
    end in
  let inner_join :=
    match inner_join_receive with
    | Some j => if truthy_str inner_join_receive then j else inner_join
    | None => inner_join
    end in
  nl ++ indent12 ++ "SELECT " ++ select ++ " FROM " ++ tabela ++
  nl ++ indent12 ++ inner_join ++
  nl ++ indent12 ++ where_clause ++
  nl ++ indent8.

Definition count (conn : connection) (tabela field_count : string)
  (condicao inner_join_receive : option string) : M value :=
  let query := count_query tabela field_count condicao inner_join_receive in
  try_except_Exception
    (cr <- cursor_execute conn query ;;
     ret (VList (map (record_of (fst cr)) (snd cr))))
    (fun e =>
       logging_error ("Erro ao executar a consulta 'count': " ++ str_exn e) ;;;
       ret (VList [])).

End OperationsSQL.

(** ** Reference backends *)

Definition empty_world : world := mkWorld [] [].

(** A document store that answers its n-th call with the n-th entry of a
    script, and with an empty last page once the script is over. *)
Definition scripted_table (script : list (result response)) : table :=
  fun history _ => nth (List.length history) script (Ok (page [] None)).

Fixpoint insert_by_key (x : Z * value) (l : list (Z * value)) : list (Z * value) :=
  match l with
  | [] => [x]
  | y :: l' => if fst x <=? fst y then x :: y :: l' else y :: insert_by_key x l'
  end.

Definition sort_by_key (l : list (Z * value)) : list (Z * value) :=
  fold_right insert_by_key [] l.

(** A document-store partition holding records under integer sort keys.  A
    query reads the records in sort-key order, forwards unless
    [ScanIndexForward] is false, stops after [Limit] records, and reports
    the sort key of the last record read as the cursor when records
    remain. *)
Definition sorted_table (held : list (Z * value)) : table :=
  fun _ c =>
    match c with
    | Query q =>
        let ascending := sort_by_key held in
        let ordered :=
          match ScanIndexForward q with
          | Some false => rev ascending
          | _ => ascending
          end in
        let read :=
          match Limit q with
          | Some n => firstn (Z.to_nat n) ordered
          | None => ordered
          end in
        Ok (mkResponse None (Some (map snd read))
              (if (List.length read <? List.length ordered)%nat
               then option_map (fun kv => VInt (fst kv)) (last (map Some read) None)
               else None)
              (Some (Z.of_nat (List.length read))))
    | _ => Raise (OtherError "unsupported call")
    end.

(** A backend honours [Limit] when no page holds more items than asked. *)
Definition honours_limit (tabela : table) : Prop :=
  forall history q r n l,
    tabela history (Query q) = Ok r -> Limit q = Some n -> Items r = Some l ->
    (List.length l <= Z.to_nat n)%nat.

Definition is_space (c : ascii) : bool :=
  (c =? " ")%char || (c =? ascii_of_nat 10)%char.

(** The words of a statement: maximal runs of characters other than spaces
    and newlines.  [cur] is the word being read. *)
Fixpoint words_from (cur : string) (s : string) : list string :=
  match s with
  | EmptyString => if (cur =? EmptyString)%string then [] else [cur]
  | String c s' =>
      if is_space c then
        if (cur =? EmptyString)%string then words_from EmptyString s'
        else cur :: words_from EmptyString s'
      else words_from (cur ++ String c EmptyString) s'
  end.

Definition words (s : string) : list string := words_from EmptyString s.

(** [int(s)] for the decimal text of an integer. *)
Definition parse_int (s : string) : option Z :=
  option_map Z.of_int (NilZero.int_of_string s).

(** A relational store over one fixed result set: it reads the
    [LIMIT n OFFSET k] that ends a statement and answers with [n] rows
    after skipping [k]; a statement that does not end so, or a negative
    [n] or [k], is an error. *)
Definition paged_store (columns : list string) (rows : list (list value)) : connection :=
  fun _ statement =>
    match rev (words statement) with
    | k :: "OFFSET" :: n :: "LIMIT" :: _ =>
        match parse_int n, parse_int k with
        | Some n, Some k =>
            if (0 <=? n) && (0 <=? k)
            then Ok (columns, firstn (Z.to_nat n) (skipn (Z.to_nat k) rows))
            else Raise (OtherError "syntax error")
        | _, _ => Raise (OtherError "syntax error")
        end
    | _ => Raise (OtherError "syntax error")
    end.

(** A relational store that answers every statement with the same rows. *)
Definition constant_store (columns : list string) (rows : list (list value)) : connection :=
  fun _ _ => Ok (columns, rows).

(** The part of [normalize] that walks a list, and the part that walks the
    entries of a dict. *)
Definition normalize_list : list value -> result (list value) :=
  fix go (l : list value) : result (list value) :=
    match l with
    | [] => Ok []
    | x :: l' => rbind (normalize x) (fun y => rbind (go l') (fun ys => Ok (y :: ys)))
    end.

Definition normalize_entries : list (string * value) -> result (list (string * value)) :=
  fix go (l : list (string * value)) : result (list (string * value)) :=
    match l with
    | [] => Ok []
    | (k, x) :: l' =>
        rbind (normalize x) (fun y => rbind (go l') (fun ys => Ok ((k, y) :: ys)))
    end.

(** The values [json.loads] can build: no decimal, binary or set inside,
    and no int longer than the interpreter reads. *)
#[warnings="-register-all"]
Inductive json_value : value -> Prop :=
| json_None : json_value VNone
| json_Bool b : json_value (VBool b)
| json_Int n : int_str_fits n = true -> json_value (VInt n)
| json_Float f : json_value (VFloat f)
| json_Str s : json_value (VStr s)
| json_List l : Forall json_value l -> json_value (VList l)
| json_Dict kvs : Forall (fun kv => json_value (snd kv)) kvs -> json_value (VDict kvs).

(** ** Statements of the specification and auxiliary definitions *)

(** What the specification says of [listAllPaginate] over three pages
    [P1] (cursor [c1]), [P2] (cursor [c2]) and [P3] (no cursor): the
    operation returns the normalized concatenation of the three pages after
    exactly three queries, the second continuing from [c1] and the third
    from [c2]. *)
Definition listAllPaginate_concatenates (P1 P2 P3 : list value) (c1 c2 : value) : Prop :=
  forall (fuel : nat) (tabela : table) (params : expression) (fields : option string)
    (attrnames : option (list (string * string))) (w : world) (r1 r2 r3 : response),
    let q0 := OperationsDynamo.listAllPaginate_query params fields attrnames in
    let q1 := set_ExclusiveStartKey c1 q0 in
    let q2 := set_ExclusiveStartKey c2 q1 in
    tabela (calls w) (Query q0) = Ok r1 ->
    Items r1 = Some P1 -> LastEvaluatedKey r1 = Some c1 ->
    tabela (calls w ++ [Query q0])%list (Query q1) = Ok r2 ->
    Items r2 = Some P2 -> LastEvaluatedKey r2 = Some c2 ->
    tabela (calls w ++ [Query q0; Query q1])%list (Query q2) = Ok r3 ->
    Items r3 = Some P3 -> LastEvaluatedKey r3 = None ->
    (2 <= fuel)%nat ->
    OperationsDynamo.listAllPaginate fuel tabela params fields attrnames w =
      (normalize (VList (P1 ++ P2 ++ P3)),
       mkWorld (calls w ++ [Query q0; Query q1; Query q2]) (log w)).

(** The query [scanPaginate] issues. *)
Definition scanPaginate_query (expression : expression) (fields : string)
  (lastKey : option value) (limit : Z) (attrnames : option (list (string * string)))
  : query_args :=
  when_value lastKey set_ExclusiveStartKey
    (when_dict attrnames set_ExpressionAttributeNames
       (mkQuery None expression None (Some fields) None None (Some false) (Some limit)
          None None)).

(** The single-page contract of [scanPaginate], with the name of the field
    that carries the cursor left open.  After one query, a response with
    items and a cursor gives an object with the backend's cursor under
    [cursor_field] and the normalized items of that page under [results];
    when the normalization of the items raises, the operation raises the
    same exception, after that one query.  A backend fault gives the object
    with a null cursor and no results. *)
Definition scanPaginate_contract (cursor_field : string)
  (tabela : table) (expression : expression) (fields : string) (lastKey : option value)
  (limit : Z) (attrnames : option (list (string * string))) (w : world) : Prop :=
  let q := scanPaginate_query expression fields lastKey limit attrnames in
  let run :=
    OperationsDynamo.scanPaginate tabela expression fields lastKey limit attrnames w in
  (forall r i items c,
     tabela (calls w) (Query q) = Ok r ->
     Items r = Some (i :: items) -> LastEvaluatedKey r = Some c ->
     match normalize (VList (i :: items)) with
     | Ok results =>
         exists obj,
           run = (Ok (VDict obj), mkWorld (calls w ++ [Query q]) (log w)) /\
           dict_get cursor_field obj = Some c /\
           dict_get "results" obj = Some results
     | Raise e => run = (Raise e, mkWorld (calls w ++ [Query q]) (log w))
     | Diverged => run = (Diverged, mkWorld (calls w ++ [Query q]) (log w))
     end) /\
  (forall msg,
     tabela (calls w) (Query q) = Raise (ClientError msg) ->
     exists obj log',
       run = (Ok (VDict obj), mkWorld (calls w ++ [Query q]) log') /\
       dict_get cursor_field obj = Some VNone /\
       dict_get "results" obj = Some (VList [])).

(** The query [countQuery] issues. *)
Definition countQuery_query (params : expression) : query_args :=
  mkQuery None params None None None None (Some false) None None (Some "COUNT").

(** The query [getFirstRegistry] issues ([forward = true]) and the one
    [getLastRegistry] issues ([forward = false]). *)
Definition registry_query (forward : bool) (params : expression) (fields : option string)
  : query_args :=
  when_str fields set_ProjectionExpression
    (mkQuery None params None None None None (Some forward) (Some 1) None None).

(** The shape the specification gives for the statement of [filter]. *)
Definition select_shape (proj table join where_ order : string) (size offset : Z) : string :=
  "SELECT " ++ proj ++ " FROM " ++ table ++ " " ++ join ++ " " ++ where_ ++ " " ++ order ++
  " LIMIT " ++ decimal_text size ++ " OFFSET " ++ decimal_text offset.

(** An optional clause: the text built from the caller's argument when one
    is given (and is not empty), a default otherwise. *)
Definition clause (arg : option string) (build : string -> string) (default : string)
  : string :=
  match arg with
  | Some a => if (a =? EmptyString)%string then default else build a
  | None => default
  end.

Definition order_by (campo_ordenar ordenacao : option string) : string :=
  match campo_ordenar, ordenacao with
  | Some c, Some o =>
      if (c =? EmptyString)%string || (o =? EmptyString)%string then EmptyString
      else "ORDER BY " ++ c ++ " " ++ o
  | _, _ => EmptyString
  end.

(** What the specification says of [filter] at a page size and a page
    number: whatever the other arguments and the store, the operation
    executes one statement, whose words are those of the shape
    [SELECT ... LIMIT size OFFSET (page - 1) * size]. *)
Definition filter_assembles (limite_por_pagina pagina : Z) : Prop :=
  forall (conn : connection) (tabela : string)
    (condicao campo_ordenar ordenacao inner_join_receive select_receive : option string)
    (w : world),
  exists statement,
    calls (snd (OperationsSQL.filter conn tabela condicao campo_ordenar ordenacao
                  limite_por_pagina pagina inner_join_receive select_receive w)) =
      (calls w ++ [Execute statement])%list /\
    words statement =
      words (select_shape (clause select_receive (fun s => s) "*") tabela
               (clause inner_join_receive (fun j => j) EmptyString)
               (clause condicao (fun c => "WHERE " ++ c) EmptyString)
               (order_by campo_ordenar ordenacao)
               limite_por_pagina ((pagina - 1) * limite_por_pagina)).

Definition flush (cur : string) : list string :=
  if (cur =? EmptyString)%string then [] else [cur].

Fixpoint no_space (s : string) : bool :=
  match s with
  | EmptyString => true
  | String c s' => negb (is_space c) && no_space s'
  end.

(** The integer part of the magnitude of a decimal, and whether its
    fractional part is zero. *)
Definition decimal_trunc (d : PyDecimal) : N :=
  if 0 <=? dec_exp d then (dec_int d * pow10 (dec_exp d))%N
  else (dec_int d / pow10 (- dec_exp d))%N.

Definition decimal_is_integral (d : PyDecimal) : bool :=
  (0 <=? dec_exp d) || (dec_int d mod pow10 (- dec_exp d) =? 0)%N.

(** The normalization as the specification words it: every decimal is
    replaced by an integer when its fractional part is zero and by a float
    otherwise, inside lists and dicts too; every other value is kept. *)
Fixpoint normalize_spec (v : value) : value :=
  match v with
  | VDecimal d =>
      if decimal_is_integral d then VInt (decimal_int d) else VFloat (decimal_float d)
  | VList l => VList (map normalize_spec l)
  | VDict kvs =>
      VDict (map (fun kv : string * value => let (k, x) := kv in (k, normalize_spec x)) kvs)
  | _ => v
  end.

(** The values of the data model of the specification (null, boolean,
    number, string, sequence, mapping) whose ints have at most
    [int_max_str_digits] digits and whose decimals have an integer part of
    at most 28 digits and an exponent of at least [ctx_Etiny]. *)
#[warnings="-register-all"]
Inductive in_range : value -> Prop :=
| in_range_None : in_range VNone
| in_range_Bool b : in_range (VBool b)
| in_range_Int n : int_str_fits n = true -> in_range (VInt n)
| in_range_Float f : in_range (VFloat f)
| in_range_Str s : in_range (VStr s)
| in_range_Decimal d :
    Z.abs (decimal_int d) < 10 ^ 28 -> ctx_Etiny <= dec_exp d -> in_range (VDecimal d)
| in_range_List l : Forall in_range l -> in_range (VList l)
| in_range_Dict kvs : Forall (fun kv => in_range (snd kv)) kvs -> in_range (VDict kvs).

(** ** Further statements *)

(** The values the encoder can take: no binary and no set inside, every
    int of at most [int_max_str_digits] digits and every decimal with an
    integer part of at most 28 digits. *)
#[warnings="-register-all"]
Inductive encodable : value -> Prop :=
| encodable_None : encodable VNone
| encodable_Bool b : encodable (VBool b)
| encodable_Int n : int_str_fits n = true -> encodable (VInt n)
| encodable_Float f : encodable (VFloat f)
| encodable_Str s : encodable (VStr s)
| encodable_Decimal d : Z.abs (decimal_int d) < 10 ^ 28 -> encodable (VDecimal d)
| encodable_List l : Forall encodable l -> encodable (VList l)
| encodable_Dict kvs : Forall (fun kv => encodable (snd kv)) kvs -> encodable (VDict kvs).

(** The items of a response, as [response.get('Items', [])] reads them. *)
Definition items_of (r : response) : list value :=
  match Items r with
  | Some l => l
  | None => []
  end.

(** The backend answers the continuation queries of [listAllPaginate] with
    the responses [rest], one after the other: while responses remain the
    current one carries a cursor and the query that continues from it gets
    the next one; the last one carries no cursor. *)
Fixpoint continues (tabela : table) (history : list call) (query : query_args)
  (current : response) (rest : list response) : Prop :=
  match rest with
  | [] => LastEvaluatedKey current = None
  | next :: rest' =>
      exists key,
        LastEvaluatedKey current = Some key /\
        tabela history (Query (set_ExclusiveStartKey key query)) = Ok next /\
        continues tabela (history ++ [Query (set_ExclusiveStartKey key query)])
          (set_ExclusiveStartKey key query) next rest'
  end.

(** The continuation queries themselves: each starts from the cursor of the
    response before it. *)
Fixpoint continuation_queries (query : query_args) (current : response)
  (rest : list response) : list call :=
  match rest, LastEvaluatedKey current with
  | next :: rest', Some key =>
      Query (set_ExclusiveStartKey key query)
        :: continuation_queries (set_ExclusiveStartKey key query) next rest'
  | _, _ => []
  end.

(** A document store whose every answer is the same response. *)
Definition constant_table (r : response) : table := fun _ _ => Ok r.

(** The query [listAll] issues. *)
Definition listAll_query (params : expression) (fields : option string)
  (filter : option expression) (attrnames : option (list (string * string)))
  : query_args :=
  when_expr filter set_FilterExpression
    (when_dict attrnames set_ExpressionAttributeNames
       (when_str fields set_ProjectionExpression
          (mkQuery None params None None None None (Some false) None None None))).

(** The records of a page [filter] returned (none when it did not return a
    list). *)
Definition page_records (r : result value) : list value :=
  match r with
  | Ok (VList l) => l
  | _ => []
  end.

(** The shape the specification gives for the statement of [count]. *)
Definition count_shape (field table join where_ : string) : string :=
  "SELECT COUNT(" ++ field ++ ") AS total FROM " ++ table ++ " " ++ join ++ " " ++ where_.

(** *** update *)

(** The keyword arguments [update] passes to [tabela.update_item], the
    entries of its [update_args] dict. *)
Record update_item_args : Type := mkUpdateItem {
  upd_Key : list (string * value);
  upd_UpdateExpression : string;
  upd_ExpressionAttributeValues : list (string * value);
  upd_ReturnValues : string;
  upd_ExpressionAttributeNames : option (list (string * string))
}.

(** The handle [tabela] as [update] uses it: what [update_item] answers (the
    response dict, or an exception), given the updates already made. *)
Definition update_table : Type :=
  list update_item_args -> update_item_args -> result (list (string * value)).

(** The updates made so far and the lines logged. *)
Record update_world : Type := mkUpdateWorld {
  update_calls : list update_item_args;
  update_log : list (level * string)
}.

(** [OperationsDynamo.update], with its state passed explicitly. *)
Definition OperationsDynamo_update (tabela : update_table)
  (condition : list (string * value)) (expression : string)
  (attr : list (string * value)) (attrnames : option (list (string * string)))
  (w : update_world) : result value * update_world :=
  let update_args := mkUpdateItem condition expression attr "UPDATED_NEW" None in
  let update_args :=
    match attrnames with
    | Some (n :: names) =>
        mkUpdateItem (upd_Key update_args) (upd_UpdateExpression update_args)
          (upd_ExpressionAttributeValues update_args) (upd_ReturnValues update_args)
          (Some (n :: names))
    | _ => update_args
    end in
  let called := (update_calls w ++ [update_args])%list in
  match tabela (update_calls w) update_args with
  | Raise (ClientError msg) =>
      (Ok (VBool false),
       mkUpdateWorld called (update_log w ++ [(ERROR, "Erro ao atualizar item: " ++ msg)]))
  | Raise e => (Raise e, mkUpdateWorld called (update_log w))
  | Diverged => (Diverged, mkUpdateWorld called (update_log w))
  | Ok response_update =>
      match dict_get "Attributes" response_update with
      | Some _ => (Ok (VBool true), mkUpdateWorld called (update_log w))
      | None =>
          (Ok (VBool false),
           mkUpdateWorld called (update_log w ++ [(WARNING, "Falha ao atualizar item")]))
      end
  end.

(** The arguments [update] passes to [update_item]. *)
Definition update_args_of (condition : list (string * value)) (expression : string)
  (attr : list (string * value)) (attrnames : option (list (string * string)))
  : update_item_args :=
  mkUpdateItem condition expression attr "UPDATED_NEW"
    (if truthy_dict attrnames then attrnames else None).

(** ** Running operations *)

Ltac unfold_ops :=
  unfold OperationsDynamo.get, OperationsDynamo.getByIndex, OperationsDynamo.listAll,
    OperationsDynamo.getFirstRegistry, OperationsDynamo.getLastRegistry,
    OperationsDynamo.listAllPaginate, OperationsDynamo.scanPaginate,
    OperationsDynamo.scanFilter, OperationsDynamo.queryFilter,
    OperationsDynamo.countQuery, OperationsSQL.get, OperationsSQL.filter,
    OperationsSQL.count.

Ltac unfold_monad :=
  unfold try_except_ClientError, try_except_Exception, bind, ret, raise, lift,
    subscript, json_roundtrip, logging_error, logging_warning,
    table_query, table_get_item, cursor_execute.

(** [step H] runs an operation up to the backend call whose answer [H]
    gives. *)
Ltac step H := unfold_ops; unfold_monad; cbn [calls log]; rewrite H; cbn [calls log].

(** * Properties *)

(** ** Normalization *)

Lemma normalize_VList l : normalize (VList l) = rmap VList (normalize_list l).
Proof. reflexivity. Qed.

Lemma normalize_VDict kvs : normalize (VDict kvs) = rmap VDict (normalize_entries kvs).
Proof. reflexivity. Qed.

Lemma rbind_Ok_inv {A B} (r : result A) (k : A -> result B) b :
  rbind r k = Ok b -> exists a, r = Ok a /\ k a = Ok b.
Proof. destruct r; simpl; intros H; try discriminate. eauto. Qed.

Lemma encode_int_Ok n w : encode_int n = Ok w -> w = VInt n /\ int_str_fits n = true.
Proof.
  unfold encode_int, str_int. destruct (int_str_fits n); simpl; intros H; inversion H; auto.
Qed.

Lemma encode_int_fits n : int_str_fits n = true -> encode_int n = Ok (VInt n).
Proof. unfold encode_int, str_int. intros ->. reflexivity. Qed.

Lemma int_str_bound_pow : int_str_bound = 10 ^ int_max_str_digits.
Proof. vm_compute. reflexivity. Qed.

(** The integers of at most 28 digits are far below the limit. *)
Lemma int_str_fits_28 n : Z.abs n < 10 ^ 28 -> int_str_fits n = true.
Proof.
  intros Hn. unfold int_str_fits. apply Z.ltb_lt.
  apply (Z.lt_trans _ _ _ Hn). vm_compute. reflexivity.
Qed.

(** Below an integer that can be written, every natural number can. *)
Lemma int_str_fits_le a b : 0 <= a <= b -> int_str_fits b = true -> int_str_fits a = true.
Proof. unfold int_str_fits. rewrite !Z.ltb_lt. lia. Qed.

Lemma default_returns_number o o' :
  DecimalEncoder.default o = Ok o' ->
  (exists n, o' = VInt n) \/ (exists f, o' = VFloat f).
Proof.
  destruct o; simpl; try discriminate.
  intros H. apply rbind_Ok_inv in H. destruct H as (r & _ & H).
  destruct (decimal_bool r); inversion H; eauto.
Qed.

Lemma normalize_list_json l :
  Forall (fun v => forall w, normalize v = Ok w -> json_value w) l ->
  forall ws, normalize_list l = Ok ws -> Forall json_value ws.
Proof.
  induction 1 as [|x l Hx _ IH]; simpl; intros ws Hws.
  - inversion Hws. constructor.
  - apply rbind_Ok_inv in Hws. destruct Hws as (y & Hy & Hws).
    apply rbind_Ok_inv in Hws. destruct Hws as (ys & Hys & Hws).
    inversion Hws. constructor; auto.
Qed.

Lemma normalize_entries_json kvs :
  Forall (fun kv => forall w, normalize (snd kv) = Ok w -> json_value w) kvs ->
  forall ws, normalize_entries kvs = Ok ws -> Forall (fun kv => json_value (snd kv)) ws.
Proof.
  induction 1 as [|[k x] l Hx _ IH]; simpl; intros ws Hws.
  - inversion Hws. constructor.
  - apply rbind_Ok_inv in Hws. destruct Hws as (y & Hy & Hws).
    apply rbind_Ok_inv in Hws. destruct Hws as (ys & Hys & Hws).
    inversion Hws. constructor; simpl; auto.
Qed.

(** Whatever normalization returns is a JSON value. *)
Lemma normalize_json v : forall w, normalize v = Ok w -> json_value w.
Proof.
  induction v as [| |n| | |d| | |l IH|kvs IH] using value_ind; intros w Hw;
    try (inversion Hw; subst; constructor; fail).
  - apply encode_int_Ok in Hw. destruct Hw as [-> Hn]. constructor. exact Hn.
  - change (normalize (VDecimal d))
      with (rbind (DecimalEncoder.default (VDecimal d)) encode_default_result) in Hw.
    apply rbind_Ok_inv in Hw. destruct Hw as (o' & Hd & He).
    apply default_returns_number in Hd.
    destruct Hd as [[n ->]|[f ->]].
    + apply encode_int_Ok in He. destruct He as [-> Hn]. constructor. exact Hn.
    + inversion He. constructor.
  - rewrite normalize_VList in Hw. apply rbind_Ok_inv in Hw.
    destruct Hw as (ws & Hws & Hw). inversion Hw.
    constructor. eapply normalize_list_json; eauto.
  - rewrite normalize_VDict in Hw. apply rbind_Ok_inv in Hw.
    destruct Hw as (ws & Hws & Hw). inversion Hw.
    constructor. eapply normalize_entries_json; eauto.
Qed.

Lemma normalize_list_id l :
  Forall (fun v => json_value v -> normalize v = Ok v) l ->
  Forall json_value l -> normalize_list l = Ok l.
Proof.
  induction 1 as [|x l Hx _ IH]; intros Hj; [reflexivity|].
  inversion Hj as [|? ? Hjx Hjl]; subst. simpl.
  rewrite (Hx Hjx). simpl. rewrite (IH Hjl). reflexivity.
Qed.

Lemma normalize_entries_id kvs :
  Forall (fun kv => json_value (snd kv) -> normalize (snd kv) = Ok (snd kv)) kvs ->
  Forall (fun kv => json_value (snd kv)) kvs -> normalize_entries kvs = Ok kvs.
Proof.
  induction 1 as [|[k x] l Hx _ IH]; intros Hj; [reflexivity|].
  inversion Hj as [|? ? Hjx Hjl]; subst. simpl in *.
  rewrite (Hx Hjx). simpl. rewrite (IH Hjl). reflexivity.
Qed.

(** A JSON value is left as it is. *)
Lemma normalize_json_id w : json_value w -> normalize w = Ok w.
Proof.
  induction w as [| |n| | | | | |l IH|kvs IH] using value_ind;
    intros Hj; inversion Hj as [| |? Hn| | |? Hl|? Hl]; subst; try reflexivity.
  - apply encode_int_fits, Hn.
  - rewrite normalize_VList, (normalize_list_id l IH Hl). reflexivity.
  - rewrite normalize_VDict, (normalize_entries_id kvs IH Hl). reflexivity.
Qed.

(** C9: normalization is idempotent.  Normalizing what a normalization
    returned gives the same value again, and a normalization that raises
    raises the same way when repeated: running it twice in sequence is
    running it once. *)
Theorem normalize_idempotent (v : value) :
  rbind (normalize v) normalize = normalize v.
Proof.
  destruct (normalize v) as [w| |] eqn:Hv; simpl; try reflexivity.
  apply normalize_json_id. eapply normalize_json; eauto.
Qed.

(** ** Pagination *)

(** C10: when the first response of [listAllPaginate] holds no items, the
    operation returns [False] after that one query (logging a warning),
    whatever continuation cursor the response carries. *)
Theorem listAllPaginate_empty_first_page
  (fuel : nat) (tabela : table) (params : expression) (fields : option string)
  (attrnames : option (list (string * string))) (w : world) (r : response) :
  let q0 := OperationsDynamo.listAllPaginate_query params fields attrnames in
  tabela (calls w) (Query q0) = Ok r ->
  Items r = None \/ Items r = Some [] ->
  OperationsDynamo.listAllPaginate fuel tabela params fields attrnames w =
    (Ok (VBool false),
     mkWorld (calls w ++ [Query q0]) (log w ++ [(WARNING, "Nenhum item encontrado")])).
Proof.
  intros q0 Hr Hitems. subst q0. step Hr.
  destruct Hitems as [-> | ->]; reflexivity.
Qed.

Lemma listAllPaginate_empty_first_page_witness :
  OperationsDynamo.listAllPaginate 3%nat
    (scripted_table [Ok (page [] (Some (VInt 1))); Ok (page [VStr "a"] None)])
    (ExprText "pk = :p") None None empty_world =
  (Ok (VBool false),
   mkWorld [Query (OperationsDynamo.listAllPaginate_query (ExprText "pk = :p") None None)]
     [(WARNING, "Nenhum item encontrado")]).
Proof.
  apply (listAllPaginate_empty_first_page 3%nat
           (scripted_table [Ok (page [] (Some (VInt 1))); Ok (page [VStr "a"] None)])
           (ExprText "pk = :p") None None empty_world (page [] (Some (VInt 1)))).
  - reflexivity.
  - right. reflexivity.
Defined.

(** C2, amended: over three pages of which the first is not empty,
    [listAllPaginate] returns the normalized concatenation of the pages in
    order, after exactly three queries; it queries again exactly while the
    response it holds carries a cursor. *)
Theorem listAllPaginate_three_pages (P1 P2 P3 : list value) (c1 c2 : value) :
  P1 <> [] -> listAllPaginate_concatenates P1 P2 P3 c1 c2.
Proof.
  intros HP1 fuel tabela params fields attrnames w r1 r2 r3 q0 q1 q2
    H1 HI1 HL1 H2 HI2 HL2 H3 HI3 HL3 Hfuel.
  destruct P1 as [|i P1]; [congruence|].
  destruct fuel as [|[|fuel]]; try lia.
  subst q2 q1 q0.
  step H1. rewrite HI1.
  cbn [OperationsDynamo.listAllPaginate_loop]. rewrite HL1.
  unfold_monad. cbn [calls log].
  rewrite H2. cbn [calls log].
  cbn [OperationsDynamo.listAllPaginate_loop]. rewrite HL2, HI2.
  unfold_monad. cbn [calls log].
  rewrite <- app_assoc. cbn [app]. rewrite H3. cbn [calls log].
  rewrite HI3.
  destruct fuel; cbn [OperationsDynamo.listAllPaginate_loop]; rewrite HL3;
    unfold_monad; rewrite <- !app_assoc; cbn [app];
    destruct (normalize (VList (i :: P1 ++ P2 ++ P3))); reflexivity.
Qed.

Lemma listAllPaginate_three_pages_witness :
  OperationsDynamo.listAllPaginate 2%nat
    (scripted_table
       [Ok (page [VDecimal (mkDecimal false 1 0)] (Some (VInt 1)));
        Ok (page [VDecimal (mkDecimal false 25 (-1))] (Some (VInt 2)));
        Ok (page [VStr "c"] None)])
    (ExprText "pk = :p") None None empty_world =
  (Ok (VList [VInt 1; VFloat (S754_finite false 5629499534213120 (-51)); VStr "c"]),
   mkWorld
     [Query (OperationsDynamo.listAllPaginate_query (ExprText "pk = :p") None None);
      Query (set_ExclusiveStartKey (VInt 1)
               (OperationsDynamo.listAllPaginate_query (ExprText "pk = :p") None None));
      Query (set_ExclusiveStartKey (VInt 2)
               (set_ExclusiveStartKey (VInt 1)
                  (OperationsDynamo.listAllPaginate_query (ExprText "pk = :p") None None)))]
     []).
Proof.
  apply (listAllPaginate_three_pages
           [VDecimal (mkDecimal false 1 0)] [VDecimal (mkDecimal false 25 (-1))]
           [VStr "c"] (VInt 1) (VInt 2)
           ltac:(discriminate) 2%nat
           (scripted_table
              [Ok (page [VDecimal (mkDecimal false 1 0)] (Some (VInt 1)));
               Ok (page [VDecimal (mkDecimal false 25 (-1))] (Some (VInt 2)));
               Ok (page [VStr "c"] None)])
           (ExprText "pk = :p") None None empty_world
           (page [VDecimal (mkDecimal false 1 0)] (Some (VInt 1)))
           (page [VDecimal (mkDecimal false 25 (-1))] (Some (VInt 2)))
           (page [VStr "c"] None));
    reflexivity.
Defined.

(** C2 as stated fails when the first page is empty: the two later pages
    are never asked for and [False] is returned. *)
Lemma listAllPaginate_concatenates_fails :
  ~ listAllPaginate_concatenates [] [VStr "a"] [VStr "b"] (VInt 1) (VInt 2).
Proof.
  intros H.
  specialize (H 2%nat
    (scripted_table
       [Ok (page [] (Some (VInt 1))); Ok (page [VStr "a"] (Some (VInt 2)));
        Ok (page [VStr "b"] None)])
    (ExprText "pk = :p") None None empty_world
    (page [] (Some (VInt 1))) (page [VStr "a"] (Some (VInt 2))) (page [VStr "b"] None)
    eq_refl eq_refl eq_refl eq_refl eq_refl eq_refl eq_refl eq_refl eq_refl (le_n 2%nat)).
  vm_compute in H. discriminate H.
Qed.

(** C4, amended: the cursor is carried by the field [lastKey].  After
    exactly one query, a response with a non-empty item sequence and a
    continuation cursor gives the object whose [lastKey] is the backend's
    cursor, unchanged, and whose [results] are the normalized items of that
    page, provided the items can be normalized; when normalizing them
    raises, the operation raises the same exception after that one query.
    A backend fault gives [{lastKey: null, results: []}]. *)
Theorem scanPaginate_single_page
  (tabela : table) (expression : expression) (fields : string) (lastKey : option value)
  (limit : Z) (attrnames : option (list (string * string))) (w : world) :
  scanPaginate_contract "lastKey" tabela expression fields lastKey limit attrnames w.
Proof.
  unfold scanPaginate_contract, scanPaginate_query. split.
  - intros r i items c Hr HI HL.
    step Hr. rewrite HI, HL.
    destruct (normalize (VList (i :: items))) as [results|e|]; try reflexivity.
    eexists. split; [reflexivity|]. split; reflexivity.
  - intros msg Hr.
    step Hr. do 2 eexists. split; [reflexivity|]. split; reflexivity.
Qed.

Lemma scanPaginate_single_page_witness :
  exists obj,
    OperationsDynamo.scanPaginate
      (scripted_table
         [Ok (page [VDict [("sk", VDecimal (mkDecimal false 7 0))]]
                (Some (VDict [("sk", VDecimal (mkDecimal false 7 0))])))])
      (ExprText "pk = :p") "sk" None 1 None empty_world =
      (Ok (VDict obj),
       mkWorld [Query (scanPaginate_query (ExprText "pk = :p") "sk" None 1 None)] []) /\
    dict_get "lastKey" obj = Some (VDict [("sk", VDecimal (mkDecimal false 7 0))]) /\
    dict_get "results" obj = Some (VList [VDict [("sk", VInt 7)]]).
Proof.
  apply (proj1 (scanPaginate_single_page
                  (scripted_table
                     [Ok (page [VDict [("sk", VDecimal (mkDecimal false 7 0))]]
                            (Some (VDict [("sk", VDecimal (mkDecimal false 7 0))])))])
                  (ExprText "pk = :p") "sk" None 1 None empty_world)
           (page [VDict [("sk", VDecimal (mkDecimal false 7 0))]]
              (Some (VDict [("sk", VDecimal (mkDecimal false 7 0))])))
           (VDict [("sk", VDecimal (mkDecimal false 7 0))]) []
           (VDict [("sk", VDecimal (mkDecimal false 7 0))]));
    reflexivity.
Defined.

(** C4 as stated fails: the object [scanPaginate] returns has no field
    named [cursor]. *)
Lemma scanPaginate_has_no_cursor_field :
  ~ scanPaginate_contract "cursor"
      (scripted_table [Ok (page [VStr "a"] (Some (VInt 1)))])
      (ExprText "pk = :p") "sk" None 1 None empty_world.
Proof.
  intros [H _].
  destruct (H (page [VStr "a"] (Some (VInt 1))) (VStr "a") [] (VInt 1)
              eq_refl eq_refl eq_refl) as (obj & Hrun & Hcursor & _).
  vm_compute in Hrun. inversion Hrun; subst obj.
  vm_compute in Hcursor. discriminate Hcursor.
Qed.

(** ** Counting *)

(** C5: a count of zero is returned as the integer [0] by [countQuery],
    where a backend fault gives [False]; the relational [count] returns the
    one row [{total: 0}] the store counted, where a fault gives the empty
    list.  In both a zero count differs from the failure value. *)
Theorem count_zero_is_not_failure :
  (forall (tabela : table) (params : expression) (w : world) (r : response),
     tabela (calls w) (Query (countQuery_query params)) = Ok r ->
     Count r = Some 0 ->
     OperationsDynamo.countQuery tabela params w =
       (Ok (VInt 0), mkWorld (calls w ++ [Query (countQuery_query params)]) (log w))) /\
  (forall (tabela : table) (params : expression) (w : world) (msg : string),
     tabela (calls w) (Query (countQuery_query params)) = Raise (ClientError msg) ->
     fst (OperationsDynamo.countQuery tabela params w) = Ok (VBool false)) /\
  VInt 0 <> VBool false /\
  (forall (conn : connection) (tabela field_count : string)
     (condicao inner_join_receive : option string) (w : world),
     conn (calls w)
       (OperationsSQL.count_query tabela field_count condicao inner_join_receive) =
       Ok (["total"], [[VInt 0]]) ->
     fst (OperationsSQL.count conn tabela field_count condicao inner_join_receive w) =
       Ok (VList [VDict [("total", VInt 0)]])) /\
  (forall (conn : connection) (tabela field_count : string)
     (condicao inner_join_receive : option string) (w : world) (e : exn),
     conn (calls w)
       (OperationsSQL.count_query tabela field_count condicao inner_join_receive) =
       Raise e ->
     fst (OperationsSQL.count conn tabela field_count condicao inner_join_receive w) =
       Ok (VList [])) /\
  VList [VDict [("total", VInt 0)]] <> VList [].
Proof.
  repeat split; try discriminate.
  - intros tabela params w r Hr Hc. unfold countQuery_query in *.
    step Hr. rewrite Hc. reflexivity.
  - intros tabela params w msg Hr. unfold countQuery_query in *.
    step Hr. reflexivity.
  - intros conn tabela field_count condicao inner_join_receive w Hr.
    step Hr. reflexivity.
  - intros conn tabela field_count condicao inner_join_receive w e Hr.
    step Hr. reflexivity.
Qed.

Lemma count_zero_is_not_failure_witness :
  OperationsDynamo.countQuery
    (scripted_table [Ok (mkResponse None None None (Some 0))]) (ExprText "pk = :p")
    empty_world =
    (Ok (VInt 0), mkWorld [Query (countQuery_query (ExprText "pk = :p"))] []) /\
  fst (OperationsSQL.count (constant_store ["total"] [[VInt 0]]) "pedidos" "id"
         (Some "cliente = 7") None empty_world) =
    Ok (VList [VDict [("total", VInt 0)]]).
Proof.
  split.
  - apply (proj1 count_zero_is_not_failure
             (scripted_table [Ok (mkResponse None None None (Some 0))])
             (ExprText "pk = :p") empty_world (mkResponse None None None (Some 0)));
      reflexivity.
  - apply (proj1 (proj2 (proj2 (proj2 count_zero_is_not_failure)))
             (constant_store ["total"] [[VInt 0]]) "pedidos" "id"
             (Some "cliente = 7") None empty_world).
    reflexivity.
Defined.

(** ** The fixed filter of queryFilter *)

(** A read path that issues the query [q] adds that one call, whatever the
    backend answers. *)
Lemma read_path_calls (tabela : table) (body : M response) (q : query_args)
  (on_error on_empty : string) (w : world) :
  body = table_query tabela q ->
  calls (snd (try_except_ClientError body
                (fun msg => logging_error (on_error ++ msg) ;;; ret (VBool false))
                (fun response =>
                   match Items response with
                   | Some (i :: items) => json_roundtrip (VList (i :: items))
                   | _ => logging_warning on_empty ;;; ret (VBool false)
                   end) w)) = (calls w ++ [Query q])%list.
Proof.
  intros ->. unfold_monad. cbn [calls log].
  destruct (tabela (calls w) (Query q)) as [r|e|]; cbn [calls log snd]; try reflexivity.
  - destruct (Items r) as [[|i items]|]; cbn [calls log snd]; reflexivity.
  - destruct e; reflexivity.
Qed.

(** C8: given a filter object with a [tela] field, [queryFilter] issues one
    query whose filter expression is the fixed text
    [tela = :t OR descricao = :d OR cliente = :c], with [:t] bound to the
    filter's [tela] and [:d] and [:c] bound to [False]; given no filter it
    issues one query with the key condition alone. *)
Theorem queryFilter_fixed_filter (tabela : table) (expression : expression) (w : world) :
  (forall (filtro : list (string * value)) (t : value),
     dict_get "tela" filtro = Some t ->
     calls (snd (OperationsDynamo.queryFilter tabela expression (Some filtro) w)) =
       (calls w ++
        [Query
           (mkQuery None expression
              (Some (ExprText "tela = :t OR descricao = :d OR cliente = :c"))
              None None
              (Some [(":t", t); (":d", VBool false); (":c", VBool false)])
              None None None None)])%list) /\
  calls (snd (OperationsDynamo.queryFilter tabela expression None w)) =
    (calls w ++ [Query (mkQuery None expression None None None None None None None None)])%list.
Proof.
  split.
  - intros filtro t Ht.
    destruct filtro as [|e f]; [discriminate|].
    unfold OperationsDynamo.queryFilter.
    apply (read_path_calls tabela).
    unfold subscript. rewrite Ht. reflexivity.
  - unfold OperationsDynamo.queryFilter. apply (read_path_calls tabela). reflexivity.
Qed.

Lemma queryFilter_fixed_filter_witness :
  calls (snd (OperationsDynamo.queryFilter
                (scripted_table [Ok (page [VStr "a"] None)]) (ExprText "pk = :p")
                (Some [("tela", VStr "home")]) empty_world)) =
    [Query
       (mkQuery None (ExprText "pk = :p")
          (Some (ExprText "tela = :t OR descricao = :d OR cliente = :c"))
          None None
          (Some [(":t", VStr "home"); (":d", VBool false); (":c", VBool false)])
          None None None None)].
Proof.
  apply (proj1 (queryFilter_fixed_filter (scripted_table [Ok (page [VStr "a"] None)])
                  (ExprText "pk = :p") empty_world)
           [("tela", VStr "home")] (VStr "home")).
  reflexivity.
Defined.

(** ** Faults that reach the caller *)

(** C3, at the inputs where it fails: [getByIndex] given an empty index
    mapping raises [IndexError] before any query; [queryFilter] given a
    non-empty filter object without a [tela] field raises [KeyError]
    without any query; and a [ClientError] raised by the second query of
    [listAllPaginate] leaves the operation as it is. *)
Theorem faults_reach_the_caller :
  (forall (tabela : table) (w : world),
     OperationsDynamo.getByIndex tabela [] w = (Raise IndexError, w)) /\
  (forall (tabela : table) (expression : expression) (filtro : list (string * value))
     (w : world),
     filtro <> [] -> dict_get "tela" filtro = None ->
     OperationsDynamo.queryFilter tabela expression (Some filtro) w =
       (Raise (KeyError "tela"), w)) /\
  (forall (fuel : nat) (tabela : table) (params : expression) (fields : option string)
     (attrnames : option (list (string * string))) (w : world) (r : response)
     (i : value) (items : list value) (c : value) (msg : string),
     let q0 := OperationsDynamo.listAllPaginate_query params fields attrnames in
     let q1 := set_ExclusiveStartKey c q0 in
     tabela (calls w) (Query q0) = Ok r ->
     Items r = Some (i :: items) -> LastEvaluatedKey r = Some c ->
     tabela (calls w ++ [Query q0])%list (Query q1) = Raise (ClientError msg) ->
     (1 <= fuel)%nat ->
     OperationsDynamo.listAllPaginate fuel tabela params fields attrnames w =
       (Raise (ClientError msg), mkWorld (calls w ++ [Query q0; Query q1]) (log w))).
Proof.
  split; [|split].
  - reflexivity.
  - intros tabela expression filtro w Hne Ht.
    destruct filtro as [|e f]; [congruence|].
    unfold_ops. unfold_monad. rewrite Ht. reflexivity.
  - intros fuel tabela params fields attrnames w r i items c msg q0 q1 Hr HI HL Hr2 Hfuel.
    subst q1 q0. destruct fuel as [|fuel]; [lia|].
    step Hr. rewrite HI.
    cbn [OperationsDynamo.listAllPaginate_loop]. rewrite HL.
    unfold_monad. cbn [calls log]. rewrite Hr2.
    rewrite <- app_assoc. reflexivity.
Qed.

Lemma faults_reach_the_caller_witness :
  OperationsDynamo.queryFilter (scripted_table []) (ExprText "pk = :p")
    (Some [("descricao", VStr "x")]) empty_world = (Raise (KeyError "tela"), empty_world) /\
  OperationsDynamo.listAllPaginate 1%nat
    (scripted_table [Ok (page [VStr "a"] (Some (VInt 1))); Raise (ClientError "throttled")])
    (ExprText "pk = :p") None None empty_world =
    (Raise (ClientError "throttled"),
     mkWorld
       [Query (OperationsDynamo.listAllPaginate_query (ExprText "pk = :p") None None);
        Query (set_ExclusiveStartKey (VInt 1)
                 (OperationsDynamo.listAllPaginate_query (ExprText "pk = :p") None None))]
       []).
Proof.
  split.
  - apply (proj1 (proj2 faults_reach_the_caller)); [discriminate | reflexivity].
  - apply (proj2 (proj2 faults_reach_the_caller) 1%nat
             (scripted_table
                [Ok (page [VStr "a"] (Some (VInt 1))); Raise (ClientError "throttled")])
             (ExprText "pk = :p") None None empty_world
             (page [VStr "a"] (Some (VInt 1))) (VStr "a") [] (VInt 1) "throttled");
      reflexivity.
Defined.

(** ** First and last record *)

Lemma sort_three (held : list (Z * value)) (i1 i2 i3 : value) :
  Permutation held [(1, i1); (2, i2); (3, i3)] ->
  sort_by_key held = [(1, i1); (2, i2); (3, i3)].
Proof.
  intros HP.
  assert (Hlen := Permutation_length HP).
  destruct held as [|x [|y [|z [|]]]]; try discriminate Hlen. clear Hlen.
  assert (Hx : In x [(1, i1); (2, i2); (3, i3)])
    by (eapply Permutation_in; [exact HP | left; reflexivity]).
  assert (Hy : In y [(1, i1); (2, i2); (3, i3)])
    by (eapply Permutation_in; [exact HP | right; left; reflexivity]).
  assert (Hz : In z [(1, i1); (2, i2); (3, i3)])
    by (eapply Permutation_in; [exact HP | right; right; left; reflexivity]).
  assert (Hk : Permutation (map fst [x; y; z]) [1; 2; 3])
    by (apply (Permutation_map fst) in HP; exact HP).
  assert (Hnd : NoDup (map fst [x; y; z])).
  { eapply Permutation_NoDup; [apply Permutation_sym; exact Hk|].
    repeat constructor; simpl; intuition lia. }
  simpl in Hx, Hy, Hz.
  destruct Hx as [<-|[<-|[<-|[]]]]; destruct Hy as [<-|[<-|[<-|[]]]];
    destruct Hz as [<-|[<-|[<-|[]]]];
    simpl in Hnd; try reflexivity;
    exfalso; inversion Hnd as [|? ? Hn1 Hnd']; inversion Hnd' as [|? ? Hn2 _];
    simpl in Hn1, Hn2; intuition congruence.
Qed.

Lemma normalize_list_length l : forall ws,
  normalize_list l = Ok ws -> List.length ws = List.length l.
Proof.
  induction l as [|x l IH]; simpl; intros ws H.
  - inversion H. reflexivity.
  - apply rbind_Ok_inv in H. destruct H as (y & _ & H).
    apply rbind_Ok_inv in H. destruct H as (ys & Hys & H).
    inversion H. simpl. rewrite (IH ys Hys). reflexivity.
Qed.

Lemma registry_query_order forward params fields :
  ScanIndexForward (registry_query forward params fields) = Some forward /\
  Limit (registry_query forward params fields) = Some 1.
Proof.
  unfold registry_query, when_str.
  destruct fields as [s|]; [destruct (truthy_str (Some s))|]; split; reflexivity.
Qed.

Lemma registry_at_most_one (forward : bool) (tabela : table) (params : expression)
  (fields : option string) (w w' : world) (l : list value) (msg1 msg2 : string) :
  honours_limit tabela ->
  try_except_ClientError
    (table_query tabela (registry_query forward params fields))
    (fun msg => logging_error (msg1 ++ msg) ;;; ret (VBool false))
    (fun response =>
       match Items response with
       | Some (i :: items) => json_roundtrip (VList (i :: items))
       | _ => logging_warning msg2 ;;; ret (VBool false)
       end) w = (Ok (VList l), w') ->
  (List.length l <= 1)%nat.
Proof.
  intros Hlim. unfold_monad. cbn [calls log].
  destruct (tabela (calls w) (Query (registry_query forward params fields)))
    as [r|e|] eqn:Hr; [| destruct e |]; try discriminate.
  destruct (Items r) as [[|i items]|] eqn:HI; try discriminate.
  rewrite normalize_VList.
  destruct (normalize_list (i :: items)) as [ws| |] eqn:Hn; try discriminate.
  simpl. intros H. inversion H; subst.
  rewrite (normalize_list_length _ _ Hn).
  apply (Hlim _ _ _ 1 _ Hr (proj2 (registry_query_order forward params fields)) HI).
Qed.

(** C6: over a partition holding records under the sort keys 1, 2 and 3
    (stored in any order), [getFirstRegistry] issues one ascending query
    with limit 1 and returns the record keyed 1, and [getLastRegistry]
    issues one descending query with limit 1 and returns the record keyed
    3, both normalized; over any backend each issues exactly that one
    query, and over any backend that honours the limit each returns at most
    one record. *)
Theorem first_and_last_registry
  (held : list (Z * value)) (i1 i2 i3 : value) (params : expression)
  (fields : option string) (w : world) :
  Permutation held [(1, i1); (2, i2); (3, i3)] ->
  (exists q,
     OperationsDynamo.getFirstRegistry (sorted_table held) params fields w =
       (normalize (VList [i1]), mkWorld (calls w ++ [Query q]) (log w)) /\
     ScanIndexForward q = Some true /\ Limit q = Some 1) /\
  (exists q,
     OperationsDynamo.getLastRegistry (sorted_table held) params fields w =
       (normalize (VList [i3]), mkWorld (calls w ++ [Query q]) (log w)) /\
     ScanIndexForward q = Some false /\ Limit q = Some 1) /\
  (forall (tabela : table),
     exists q q',
       calls (snd (OperationsDynamo.getFirstRegistry tabela params fields w)) =
         (calls w ++ [Query q])%list /\
       KeyConditionExpression q = params /\
       ScanIndexForward q = Some true /\ Limit q = Some 1 /\
       calls (snd (OperationsDynamo.getLastRegistry tabela params fields w)) =
         (calls w ++ [Query q'])%list /\
       KeyConditionExpression q' = params /\
       ScanIndexForward q' = Some false /\ Limit q' = Some 1) /\
  (forall (tabela : table) (w' : world) (l : list value),
     honours_limit tabela ->
     OperationsDynamo.getFirstRegistry tabela params fields w = (Ok (VList l), w') \/
     OperationsDynamo.getLastRegistry tabela params fields w = (Ok (VList l), w') ->
     (List.length l <= 1)%nat).
Proof.
  intros HP. split; [|split; [|split]].
  - exists (registry_query true params fields).
    split; [|apply registry_query_order].
    unfold_ops. fold (registry_query true params fields).
    unfold_monad. cbn [calls log].
    unfold sorted_table.
    rewrite (proj1 (registry_query_order true params fields)),
      (proj2 (registry_query_order true params fields)), (sort_three _ _ _ _ HP).
    change (Z.to_nat 1) with 1%nat. cbn [firstn rev app map snd Items].
    unfold lift. reflexivity.
  - exists (registry_query false params fields).
    split; [|apply registry_query_order].
    unfold_ops. fold (registry_query false params fields).
    unfold_monad. cbn [calls log].
    unfold sorted_table.
    rewrite (proj1 (registry_query_order false params fields)),
      (proj2 (registry_query_order false params fields)), (sort_three _ _ _ _ HP).
    change (Z.to_nat 1) with 1%nat. cbn [firstn rev app map snd Items].
    unfold lift. reflexivity.
  - intros tabela.
    exists (registry_query true params fields), (registry_query false params fields).
    destruct (registry_query_order true params fields) as [Ho Hl].
    destruct (registry_query_order false params fields) as [Ho' Hl'].
    assert (Hk : forall b, KeyConditionExpression (registry_query b params fields) = params).
    { intros b. unfold registry_query, when_str.
      destruct fields as [s|]; [destruct (truthy_str (Some s))|]; reflexivity. }
    repeat split; auto; apply (read_path_calls tabela); reflexivity.
  - intros tabela w' l Hlim [H|H].
    + eapply (registry_at_most_one true); eauto.
    + eapply (registry_at_most_one false); eauto.
Qed.

Lemma first_and_last_registry_witness :
  let record k := VDict [("sk", VDecimal (mkDecimal false k 0))] in
  let held := [(2, record 2%N); (3, record 3%N); (1, record 1%N)] in
  (exists q,
     OperationsDynamo.getFirstRegistry (sorted_table held) (ExprText "pk = :p") None
       empty_world =
       (Ok (VList [VDict [("sk", VInt 1)]]), mkWorld [Query q] []) /\
     ScanIndexForward q = Some true /\ Limit q = Some 1) /\
  (exists q,
     OperationsDynamo.getLastRegistry (sorted_table held) (ExprText "pk = :p") None
       empty_world =
       (Ok (VList [VDict [("sk", VInt 3)]]), mkWorld [Query q] []) /\
     ScanIndexForward q = Some false /\ Limit q = Some 1).
Proof.
  intros record held.
  assert (HP : Permutation held [(1, record 1%N); (2, record 2%N); (3, record 3%N)]).
  { unfold held.
    apply perm_trans with (l' := [(2, record 2%N); (1, record 1%N); (3, record 3%N)]).
    - apply perm_skip. apply perm_swap.
    - apply perm_swap. }
  split.
  - exact (proj1 (first_and_last_registry held (record 1%N) (record 2%N) (record 3%N)
                    (ExprText "pk = :p") None empty_world HP)).
  - exact (proj1 (proj2 (first_and_last_registry held (record 1%N) (record 2%N)
                           (record 3%N) (ExprText "pk = :p") None empty_world HP))).
Defined.

(** ** Decimals *)

(** The model on some decimals, as CPython computes them:
    [Decimal('0.1')], [Decimal('-3.0')], [Decimal('1E+27')], a fraction of
    38 digits (whose remainder is rounded to 28), and [Decimal('1E+28')]. *)
Example normalize_tenth :
  normalize (VDecimal (mkDecimal false 1 (-1))) =
    Ok (VFloat (S754_finite false 7205759403792794 (-56))).
Proof. reflexivity. Qed.

Example normalize_minus_three :
  normalize (VDecimal (mkDecimal true 30 (-1))) = Ok (VInt (-3)).
Proof. reflexivity. Qed.

Example normalize_1e27 :
  normalize (VDecimal (mkDecimal false 1 27)) = Ok (VInt 1000000000000000000000000000).
Proof. reflexivity. Qed.

Example mod1_long_fraction :
  decimal_mod1 (mkDecimal false 12345678901234567890123456789012345678 (-38)) =
    Ok (mkDecimal false 1234567890123456789012345679 (-28)).
Proof. vm_compute. reflexivity. Qed.

Example mod1_1e28 : decimal_mod1 (mkDecimal false 1 28) = Raise InvalidOperation.
Proof. reflexivity. Qed.

Example normalize_nested :
  normalize
    (VList [VDecimal (mkDecimal false 3 0);
            VDict [("a", VDecimal (mkDecimal false 25 (-1))); ("b", VStr "x");
                   ("c", VList [VNone; VBool true])]]) =
    Ok (VList [VInt 3;
               VDict [("a", VFloat (S754_finite false 5629499534213120 (-51)));
                      ("b", VStr "x"); ("c", VList [VNone; VBool true])]]).
Proof. reflexivity. Qed.

Example normalize_set :
  normalize (VDict [("tags", VSet [VStr "a"])]) = Raise TypeError.
Proof. reflexivity. Qed.


Lemma ndigits_aux_spec fuel : forall n,
  0 < n -> n < 2 ^ Z.of_nat fuel ->
  1 <= ndigits_aux fuel n /\
  10 ^ (ndigits_aux fuel n - 1) <= n < 10 ^ ndigits_aux fuel n.
Proof.
  induction fuel as [|fuel IH]; intros n Hpos Hlt.
  - simpl in Hlt. lia.
  - cbn [ndigits_aux]. destruct (Z.ltb_spec n 10) as [Hs|Hs].
    + simpl. lia.
    + assert (Hq : 0 < n / 10) by (apply Z.div_str_pos; lia).
      assert (Hf : n / 10 < 2 ^ Z.of_nat fuel).
      { rewrite Nat2Z.inj_succ, Z.pow_succ_r in Hlt by lia.
        apply Z.div_lt_upper_bound; lia. }
      destruct (IH (n / 10) Hq Hf) as (H1 & Hlo & Hhi).
      set (k := ndigits_aux fuel (n / 10)) in *.
      split; [lia|].
      replace (1 + k - 1) with (Z.succ (k - 1)) by lia.
      replace (1 + k) with (Z.succ k) by lia.
      rewrite !Z.pow_succ_r by lia.
      pose proof (Z.div_mod n 10 ltac:(lia)) as Hdm.
      pose proof (Z.mod_pos_bound n 10 ltac:(lia)) as Hm.
      lia.
Qed.

Lemma ndigits_spec (c : N) :
  (c <> 0)%N ->
  1 <= ndigits c /\ 10 ^ (ndigits c - 1) <= Z.of_N c < 10 ^ ndigits c.
Proof.
  intros Hc. unfold ndigits.
  apply ndigits_aux_spec; [lia|].
  rewrite Nat2Z.inj_succ, Z2Nat.id by apply Z.log2_nonneg.
  apply Z.log2_spec. lia.
Qed.

Lemma ndigits_pos (c : N) : 1 <= ndigits c.
Proof.
  destruct (N.eq_dec c 0) as [->|Hc]; [reflexivity|].
  apply ndigits_spec, Hc.
Qed.

(** A coefficient below [10^k] has at most [k] digits. *)
Lemma ndigits_le (c : N) (k : Z) :
  (c <> 0)%N -> Z.of_N c < 10 ^ k -> ndigits c <= k.
Proof.
  intros Hc Hlt.
  destruct (ndigits_spec c Hc) as (H1 & Hlo & _).
  destruct (Z.le_gt_cases (ndigits c) k) as [H|H]; [exact H|].
  exfalso.
  assert (0 <= k).
  { destruct (Z.le_gt_cases 0 k); [assumption|].
    rewrite Z.pow_neg_r in Hlt by lia. lia. }
  assert (10 ^ k <= 10 ^ (ndigits c - 1)) by (apply Z.pow_le_mono_r; lia).
  lia.
Qed.

Lemma pow10_Z (k : Z) : 0 <= k -> Z.of_N (pow10 k) = 10 ^ k.
Proof.
  intros Hk. unfold pow10. rewrite N2Z.inj_pow, Z2N.id by assumption. reflexivity.
Qed.

Lemma pow10_nonpos (k : Z) : k <= 0 -> pow10 k = 1%N.
Proof.
  intros Hk. unfold pow10. destruct k; try reflexivity. lia.
Qed.

Lemma pow10_pos (k : Z) : (0 < pow10 k)%N.
Proof. unfold pow10. apply N.neq_0_lt_0, N.pow_nonzero. discriminate. Qed.

Lemma decimal_int_trunc (d : PyDecimal) : Z.abs (decimal_int d) = Z.of_N (decimal_trunc d).
Proof.
  unfold decimal_int, decimal_trunc.
  destruct (dec_sign d); rewrite ?Z.abs_opp; apply Z.abs_eq, N2Z.is_nonneg.
Qed.

Lemma round_half_even_ge (c : N) (k : Z) : (c / pow10 k <= round_half_even c k)%N.
Proof.
  unfold round_half_even.
  destruct (2 * (c mod pow10 k) ?= pow10 k)%N; [destruct (N.even _)| |]; lia.
Qed.

(** Away from the smallest exponent of the context, rounding a non-zero
    value below one to the precision of the context leaves it non-zero. *)
Lemma decimal_fix_nonzero (s : bool) (c : N) (e : Z) :
  (c <> 0)%N -> ctx_Etiny <= e -> ndigits c + e <= 0 ->
  exists r, decimal_fix (mkDecimal s c e) = Ok r /\ (dec_int r <> 0)%N.
Proof.
  intros Hc He Hlen.
  destruct (ndigits_spec c Hc) as (HL1 & Hlo & Hhi).
  unfold decimal_fix. cbn [dec_int dec_exp dec_sign].
  destruct (N.eqb_spec c 0) as [|_]; [contradiction|].
  unfold ctx_Etop, ctx_Emax, ctx_Etiny, ctx_Emin, ctx_prec in *.
  set (L := ndigits c) in *.
  destruct (Z.ltb_spec (999999 - 28 + 1) (L + e - 28)) as [|_]; [lia|].
  destruct (Z.ltb_spec e (Z.max (L + e - 28) (-999999 - 28 + 1))) as [Hr|_];
    [|eexists; split; [reflexivity | exact Hc]].
  assert (Hmax : Z.max (L + e - 28) (-999999 - 28 + 1) = L + e - 28) by lia.
  rewrite Hmax.
  replace (L + e - (L + e - 28)) with 28 by lia.
  replace (L + e - 28 - e) with (L - 28) by lia.
  cbn [Z.ltb Z.compare].
  set (coeff := round_half_even c (L - 28)).
  assert (Hq : 10 ^ 27 <= Z.of_N (c / pow10 (L - 28))).
  { rewrite N2Z.inj_div, pow10_Z by lia.
    apply Z.div_le_lower_bound; [apply Z.pow_pos_nonneg; lia|].
    rewrite <- Z.pow_add_r by lia.
    replace (L - 28 + 27) with (L - 1) by lia. exact Hlo. }
  assert (Hcoeff : 10 ^ 27 <= Z.of_N coeff).
  { pose proof (round_half_even_ge c (L - 28)). unfold coeff. lia. }
  destruct (Z.ltb_spec 28 (ndigits coeff)) as [Hd|Hd].
  - destruct (Z.ltb_spec (999999 - 28 + 1) (L + e - 28 + 1)) as [|_]; [lia|].
    eexists. split; [reflexivity|]. cbn [dec_int].
    intros H0. apply N.div_small_iff in H0; [|discriminate].
    change (10 ^ 27) with 1000000000000000000000000000 in Hcoeff. lia.
  - eexists. split; [reflexivity|]. cbn [dec_int].
    change (10 ^ 27) with 1000000000000000000000000000 in Hcoeff. lia.
Qed.

Lemma mod1_quotient (b : bool) (c p p' : N) :
  ((if b then c * p else c) / (if b then 1 else p'))%N =
  (if b then c * p else c / p')%N.
Proof. destruct b; [apply N.div_1_r | reflexivity]. Qed.

(** [o % 1] raises exactly for the decimals whose integer part needs more
    than the 28 digits of the context. *)
Lemma decimal_mod1_raises (d : PyDecimal) :
  10 ^ 28 <= Z.abs (decimal_int d) -> decimal_mod1 d = Raise InvalidOperation.
Proof.
  rewrite decimal_int_trunc. intros Hbig.
  destruct d as [s c e]. unfold decimal_trunc in Hbig. cbn [dec_int dec_exp] in Hbig.
  unfold decimal_mod1, adjusted. cbn [dec_int dec_exp dec_sign].
  destruct (N.eqb_spec c 0) as [->|Hc].
  { exfalso. destruct (0 <=? e); simpl in Hbig; lia. }
  destruct (ndigits_spec c Hc) as (HL1 & Hlo & Hhi).
  set (L := ndigits c) in *. cbn [orb].
  destruct (Z.leb_spec (e + L - 1) (-2)) as [Hsmall|_].
  { exfalso.
    destruct (Z.leb_spec 0 e) as [|He]; [lia|].
    rewrite N2Z.inj_div, pow10_Z in Hbig by lia.
    assert (10 ^ L <= 10 ^ (- e)) by (apply Z.pow_le_mono_r; lia).
    rewrite Z.div_small in Hbig by lia. lia. }
  destruct (e + L - 1 <=? ctx_prec); [|reflexivity].
  rewrite mod1_quotient.
  destruct (N.ltb_spec (if 0 <=? e then (c * pow10 e)%N else (c / pow10 (- e))%N)
              (pow10 ctx_prec)) as [Hlt|_]; [|reflexivity].
  exfalso. apply N2Z.inj_lt in Hlt. rewrite pow10_Z in Hlt by (unfold ctx_prec; lia).
  unfold ctx_prec in Hlt. lia.
Qed.

(** Below that size, [o % 1] is true exactly when the fractional part is
    not zero, for every integral decimal and for every decimal away from the
    smallest exponent of the context. *)
Lemma decimal_mod1_fits (d : PyDecimal) :
  Z.abs (decimal_int d) < 10 ^ 28 ->
  ctx_Etiny <= dec_exp d \/ decimal_is_integral d = true ->
  exists r, decimal_mod1 d = Ok r /\ decimal_bool r = negb (decimal_is_integral d).
Proof.
  rewrite decimal_int_trunc. intros Hfit Hexp.
  destruct d as [s c e]. unfold decimal_trunc in Hfit.
  unfold decimal_is_integral, decimal_bool in *.
  cbn [dec_int dec_exp] in *.
  unfold decimal_mod1, adjusted. cbn [dec_int dec_exp dec_sign].
  destruct (N.eqb_spec c 0) as [->|Hc].
  { cbn [orb N.mul]. unfold decimal_fix. cbn [dec_int dec_exp dec_sign N.eqb].
    eexists. split; [reflexivity|]. cbn [dec_int N.eqb negb].
    rewrite N.Div0.mod_0_l. cbn [N.eqb]. rewrite orb_true_r. reflexivity. }
  destruct (ndigits_spec c Hc) as (HL1 & Hlo & Hhi).
  set (L := ndigits c) in *. cbn [orb].
  destruct (Z.leb_spec (e + L - 1) (-2)) as [Hsmall|Hnot].
  - (* the value is below one tenth: the remainder is the value itself *)
    assert (He : e < 0) by lia.
    replace (Z.min e 0) with e by lia.
    replace (e - e) with 0 by lia.
    change (pow10 0) with 1%N. rewrite N.mul_1_r.
    assert (Hlt : (c < pow10 (- e))%N).
    { apply N2Z.inj_lt. rewrite pow10_Z by lia.
      assert (10 ^ L <= 10 ^ (- e)) by (apply Z.pow_le_mono_r; lia). lia. }
    rewrite (N.mod_small _ _ Hlt) in *.
    destruct (Z.leb_spec 0 e) as [|_]; [lia|]. cbn [orb] in *.
    destruct (N.eqb_spec c 0) as [|_]; [contradiction|].
    destruct Hexp as [Hexp|Hint]; [|discriminate Hint].
    destruct (decimal_fix_nonzero s c e Hc Hexp ltac:(fold L; lia)) as (r & -> & Hr).
    exists r. split; [reflexivity|].
    destruct (N.eqb_spec (dec_int r) 0) as [|_]; [contradiction|]. reflexivity.
  - assert (Hadj : e + L - 1 <= ctx_prec).
    { unfold ctx_prec.
      destruct (Z.le_gt_cases (e + L - 1) 28) as [H|H]; [exact H|]. exfalso.
      destruct (Z.leb_spec 0 e) as [He|He].
      + rewrite N2Z.inj_mul, pow10_Z in Hfit by lia.
        assert (10 ^ 28 <= 10 ^ (L - 1 + e)) by (apply Z.pow_le_mono_r; lia).
        rewrite Z.pow_add_r in H0 by lia.
        assert (0 < 10 ^ e) by (apply Z.pow_pos_nonneg; lia). nia.
      + rewrite N2Z.inj_div, pow10_Z in Hfit by lia.
        assert (10 ^ 28 <= Z.of_N c / 10 ^ (- e)).
        { apply Z.div_le_lower_bound; [apply Z.pow_pos_nonneg; lia|].
          rewrite <- Z.pow_add_r by lia.
          assert (10 ^ (- e + 28) <= 10 ^ (L - 1)) by (apply Z.pow_le_mono_r; lia).
          lia. }
        lia. }
    destruct (Z.leb_spec (e + L - 1) ctx_prec) as [_|]; [|lia].
    rewrite mod1_quotient.
    destruct (N.ltb_spec (if 0 <=? e then (c * pow10 e)%N else (c / pow10 (- e))%N)
                (pow10 ctx_prec)) as [_|Hge].
    2:{ exfalso. apply N2Z.inj_le in Hge.
        rewrite pow10_Z in Hge by (unfold ctx_prec; lia). unfold ctx_prec in Hge. lia. }
    destruct (Z.leb_spec 0 e) as [He|He].
    + (* no fractional digits: the remainder is zero *)
      rewrite N.mod_1_r. unfold decimal_fix. cbn [dec_int dec_exp dec_sign N.eqb].
      eexists. split; reflexivity.
    + replace (Z.min e 0) with e by lia. cbn [orb] in *.
      destruct (N.eqb_spec (c mod pow10 (- e)) 0) as [Hz|Hnz].
      * rewrite Hz. unfold decimal_fix. cbn [dec_int dec_exp dec_sign N.eqb].
        eexists. split; reflexivity.
      * destruct Hexp as [Hexp|Hint]; [|discriminate Hint].
        assert (Hrem : (c mod pow10 (- e) < pow10 (- e))%N)
          by (apply N.mod_lt; pose proof (pow10_pos (- e)); lia).
        assert (Hlen : ndigits (c mod pow10 (- e)) + e <= 0).
        { assert (ndigits (c mod pow10 (- e)) <= - e); [|lia].
          apply ndigits_le; [exact Hnz|].
          apply N2Z.inj_lt in Hrem. rewrite pow10_Z in Hrem by lia. exact Hrem. }
        destruct (decimal_fix_nonzero s _ e Hnz Hexp Hlen) as (r & -> & Hr).
        exists r. split; [reflexivity|].
        destruct (N.eqb_spec (dec_int r) 0) as [|_]; [contradiction|]. reflexivity.
Qed.

Lemma decimal_mod1_in_range (d : PyDecimal) :
  Z.abs (decimal_int d) < 10 ^ 28 -> ctx_Etiny <= dec_exp d ->
  exists r, decimal_mod1 d = Ok r /\ decimal_bool r = negb (decimal_is_integral d).
Proof. intros Hfit Hexp. apply decimal_mod1_fits; [exact Hfit | left; exact Hexp]. Qed.

(** The integer [int(o)] returns for an integral decimal is the decimal's
    value: scaled by the power of ten of a negative exponent it gives the
    coefficient back. *)
Lemma decimal_int_exact (d : PyDecimal) :
  decimal_is_integral d = true ->
  Z.abs (decimal_int d) * 10 ^ Z.max 0 (- dec_exp d) =
  Z.of_N (dec_int d) * 10 ^ Z.max 0 (dec_exp d).
Proof.
  rewrite decimal_int_trunc. unfold decimal_is_integral, decimal_trunc.
  destruct (Z.leb_spec 0 (dec_exp d)) as [He|He]; cbn [orb].
  - intros _. rewrite N2Z.inj_mul, pow10_Z by assumption.
    replace (Z.max 0 (- dec_exp d)) with 0 by lia.
    replace (Z.max 0 (dec_exp d)) with (dec_exp d) by lia. simpl. lia.
  - intros Hm. apply N.eqb_eq in Hm.
    replace (Z.max 0 (- dec_exp d)) with (- dec_exp d) by lia.
    replace (Z.max 0 (dec_exp d)) with 0 by lia.
    rewrite <- pow10_Z by lia. rewrite <- N2Z.inj_mul. simpl. rewrite Z.mul_1_r.
    f_equal.
    pose proof (N.div_mod' (dec_int d) (pow10 (- dec_exp d))) as Hdm.
    rewrite Hm in Hdm. lia.
Qed.

(** What the encoder does on every decimal whose integer part fits the 28
    digits of the context: an integer, its value, when the fractional part
    is zero, and the nearest double otherwise. *)
Lemma default_in_range (d : PyDecimal) :
  Z.abs (decimal_int d) < 10 ^ 28 -> ctx_Etiny <= dec_exp d ->
  DecimalEncoder.default (VDecimal d) =
    Ok (if decimal_is_integral d then VInt (decimal_int d)
        else VFloat (decimal_float d)).
Proof.
  intros Hfit Hexp. unfold DecimalEncoder.default.
  destruct (decimal_mod1_in_range d Hfit Hexp) as (r & -> & Hr).
  cbn [rbind]. rewrite Hr.
  destruct (decimal_is_integral d); reflexivity.
Qed.

(** The encoder on an integral decimal whose integer part fits, whatever
    its exponent: the integer. *)
Lemma default_integral (d : PyDecimal) :
  decimal_is_integral d = true -> Z.abs (decimal_int d) < 10 ^ 28 ->
  DecimalEncoder.default (VDecimal d) = Ok (VInt (decimal_int d)).
Proof.
  intros Hint Hfit. unfold DecimalEncoder.default.
  destruct (decimal_mod1_fits d Hfit (or_intror Hint)) as (r & -> & Hr).
  cbn [rbind]. rewrite Hr, Hint. reflexivity.
Qed.

Lemma normalize_decimal_in_range (d : PyDecimal) :
  Z.abs (decimal_int d) < 10 ^ 28 -> ctx_Etiny <= dec_exp d ->
  normalize (VDecimal d) =
    Ok (if decimal_is_integral d then VInt (decimal_int d)
        else VFloat (decimal_float d)).
Proof.
  intros Hfit Hexp.
  change (normalize (VDecimal d))
    with (rbind (DecimalEncoder.default (VDecimal d)) encode_default_result).
  rewrite (default_in_range d Hfit Hexp).
  destruct (decimal_is_integral d); [|reflexivity].
  cbn [rbind encode_default_result]. apply encode_int_fits, int_str_fits_28, Hfit.
Qed.

Lemma normalize_list_in_range l :
  Forall (fun v => in_range v -> normalize v = Ok (normalize_spec v)) l ->
  Forall in_range l -> normalize_list l = Ok (map normalize_spec l).
Proof.
  induction 1 as [|x l Hx _ IH]; intros Hr; [reflexivity|].
  inversion Hr as [|? ? Hrx Hrl]; subst. simpl.
  rewrite (Hx Hrx). simpl. rewrite (IH Hrl). reflexivity.
Qed.

Lemma normalize_entries_in_range kvs :
  Forall (fun kv => in_range (snd kv) -> normalize (snd kv) = Ok (normalize_spec (snd kv)))
    kvs ->
  Forall (fun kv => in_range (snd kv)) kvs ->
  normalize_entries kvs =
    Ok (map (fun kv : string * value => let (k, x) := kv in (k, normalize_spec x)) kvs).
Proof.
  induction 1 as [|[k x] l Hx _ IH]; intros Hr; [reflexivity|].
  inversion Hr as [|? ? Hrx Hrl]; subst. simpl in *.
  rewrite (Hx Hrx). simpl. rewrite (IH Hrl). reflexivity.
Qed.

(** On the values of the data model whose decimals fit, the code
    normalizes as the specification says, recursively. *)
Lemma normalize_in_range (v : value) : in_range v -> normalize v = Ok (normalize_spec v).
Proof.
  induction v as [| |n| | | | | |l IH|kvs IH] using value_ind;
    intros Hr; inversion Hr as [| |? Hn| | |? Hfit Hexp|? Hl|? Hl]; subst; try reflexivity.
  - apply encode_int_fits, Hn.
  - apply normalize_decimal_in_range; assumption.
  - rewrite normalize_VList, (normalize_list_in_range l IH Hl). reflexivity.
  - rewrite normalize_VDict, (normalize_entries_in_range kvs IH Hl). reflexivity.
Qed.

(** ** Large decimals *)

(** C1, at the inputs where it fails: a decimal whose integer part has 29
    digits or more, such as the integral [1E+28], is not replaced by an
    integer or a float; [o % 1] raises [decimal.InvalidOperation], and so do
    the normalization and the read paths that run it, here [get]. *)
Theorem normalize_large_decimal_raises :
  (forall d : PyDecimal,
     10 ^ 28 <= Z.abs (decimal_int d) ->
     DecimalEncoder.default (VDecimal d) = Raise InvalidOperation /\
     normalize (VDecimal d) = Raise InvalidOperation) /\
  normalize (VDecimal (mkDecimal false 1 28)) = Raise InvalidOperation /\
  normalize (VDict [("saldo", VDecimal (mkDecimal false 10000000000000000000000000000 0))]) =
    Raise InvalidOperation /\
  OperationsDynamo.get
    (scripted_table
       [Ok (mkResponse
              (Some (VDict [("id", VStr "a");
                            ("saldo",
                             VDecimal (mkDecimal false 10000000000000000000000000000 0))]))
              None None None)])
    [("id", VStr "a")] empty_world =
    (Raise InvalidOperation, mkWorld [GetItem [("id", VStr "a")]] []).
Proof.
  split; [|repeat split; vm_compute; reflexivity].
  intros d Hbig.
  change (normalize (VDecimal d))
    with (rbind (DecimalEncoder.default (VDecimal d)) encode_default_result).
  unfold DecimalEncoder.default.
  rewrite (decimal_mod1_raises d Hbig). split; reflexivity.
Qed.

Lemma normalize_large_decimal_raises_witness :
  normalize (VDecimal (mkDecimal true 123456789012345678901234567895 (-1))) =
    Raise InvalidOperation.
Proof.
  apply (proj1 normalize_large_decimal_raises
           (mkDecimal true 123456789012345678901234567895 (-1))).
  vm_compute. discriminate.
Defined.

(** ** The relational filter *)

Lemma words_from_space cur s :
  words_from cur (String " " s) = (flush cur ++ words_from EmptyString s)%list.
Proof. unfold flush. simpl. destruct (cur =? EmptyString)%string; reflexivity. Qed.

Lemma words_from_newline cur s :
  words_from cur (OperationsSQL.nl ++ s) = (flush cur ++ words_from EmptyString s)%list.
Proof. unfold flush. simpl. destruct (cur =? EmptyString)%string; reflexivity. Qed.

Lemma words_from_indent12 s :
  words_from EmptyString (OperationsSQL.indent12 ++ s) = words_from EmptyString s.
Proof. reflexivity. Qed.

(** Two statements that differ after a common piece have the same words
    when their remainders do, whatever word is being read. *)
Lemma words_from_piece a : forall cur b b',
  (forall c, words_from c b = words_from c b') ->
  words_from cur (a ++ b) = words_from cur (a ++ b').
Proof.
  induction a as [|ch a IH]; intros cur b b' H; simpl.
  - apply H.
  - destruct (is_space ch); [destruct (cur =? EmptyString)%string|];
      try rewrite (IH _ b b' H); reflexivity.
Qed.

Lemma words_from_trailing a : forall cur,
  words_from cur (a ++ OperationsSQL.nl ++ OperationsSQL.indent8) = words_from cur a.
Proof.
  induction a as [|ch a IH]; intros cur; simpl.
  - destruct (cur =? EmptyString)%string; reflexivity.
  - destruct (is_space ch); [destruct (cur =? EmptyString)%string|];
      rewrite IH; reflexivity.
Qed.

Lemma statement_words (P T J W O n k : string) :
  words (OperationsSQL.nl ++ OperationsSQL.indent12 ++ "SELECT " ++ P ++ " FROM " ++ T ++
         OperationsSQL.nl ++ OperationsSQL.indent12 ++ J ++
         OperationsSQL.nl ++ OperationsSQL.indent12 ++ W ++
         OperationsSQL.nl ++ OperationsSQL.indent12 ++ O ++
         OperationsSQL.nl ++ OperationsSQL.indent12 ++ "LIMIT " ++ n ++ " OFFSET " ++ k ++
         OperationsSQL.nl ++ OperationsSQL.indent8) =
  words ("SELECT " ++ P ++ " FROM " ++ T ++ " " ++ J ++ " " ++ W ++ " " ++ O ++
         " LIMIT " ++ n ++ " OFFSET " ++ k).
Proof.
  unfold words.
  rewrite words_from_newline, words_from_indent12.
  change (flush EmptyString) with (@nil string). cbn [app].
  change (words_from EmptyString ("SELECT " ++ ?x)) with ("SELECT" :: words_from EmptyString x).
  f_equal. apply words_from_piece. intros c.
  change (" FROM " ++ ?x) with (String " " ("FROM " ++ x)).
  rewrite !words_from_space. f_equal.
  change (words_from EmptyString ("FROM " ++ ?x)) with ("FROM" :: words_from EmptyString x).
  f_equal. apply words_from_piece. clear c. intros c.
  do 3 (rewrite words_from_newline, words_from_indent12;
        change (" " ++ ?x) with (String " " x); rewrite words_from_space;
        f_equal; apply words_from_piece; clear c; intros c).
  rewrite words_from_newline, words_from_indent12.
  change (" LIMIT " ++ ?x) with (String " " ("LIMIT " ++ x)).
  rewrite words_from_space. f_equal.
  change (words_from EmptyString ("LIMIT " ++ ?x)) with ("LIMIT" :: words_from EmptyString x).
  f_equal. apply words_from_piece. clear c. intros c.
  change (" OFFSET " ++ ?x) with (String " " ("OFFSET " ++ x)).
  rewrite !words_from_space. f_equal.
  change (words_from EmptyString ("OFFSET " ++ ?x)) with ("OFFSET" :: words_from EmptyString x).
  f_equal. apply words_from_trailing.
Qed.

Lemma clause_some (arg : string) (build : string -> string) (default : string) :
  (if truthy_str (Some arg) then build arg else default) = clause (Some arg) build default.
Proof. unfold truthy_str, clause. destruct (arg =? EmptyString)%string; reflexivity. Qed.

(** When the page size and the offset can be written, [filter] builds a
    statement, and it has the words of the shape the specification gives,
    its clauses being the caller's or their defaults and its offset
    [(pagina - 1) * limite_por_pagina]. *)
Lemma filter_query_shape (tabela : string) (condicao campo_ordenar ordenacao : option string)
  (limite_por_pagina pagina : Z) (inner_join_receive select_receive : option string) :
  int_str_fits limite_por_pagina = true ->
  int_str_fits ((pagina - 1) * limite_por_pagina) = true ->
  exists statement,
    OperationsSQL.filter_query tabela condicao campo_ordenar ordenacao
      limite_por_pagina pagina inner_join_receive select_receive = Ok statement /\
    words statement =
    words (select_shape
             (clause select_receive (fun s => s) "*") tabela
             (clause inner_join_receive (fun j => j) EmptyString)
             (clause condicao (fun c => "WHERE " ++ c) EmptyString)
             (order_by campo_ordenar ordenacao)
             limite_por_pagina ((pagina - 1) * limite_por_pagina)).
Proof.
  intros Hl Ho.
  unfold OperationsSQL.filter_query, str_int. rewrite Hl, Ho. cbn [rbind].
  eexists. split; [reflexivity|].
  unfold select_shape.
  rewrite statement_words.
  replace (match select_receive with
           | Some s => if truthy_str select_receive then s else "*"
           | None => "*"
           end) with (clause select_receive (fun s => s) "*")
    by (destruct select_receive as [x|];
        [symmetry; apply (clause_some x (fun s => s)) | reflexivity]).
  replace (match inner_join_receive with
           | Some j => if truthy_str inner_join_receive then j else EmptyString
           | None => EmptyString
           end) with (clause inner_join_receive (fun j => j) EmptyString)
    by (destruct inner_join_receive as [x|];
        [symmetry; apply (clause_some x (fun j => j)) | reflexivity]).
  replace (match condicao with
           | Some c => if truthy_str condicao then "WHERE " ++ c else EmptyString
           | None => EmptyString
           end) with (clause condicao (fun c => "WHERE " ++ c) EmptyString)
    by (destruct condicao as [c|];
        [symmetry; apply (clause_some c (fun c => "WHERE " ++ c)) | reflexivity]).
  replace (match campo_ordenar, ordenacao with
           | Some c, Some o =>
               if truthy_str campo_ordenar && truthy_str ordenacao
               then "ORDER BY " ++ c ++ " " ++ o else EmptyString
           | _, _ => EmptyString
           end) with (order_by campo_ordenar ordenacao).
  - reflexivity.
  - destruct campo_ordenar as [c|], ordenacao as [o|]; try reflexivity.
    unfold order_by, truthy_str.
    destruct (c =? EmptyString)%string, (o =? EmptyString)%string; reflexivity.
Qed.

(** When the page size or the offset is too long to be written, building
    the statement raises [ValueError]. *)
Lemma filter_query_long (tabela : string) (condicao campo_ordenar ordenacao : option string)
  (limite_por_pagina pagina : Z) (inner_join_receive select_receive : option string) :
  int_str_fits limite_por_pagina = false \/
  int_str_fits ((pagina - 1) * limite_por_pagina) = false ->
  OperationsSQL.filter_query tabela condicao campo_ordenar ordenacao
    limite_por_pagina pagina inner_join_receive select_receive = Raise ValueError.
Proof.
  intros H. unfold OperationsSQL.filter_query, str_int.
  destruct (int_str_fits limite_por_pagina); [|reflexivity].
  destruct H as [H|H]; [discriminate H|]. rewrite H. reflexivity.
Qed.

Lemma append_String_assoc (cur : string) (c : ascii) (s : string) :
  ((cur ++ String c EmptyString) ++ s)%string = (cur ++ String c s)%string.
Proof. induction cur as [|x cur IH]; simpl; [reflexivity | rewrite IH; reflexivity]. Qed.

Lemma append_empty_r (s : string) : (s ++ EmptyString)%string = s.
Proof. induction s as [|x s IH]; simpl; [reflexivity | rewrite IH; reflexivity]. Qed.

Lemma append_nonempty (cur a : string) : a <> EmptyString -> (cur ++ a)%string <> EmptyString.
Proof. destruct cur; simpl; [auto | discriminate]. Qed.

(** A piece without spaces is read into the current word. *)
Lemma words_from_no_space a : forall cur s,
  no_space a = true ->
  words_from cur (a ++ s) = words_from (cur ++ a) s.
Proof.
  induction a as [|ch a IH]; intros cur s H; simpl in *.
  - rewrite append_empty_r. reflexivity.
  - apply andb_prop in H. destruct H as [Hc Ha].
    destruct (is_space ch); [discriminate|].
    rewrite (IH _ _ Ha), append_String_assoc. reflexivity.
Qed.

Lemma words_from_no_space_end a cur :
  no_space a = true -> words_from cur a = flush (cur ++ a).
Proof.
  intros H. rewrite <- (append_empty_r a) at 1.
  rewrite (words_from_no_space _ _ _ H). reflexivity.
Qed.

Lemma no_space_uint d : no_space (NilEmpty.string_of_uint d) = true.
Proof. induction d; simpl; auto. Qed.

Lemma decimal_text_no_space z : no_space (decimal_text z) = true.
Proof.
  unfold decimal_text, NilZero.string_of_int, NilZero.string_of_uint.
  destruct (Z.to_int z) as [d|d]; destruct d; simpl; auto using no_space_uint.
Qed.

Lemma decimal_text_nonempty z : decimal_text z <> EmptyString.
Proof.
  unfold decimal_text, NilZero.string_of_int, NilZero.string_of_uint.
  destruct (Z.to_int z) as [d|d]; destruct d; simpl; discriminate.
Qed.

Lemma parse_int_decimal_text z : parse_int (decimal_text z) = Some z.
Proof.
  unfold parse_int, decimal_text.
  rewrite NilZero.isi.
  - simpl. rewrite DecimalZ.of_to. reflexivity.
  - destruct z; simpl; try discriminate.
    intros H. inversion H as [Hp]. apply (DecimalPos.Unsigned.to_uint_nonnil _ Hp).
  - destruct z; simpl; try discriminate.
    intros H. inversion H as [Hp]. apply (DecimalPos.Unsigned.to_uint_nonnil _ Hp).
Qed.

(** The words of a statement end with the words of its last piece. *)
Lemma words_from_suffix a : forall cur b t,
  (forall c, exists pre, words_from c b = (pre ++ t)%list) ->
  exists pre, words_from cur (a ++ b) = (pre ++ t)%list.
Proof.
  induction a as [|ch a IH]; intros cur b t H; simpl.
  - apply H.
  - destruct (is_space ch); [destruct (cur =? EmptyString)%string|]; try apply IH; auto.
    destruct (IH EmptyString b t H) as (pre & ->). exists (cur :: pre). reflexivity.
Qed.

Lemma words_limit_offset (n k : Z) (c : string) :
  words_from c (" LIMIT " ++ decimal_text n ++ " OFFSET " ++ decimal_text k) =
  (flush c ++ ["LIMIT"; decimal_text n; "OFFSET"; decimal_text k])%list.
Proof.
  change (" LIMIT " ++ ?x) with (String " " ("LIMIT " ++ x)).
  rewrite words_from_space. f_equal.
  change (words_from EmptyString ("LIMIT " ++ ?x)) with ("LIMIT" :: words_from EmptyString x).
  f_equal.
  rewrite (words_from_no_space _ _ _ (decimal_text_no_space n)).
  change (" OFFSET " ++ ?x) with (String " " ("OFFSET " ++ x)).
  rewrite words_from_space. unfold flush.
  change (EmptyString ++ decimal_text n)%string with (decimal_text n).
  destruct (decimal_text n =? EmptyString)%string eqn:E.
  { apply String.eqb_eq in E. destruct (decimal_text_nonempty n E). }
  cbn [app]. f_equal.
  change (words_from EmptyString ("OFFSET " ++ ?x)) with ("OFFSET" :: words_from EmptyString x).
  f_equal.
  rewrite (words_from_no_space_end _ _ (decimal_text_no_space k)). unfold flush.
  change (EmptyString ++ decimal_text k)%string with (decimal_text k).
  destruct (decimal_text k =? EmptyString)%string eqn:E'.
  { apply String.eqb_eq in E'. destruct (decimal_text_nonempty k E'). }
  reflexivity.
Qed.

Lemma select_shape_ends (proj table join where_ order : string) (size offset : Z) :
  exists pre,
    rev (words (select_shape proj table join where_ order size offset)) =
    decimal_text offset :: "OFFSET" :: decimal_text size :: "LIMIT" :: pre.
Proof.
  assert (H : exists pre,
             words (select_shape proj table join where_ order size offset) =
             (pre ++ ["LIMIT"; decimal_text size; "OFFSET";
                      decimal_text offset])%list).
  { unfold words, select_shape.
    apply (words_from_suffix "SELECT "). intros c.
    apply words_from_suffix. clear c. intros c.
    apply (words_from_suffix " FROM "). clear c. intros c.
    apply words_from_suffix. clear c. intros c.
    apply (words_from_suffix " "). clear c. intros c.
    apply words_from_suffix. clear c. intros c.
    apply (words_from_suffix " "). clear c. intros c.
    apply words_from_suffix. clear c. intros c.
    apply (words_from_suffix " "). clear c. intros c.
    apply words_from_suffix. clear c. intros c.
    rewrite words_limit_offset. eauto. }
  destruct H as (pre & ->). exists (rev pre).
  rewrite rev_app_distr. reflexivity.
Qed.

Lemma paged_store_answer (columns : list string) (rows : list (list value))
  (history : list call) (tabela : string) (condicao campo_ordenar ordenacao : option string)
  (limite_por_pagina pagina : Z) (inner_join_receive select_receive : option string) :
  0 <= limite_por_pagina -> 1 <= pagina ->
  int_str_fits limite_por_pagina = true ->
  int_str_fits ((pagina - 1) * limite_por_pagina) = true ->
  exists statement,
    OperationsSQL.filter_query tabela condicao campo_ordenar ordenacao
      limite_por_pagina pagina inner_join_receive select_receive = Ok statement /\
    paged_store columns rows history statement =
    Ok (columns,
        firstn (Z.to_nat limite_por_pagina)
          (skipn (Z.to_nat ((pagina - 1) * limite_por_pagina)) rows)).
Proof.
  intros Hl Hp Hfl Hfo.
  destruct (filter_query_shape tabela condicao campo_ordenar ordenacao limite_por_pagina
              pagina inner_join_receive select_receive Hfl Hfo) as (statement & Hq & Hw).
  exists statement. split; [exact Hq|].
  unfold paged_store. rewrite Hw.
  destruct (select_shape_ends
              (clause select_receive (fun s => s) "*") tabela
              (clause inner_join_receive (fun j => j) EmptyString)
              (clause condicao (fun c => "WHERE " ++ c) EmptyString)
              (order_by campo_ordenar ordenacao)
              limite_por_pagina ((pagina - 1) * limite_por_pagina)) as (pre & ->).
  rewrite !parse_int_decimal_text.
  replace (0 <=? limite_por_pagina) with true by (symmetry; apply Z.leb_le; lia).
  replace (0 <=? (pagina - 1) * limite_por_pagina) with true
    by (symmetry; apply Z.leb_le; nia).
  reflexivity.
Qed.

(** What [filter] does once its statement is built: one execution, whose
    rows come back as records, or the empty list and one error line. *)
Lemma filter_runs (conn : connection) (tabela : string)
  (condicao campo_ordenar ordenacao : option string) (limite_por_pagina pagina : Z)
  (inner_join_receive select_receive : option string) (w : world) (statement : string) :
  OperationsSQL.filter_query tabela condicao campo_ordenar ordenacao
    limite_por_pagina pagina inner_join_receive select_receive = Ok statement ->
  OperationsSQL.filter conn tabela condicao campo_ordenar ordenacao limite_por_pagina
    pagina inner_join_receive select_receive w =
  match conn (calls w) statement with
  | Ok cr =>
      (Ok (VList (map (OperationsSQL.record_of (fst cr)) (snd cr))),
       mkWorld (calls w ++ [Execute statement]) (log w))
  | Raise e =>
      (Ok (VList []),
       mkWorld (calls w ++ [Execute statement])
         (log w ++ [(ERROR, "Erro ao executar a consulta 'filter': " ++ str_exn e)]))
  | Diverged => (Diverged, mkWorld (calls w ++ [Execute statement]) (log w))
  end.
Proof.
  intros Hq. unfold_ops. unfold_monad. rewrite Hq. cbn [calls log].
  destruct (conn (calls w) statement) as [[cols rows]|e|]; reflexivity.
Qed.

(** C7, amended: for a page size and an offset
    [(pagina - 1) * limite_por_pagina] of at most 4300 digits each, which
    the interpreter can write, [filter] executes one statement, which has
    the words of [SELECT <proj> FROM <table> <join> <where> <order> LIMIT
    <size> OFFSET <offset>]; over a store that honours [LIMIT] and [OFFSET]
    it returns the records of the [limite_por_pagina] rows that follow the
    first [offset] ones, and so, for page 2 of size 5 over a result set of
    12 rows, rows 6 to 10. *)
Theorem filter_pagination :
  (forall limite_por_pagina pagina : Z,
     int_str_fits limite_por_pagina = true ->
     int_str_fits ((pagina - 1) * limite_por_pagina) = true ->
     filter_assembles limite_por_pagina pagina) /\
  (forall (columns : list string) (rows : list (list value)) (tabela : string)
     (condicao campo_ordenar ordenacao : option string) (limite_por_pagina pagina : Z)
     (inner_join_receive select_receive : option string) (w : world),
     0 <= limite_por_pagina -> 1 <= pagina ->
     int_str_fits limite_por_pagina = true ->
     int_str_fits ((pagina - 1) * limite_por_pagina) = true ->
     fst (OperationsSQL.filter (paged_store columns rows) tabela condicao campo_ordenar
            ordenacao limite_por_pagina pagina inner_join_receive select_receive w) =
       Ok (VList (map (OperationsSQL.record_of columns)
                    (firstn (Z.to_nat limite_por_pagina)
                       (skipn (Z.to_nat ((pagina - 1) * limite_por_pagina)) rows))))) /\
  (forall (columns : list string) (r1 r2 r3 r4 r5 r6 r7 r8 r9 r10 r11 r12 : list value)
     (tabela : string) (condicao campo_ordenar ordenacao : option string)
     (inner_join_receive select_receive : option string) (w : world),
     fst (OperationsSQL.filter
            (paged_store columns [r1; r2; r3; r4; r5; r6; r7; r8; r9; r10; r11; r12])
            tabela condicao campo_ordenar ordenacao 5 2 inner_join_receive
            select_receive w) =
       Ok (VList (map (OperationsSQL.record_of columns) [r6; r7; r8; r9; r10]))).
Proof.
  assert (Hpaged : forall columns rows tabela condicao campo_ordenar ordenacao
                     limite_por_pagina pagina inner_join_receive select_receive w,
             0 <= limite_por_pagina -> 1 <= pagina ->
             int_str_fits limite_por_pagina = true ->
             int_str_fits ((pagina - 1) * limite_por_pagina) = true ->
             fst (OperationsSQL.filter (paged_store columns rows) tabela condicao
                    campo_ordenar ordenacao limite_por_pagina pagina inner_join_receive
                    select_receive w) =
             Ok (VList (map (OperationsSQL.record_of columns)
                          (firstn (Z.to_nat limite_por_pagina)
                             (skipn (Z.to_nat ((pagina - 1) * limite_por_pagina)) rows))))).
  { intros columns rows tabela condicao campo_ordenar ordenacao limite_por_pagina pagina
      inner_join_receive select_receive w Hl Hp Hfl Hfo.
    destruct (paged_store_answer columns rows (calls w) tabela condicao campo_ordenar
                ordenacao limite_por_pagina pagina inner_join_receive select_receive
                Hl Hp Hfl Hfo) as (statement & Hq & Hanswer).
    rewrite (filter_runs _ _ _ _ _ _ _ _ _ _ _ Hq), Hanswer. reflexivity. }
  split; [|split].
  - intros limite_por_pagina pagina Hfl Hfo conn tabela condicao campo_ordenar ordenacao
      inner_join_receive select_receive w.
    destruct (filter_query_shape tabela condicao campo_ordenar ordenacao limite_por_pagina
                pagina inner_join_receive select_receive Hfl Hfo) as (statement & Hq & Hw).
    exists statement. split; [|exact Hw].
    rewrite (filter_runs _ _ _ _ _ _ _ _ _ _ _ Hq).
    destruct (conn (calls w) statement) as [[cols rows]|e|]; reflexivity.
  - exact Hpaged.
  - intros. rewrite Hpaged by (lia || reflexivity). reflexivity.
Qed.

Lemma filter_pagination_witness :
  fst (OperationsSQL.filter
         (paged_store ["id"]
            [[VInt 1]; [VInt 2]; [VInt 3]; [VInt 4]; [VInt 5]; [VInt 6]; [VInt 7];
             [VInt 8]; [VInt 9]; [VInt 10]; [VInt 11]; [VInt 12]])
         "pedidos" (Some "cliente = 7") (Some "id") (Some "ASC") 5 2 None None
         empty_world) =
    Ok (VList [VDict [("id", VInt 6)]; VDict [("id", VInt 7)]; VDict [("id", VInt 8)];
               VDict [("id", VInt 9)]; VDict [("id", VInt 10)]]).
Proof.
  apply (proj1 (proj2 filter_pagination) ["id"]
           [[VInt 1]; [VInt 2]; [VInt 3]; [VInt 4]; [VInt 5]; [VInt 6]; [VInt 7];
            [VInt 8]; [VInt 9]; [VInt 10]; [VInt 11]; [VInt 12]]
           "pedidos" (Some "cliente = 7") (Some "id") (Some "ASC") 5 2 None None
           empty_world); (lia || reflexivity).
Defined.

(** C7 as stated fails: with a page size of 4301 digits, here [10 ^ 4300],
    building the statement raises [ValueError] before the [try], and
    [filter] executes no statement at all. *)
Lemma filter_rejects_long_page_size : ~ filter_assembles (10 ^ 4300) 1.
Proof.
  intros H.
  destruct (H (constant_store [] []) "pedidos" None None None None None empty_world)
    as (statement & Hcalls & _).
  vm_compute in Hcalls. discriminate Hcalls.
Qed.

(** * Further properties *)

(** ** The encoder *)



(** X2: whatever the round trip through the encoder returns holds no
    decimal, binary or set at any depth: it is made of null, booleans,
    ints, floats, strings, lists and dicts only. *)
Theorem normalize_returns_json (v w : value) :
  normalize v = Ok w -> json_value w.
Proof. apply normalize_json. Qed.

Lemma normalize_returns_json_witness :
  json_value (VList [VInt 3; VDict [("a", VFloat (S754_finite false 5629499534213120 (-51)))]]).
Proof.
  apply (normalize_returns_json
           (VList [VDecimal (mkDecimal false 3 0);
                   VDict [("a", VDecimal (mkDecimal false 25 (-1)))]])).
  reflexivity.
Defined.

Lemma normalize_entries_keys kvs : forall ws,
  normalize_entries kvs = Ok ws -> map fst ws = map fst kvs.
Proof.
  induction kvs as [|[k x] l IH]; simpl; intros ws H.
  - inversion H. reflexivity.
  - apply rbind_Ok_inv in H. destruct H as (y & _ & H).
    apply rbind_Ok_inv in H. destruct H as (ys & Hys & H).
    inversion H. simpl. rewrite (IH ys Hys). reflexivity.
Qed.

(** X3: the round trip keeps the shape of a value: a list comes back as a
    list of the same length, and a dict as a dict with the same keys in the
    same order. *)
Theorem normalize_keeps_shape :
  (forall (l : list value) (w : value),
     normalize (VList l) = Ok w ->
     exists l', w = VList l' /\ List.length l' = List.length l) /\
  (forall (kvs : list (string * value)) (w : value),
     normalize (VDict kvs) = Ok w ->
     exists kvs', w = VDict kvs' /\ map fst kvs' = map fst kvs).
Proof.
  split.
  - intros l w H. rewrite normalize_VList in H.
    apply rbind_Ok_inv in H. destruct H as (ws & Hws & H). inversion H.
    exists ws. split; [reflexivity | apply normalize_list_length, Hws].
  - intros kvs w H. rewrite normalize_VDict in H.
    apply rbind_Ok_inv in H. destruct H as (ws & Hws & H). inversion H.
    exists ws. split; [reflexivity | apply normalize_entries_keys, Hws].
Qed.

Lemma normalize_keeps_shape_witness :
  exists kvs',
    VDict [("b", VInt 1); ("a", VInt 2)] = VDict kvs' /\
    map fst kvs' = ["b"; "a"].
Proof.
  apply (proj2 normalize_keeps_shape
           [("b", VDecimal (mkDecimal false 1 0)); ("a", VDecimal (mkDecimal false 20 (-1)))]).
  reflexivity.
Defined.

(** X4: for a decimal with zero fractional part and an integer part below
    [10^28], whatever its exponent, [default] returns an int whose value is
    the decimal's: its magnitude scaled by the power of ten of a negative
    exponent is the coefficient scaled by that of a positive one, and its
    sign is the decimal's. *)
Theorem default_integer_is_exact (d : PyDecimal) :
  decimal_is_integral d = true ->
  Z.abs (decimal_int d) < 10 ^ 28 ->
  exists n,
    DecimalEncoder.default (VDecimal d) = Ok (VInt n) /\
    Z.abs n * 10 ^ Z.max 0 (- dec_exp d) = Z.of_N (dec_int d) * 10 ^ Z.max 0 (dec_exp d) /\
    (if dec_sign d then n <= 0 else 0 <= n).
Proof.
  intros Hint Hfit. exists (decimal_int d).
  rewrite (default_integral d Hint Hfit).
  split; [reflexivity|]. split; [apply decimal_int_exact, Hint|].
  unfold decimal_int. destruct (dec_sign d); lia.
Qed.

Lemma default_integer_is_exact_witness :
  exists n,
    DecimalEncoder.default (VDecimal (mkDecimal true 4200 (-2))) = Ok (VInt n) /\
    Z.abs n * 10 ^ 2 = 4200 * 10 ^ 0 /\ n <= 0.
Proof.
  apply (default_integer_is_exact (mkDecimal true 4200 (-2))).
  - reflexivity.
  - vm_compute. reflexivity.
Defined.

Lemma normalize_list_encodable l :
  Forall (fun v => forall w, normalize v = Ok w -> encodable v) l ->
  forall ws, normalize_list l = Ok ws -> Forall encodable l.
Proof.
  induction 1 as [|x l Hx _ IH]; simpl; intros ws Hws; [constructor|].
  apply rbind_Ok_inv in Hws. destruct Hws as (y & Hy & Hws).
  apply rbind_Ok_inv in Hws. destruct Hws as (ys & Hys & _).
  constructor; eauto.
Qed.

Lemma normalize_entries_encodable kvs :
  Forall (fun kv => forall w, normalize (snd kv) = Ok w -> encodable (snd kv)) kvs ->
  forall ws, normalize_entries kvs = Ok ws -> Forall (fun kv => encodable (snd kv)) kvs.
Proof.
  induction 1 as [|[k x] l Hx _ IH]; simpl; intros ws Hws; [constructor|].
  apply rbind_Ok_inv in Hws. destruct Hws as (y & Hy & Hws).
  apply rbind_Ok_inv in Hws. destruct Hws as (ys & Hys & _).
  constructor; simpl in *; eauto.
Qed.

(** X5: the round trip succeeds only on values that hold no binary and no
    set, whose decimals all have an integer part below [10^28] and whose
    ints all have at most 4300 digits; on any other value it raises. *)
Theorem normalize_succeeds_only_on_encodable (v w : value) :
  normalize v = Ok w -> encodable v.
Proof.
  revert w.
  induction v as [| |n| | |d| | |l IH|kvs IH] using value_ind; intros w Hw;
    try (constructor; fail); try discriminate.
  - constructor. apply (encode_int_Ok n w Hw).
  - constructor.
    destruct (Z.lt_ge_cases (Z.abs (decimal_int d)) (10 ^ 28)) as [H|H]; [exact H|].
    exfalso.
    change (normalize (VDecimal d))
      with (rbind (DecimalEncoder.default (VDecimal d)) encode_default_result) in Hw.
    unfold DecimalEncoder.default in Hw.
    rewrite (decimal_mod1_raises d H) in Hw. discriminate.
  - rewrite normalize_VList in Hw. apply rbind_Ok_inv in Hw.
    destruct Hw as (ws & Hws & _). constructor.
    eapply normalize_list_encodable; eauto.
  - rewrite normalize_VDict in Hw. apply rbind_Ok_inv in Hw.
    destruct Hw as (ws & Hws & _). constructor.
    eapply normalize_entries_encodable; eauto.
Qed.

Lemma normalize_succeeds_only_on_encodable_witness :
  encodable (VList [VDecimal (mkDecimal false 9999999999999999999999999999 0); VStr "a"]).
Proof.
  apply (normalize_succeeds_only_on_encodable
           (VList [VDecimal (mkDecimal false 9999999999999999999999999999 0); VStr "a"])
           (VList [VInt 9999999999999999999999999999; VStr "a"])).
  reflexivity.
Defined.

(** ** Point lookup *)

(** X6: [get] makes one [get_item] call with the key it is given and
    converts what comes back: for a true item the result is that of
    normalizing it (the normalized item, or the exception the normalization
    raises) and nothing is logged; an absent or false item gives [False]
    and one warning; a [ClientError] gives [False] and one error line carrying the
    backend's message; any other exception leaves the operation, with
    nothing logged. *)
Theorem get_outcomes (tabela : table) (params : list (string * value)) (w : world) :
  let after := (calls w ++ [GetItem params])%list in
  (forall r item,
     tabela (calls w) (GetItem params) = Ok r -> Item r = Some item -> truthy item = true ->
     OperationsDynamo.get tabela params w = (normalize item, mkWorld after (log w))) /\
  (forall r,
     tabela (calls w) (GetItem params) = Ok r ->
     Item r = None \/ (exists item, Item r = Some item /\ truthy item = false) ->
     OperationsDynamo.get tabela params w =
       (Ok (VBool false), mkWorld after (log w ++ [(WARNING, "Item não encontrado")]))) /\
  (forall msg,
     tabela (calls w) (GetItem params) = Raise (ClientError msg) ->
     OperationsDynamo.get tabela params w =
       (Ok (VBool false),
        mkWorld after (log w ++ [(ERROR, "Erro ao obter item: " ++ msg)]))) /\
  (forall e,
     tabela (calls w) (GetItem params) = Raise e ->
     (forall msg, e <> ClientError msg) ->
     OperationsDynamo.get tabela params w = (Raise e, mkWorld after (log w))).
Proof.
  intros after. subst after. repeat split.
  - intros r item Hr HI Ht. step Hr. rewrite HI, Ht. reflexivity.
  - intros r Hr [HI | (item & HI & Ht)]; step Hr; rewrite HI; [|rewrite Ht]; reflexivity.
  - intros msg Hr. step Hr. reflexivity.
  - intros e Hr Hne. step Hr. destruct e; try reflexivity.
    destruct (Hne msg eq_refl).
Qed.

Lemma get_outcomes_witness :
  OperationsDynamo.get
    (scripted_table
       [Ok (mkResponse (Some (VDict [("id", VStr "a"); ("n", VDecimal (mkDecimal false 2 0))]))
              None None None)])
    [("id", VStr "a")] empty_world =
    (Ok (VDict [("id", VStr "a"); ("n", VInt 2)]),
     mkWorld [GetItem [("id", VStr "a")]] []) /\
  OperationsDynamo.get (scripted_table [Ok (mkResponse None None None None)])
    [("id", VStr "a")] empty_world =
    (Ok (VBool false),
     mkWorld [GetItem [("id", VStr "a")]] [(WARNING, "Item não encontrado")]) /\
  OperationsDynamo.get (scripted_table [Raise (ClientError "denied")])
    [("id", VStr "a")] empty_world =
    (Ok (VBool false),
     mkWorld [GetItem [("id", VStr "a")]] [(ERROR, "Erro ao obter item: denied")]) /\
  OperationsDynamo.get (scripted_table [Raise (OtherError "timeout")])
    [("id", VStr "a")] empty_world =
    (Raise (OtherError "timeout"), mkWorld [GetItem [("id", VStr "a")]] []).
Proof.
  split; [|split; [|split]].
  - exact (proj1 (get_outcomes
                    (scripted_table
                       [Ok (mkResponse
                              (Some (VDict [("id", VStr "a");
                                            ("n", VDecimal (mkDecimal false 2 0))]))
                              None None None)])
                    [("id", VStr "a")] empty_world)
             (mkResponse
                (Some (VDict [("id", VStr "a"); ("n", VDecimal (mkDecimal false 2 0))]))
                None None None)
             (VDict [("id", VStr "a"); ("n", VDecimal (mkDecimal false 2 0))])
             eq_refl eq_refl eq_refl).
  - exact (proj1 (proj2 (get_outcomes
                           (scripted_table [Ok (mkResponse None None None None)])
                           [("id", VStr "a")] empty_world))
             (mkResponse None None None None) eq_refl (or_introl eq_refl)).
  - exact (proj1 (proj2 (proj2 (get_outcomes
                                  (scripted_table [Raise (ClientError "denied")])
                                  [("id", VStr "a")] empty_world)))
             "denied" eq_refl).
  - apply (proj2 (proj2 (proj2 (get_outcomes
                                  (scripted_table [Raise (OtherError "timeout")])
                                  [("id", VStr "a")] empty_world)))
             (OtherError "timeout")); [reflexivity | discriminate].
Defined.

(** ** Query by index *)

(** X7: [getByIndex] looks at the first entry of the index mapping only:
    it queries the index named after that key with [-index] appended, on
    the condition that the key equals its value, and any further entries
    change nothing. *)
Theorem getByIndex_first_key (tabela : table) (k : string) (v : value)
  (others : list (string * value)) (w : world) :
  OperationsDynamo.getByIndex tabela ((k, v) :: others) w =
    OperationsDynamo.getByIndex tabela [(k, v)] w /\
  calls (snd (OperationsDynamo.getByIndex tabela ((k, v) :: others) w)) =
    (calls w ++
     [Query (mkQuery (Some (k ++ "-index")%string) (KeyEq k v)
               None None None None None None None None)])%list.
Proof.
  assert (Hrun : forall rest,
             OperationsDynamo.getByIndex tabela ((k, v) :: rest) w =
             try_except_ClientError
               (table_query tabela
                  (mkQuery (Some (k ++ "-index")) (KeyEq k v)
                     None None None None None None None None))
               (fun msg =>
                  logging_error ("Erro ao consultar índice: " ++ msg) ;;; ret (VBool false))
               (fun response =>
                  match Items response with
                  | Some (i :: items) => json_roundtrip (VList (i :: items))
                  | _ => logging_warning "Itens não encontrados" ;;; ret (VBool false)
                  end) w).
  { intros rest. unfold OperationsDynamo.getByIndex. cbn [map fst].
    unfold bind at 1. unfold ret at 1.
    unfold try_except_ClientError, bind, subscript. cbn [dict_get].
    rewrite String.eqb_refl. reflexivity. }
  split.
  - rewrite (Hrun others), (Hrun []). reflexivity.
  - rewrite (Hrun others). apply (read_path_calls tabela). reflexivity.
Qed.

(** ** Listing *)

(** X8: [listAll] reads one page and stops: it issues exactly one query,
    descending, with no limit and no start key, and when the response holds
    items it returns them normalized whether or not the response carries a
    continuation cursor; with no items it returns [False] and logs one
    warning. *)
Theorem listAll_single_page (tabela : table) (params : expression)
  (fields : option string) (filter : option expression)
  (attrnames : option (list (string * string))) (w : world) :
  let q := listAll_query params fields filter attrnames in
  KeyConditionExpression q = params /\ ScanIndexForward q = Some false /\
  Limit q = None /\ ExclusiveStartKey q = None /\
  calls (snd (OperationsDynamo.listAll tabela params fields filter attrnames w)) =
    (calls w ++ [Query q])%list /\
  (forall r i items,
     tabela (calls w) (Query q) = Ok r -> Items r = Some (i :: items) ->
     OperationsDynamo.listAll tabela params fields filter attrnames w =
       (normalize (VList (i :: items)), mkWorld (calls w ++ [Query q]) (log w))) /\
  (forall r,
     tabela (calls w) (Query q) = Ok r -> Items r = None \/ Items r = Some [] ->
     OperationsDynamo.listAll tabela params fields filter attrnames w =
       (Ok (VBool false),
        mkWorld (calls w ++ [Query q]) (log w ++ [(WARNING, "Nenhum item encontrado")]))).
Proof.
  intros q.
  assert (Hq : KeyConditionExpression q = params /\ ScanIndexForward q = Some false /\
               Limit q = None /\ ExclusiveStartKey q = None).
  { subst q. unfold listAll_query, when_expr, when_dict, when_str.
    destruct filter as [f|]; [destruct (truthy_expr (Some f))|];
      (destruct attrnames as [a|]; [destruct (truthy_dict (Some a))|]);
      (destruct fields as [s|]; [destruct (truthy_str (Some s))|]);
      repeat split; reflexivity. }
  destruct Hq as (H1 & H2 & H3 & H4). repeat (split; [assumption|]).
  subst q. unfold listAll_query. split; [|split].
  - apply (read_path_calls tabela). reflexivity.
  - intros r i items Hr HI. step Hr. rewrite HI. reflexivity.
  - intros r Hr [HI|HI]; step Hr; rewrite HI; reflexivity.
Qed.

Lemma listAll_single_page_witness :
  OperationsDynamo.listAll
    (scripted_table [Ok (page [VStr "a"] (Some (VInt 1))); Ok (page [VStr "b"] None)])
    (ExprText "pk = :p") (Some "nome") None None empty_world =
    (Ok (VList [VStr "a"]),
     mkWorld [Query (listAll_query (ExprText "pk = :p") (Some "nome") None None)] []).
Proof.
  exact (proj1 (proj2 (proj2 (proj2 (proj2 (proj2
           (listAll_single_page
              (scripted_table
                 [Ok (page [VStr "a"] (Some (VInt 1))); Ok (page [VStr "b"] None)])
              (ExprText "pk = :p") (Some "nome") None None empty_world))))))
           (page [VStr "a"] (Some (VInt 1))) (VStr "a") [] eq_refl eq_refl).
Defined.

Lemma listAllPaginate_loop_pages (tabela : table) (rest : list response) :
  forall (fuel : nat) (query : query_args) (current : response) (data : list value)
    (w : world),
    continues tabela (calls w) query current rest ->
    (List.length rest <= fuel)%nat ->
    OperationsDynamo.listAllPaginate_loop fuel tabela query current data w =
      (Ok (data ++ flat_map items_of rest)%list,
       mkWorld (calls w ++ continuation_queries query current rest) (log w)).
Proof.
  induction rest as [|next rest IH]; intros fuel query current data w Hc Hfuel.
  - cbn [continues] in Hc. cbn [continuation_queries flat_map].
    rewrite !app_nil_r. destruct w as [cs lg].
    destruct fuel; cbn [OperationsDynamo.listAllPaginate_loop]; rewrite Hc; reflexivity.
  - cbn [continues] in Hc. destruct Hc as (key & Hk & Hnext & Hc).
    destruct fuel as [|fuel]; [simpl in Hfuel; lia|].
    cbn [OperationsDynamo.listAllPaginate_loop continuation_queries flat_map].
    rewrite Hk. unfold bind, table_query. cbn [calls log]. rewrite Hnext.
    rewrite (IH fuel _ next _ (mkWorld (calls w ++ [Query (set_ExclusiveStartKey key query)])
                                 (log w)) Hc ltac:(simpl in Hfuel; lia)).
    cbn [calls log]. unfold items_of. rewrite <- !app_assoc. reflexivity.
Qed.

(** X9: over any number of pages, [listAllPaginate] returns the normalized
    concatenation of the items of all of them in order (a later page
    without items adds nothing), after one query per page, each
    continuation starting from the cursor of the page before; this holds
    as soon as the first page has items and the fuel covers the
    continuations. *)
Theorem listAllPaginate_all_pages (fuel : nat) (tabela : table) (params : expression)
  (fields : option string) (attrnames : option (list (string * string))) (w : world)
  (first : response) (i : value) (items : list value) (rest : list response) :
  let q0 := OperationsDynamo.listAllPaginate_query params fields attrnames in
  tabela (calls w) (Query q0) = Ok first ->
  Items first = Some (i :: items) ->
  continues tabela (calls w ++ [Query q0]) q0 first rest ->
  (List.length rest <= fuel)%nat ->
  OperationsDynamo.listAllPaginate fuel tabela params fields attrnames w =
    (normalize (VList ((i :: items) ++ flat_map items_of rest)),
     mkWorld (calls w ++ Query q0 :: continuation_queries q0 first rest) (log w)) /\
  List.length (Query q0 :: continuation_queries q0 first rest) = S (List.length rest).
Proof.
  intros q0 Hfirst HI Hc Hfuel. subst q0. split.
  - step Hfirst. rewrite HI.
    rewrite (listAllPaginate_loop_pages tabela rest fuel _ first (i :: items)
               (mkWorld (calls w ++ [Query (OperationsDynamo.listAllPaginate_query
                                              params fields attrnames)]) (log w))
               Hc Hfuel).
    cbn [calls log]. rewrite <- app_assoc. cbn [app].
    destruct (normalize _); reflexivity.
  - cbn [List.length]. f_equal.
    revert Hc. generalize (calls w ++ [Query (OperationsDynamo.listAllPaginate_query
                                                params fields attrnames)])%list.
    generalize (OperationsDynamo.listAllPaginate_query params fields attrnames).
    generalize first. clear.
    induction rest as [|next rest IH]; intros current q h Hc; [reflexivity|].
    cbn [continues] in Hc. destruct Hc as (key & Hk & _ & Hc).
    cbn [continuation_queries]. rewrite Hk. cbn [List.length]. f_equal.
    eapply IH, Hc.
Qed.

Lemma listAllPaginate_all_pages_witness :
  fst (OperationsDynamo.listAllPaginate 3%nat
         (scripted_table
            [Ok (page [VStr "a"] (Some (VInt 1)));
             Ok (page [] (Some (VInt 2)));
             Ok (mkResponse None None (Some (VInt 3)) None);
             Ok (page [VStr "b"; VStr "c"] None)])
         (ExprText "pk = :p") None None empty_world) =
    Ok (VList [VStr "a"; VStr "b"; VStr "c"]).
Proof.
  refine (f_equal fst
            (proj1 (listAllPaginate_all_pages 3%nat
                      (scripted_table
                         [Ok (page [VStr "a"] (Some (VInt 1)));
                          Ok (page [] (Some (VInt 2)));
                          Ok (mkResponse None None (Some (VInt 3)) None);
                          Ok (page [VStr "b"; VStr "c"] None)])
                      (ExprText "pk = :p") None None empty_world
                      (page [VStr "a"] (Some (VInt 1))) (VStr "a") []
                      [page [] (Some (VInt 2)); mkResponse None None (Some (VInt 3)) None;
                       page [VStr "b"; VStr "c"] None]
                      eq_refl eq_refl _ _))).
  - cbn [continues]. exists (VInt 1). repeat split.
    exists (VInt 2). repeat split. exists (VInt 3). repeat split.
  - apply le_n.
Defined.

Lemma listAllPaginate_loop_diverges (tabela : table) :
  (forall history q, exists r key,
      tabela history (Query q) = Ok r /\ LastEvaluatedKey r = Some key) ->
  forall (fuel : nat) (query : query_args) (current : response) (key : value)
    (data : list value) (w : world),
    LastEvaluatedKey current = Some key ->
    fst (OperationsDynamo.listAllPaginate_loop fuel tabela query current data w) = Diverged /\
    List.length (calls (snd (OperationsDynamo.listAllPaginate_loop fuel tabela query
                               current data w))) = (List.length (calls w) + fuel)%nat.
Proof.
  intros Hall. induction fuel as [|fuel IH]; intros query current key data w Hk.
  - cbn [OperationsDynamo.listAllPaginate_loop]. rewrite Hk. simpl. split; [reflexivity|lia].
  - cbn [OperationsDynamo.listAllPaginate_loop]. rewrite Hk.
    unfold bind, table_query. cbn [calls log].
    destruct (Hall (calls w) (set_ExclusiveStartKey key query)) as (r & key' & -> & Hk').
    destruct (IH (set_ExclusiveStartKey key query) r key'
                (data ++ match Items r with Some l => l | None => [] end)%list
                (mkWorld (calls w ++ [Query (set_ExclusiveStartKey key query)]) (log w)) Hk')
      as [Hd Hn].
    split; [exact Hd|]. rewrite Hn. cbn [calls]. rewrite length_app. simpl. lia.
Qed.

(** X10: against a backend whose every response carries a continuation
    cursor, [listAllPaginate] never returns: once the first page has items,
    whatever fuel it is given it is still querying when the fuel runs out,
    having made one query per unit of fuel after the first. *)
Theorem listAllPaginate_never_returns (tabela : table) (params : expression)
  (fields : option string) (attrnames : option (list (string * string))) (w : world)
  (first : response) (i : value) (items : list value) (key : value) :
  let q0 := OperationsDynamo.listAllPaginate_query params fields attrnames in
  (forall history q, exists r key',
      tabela history (Query q) = Ok r /\ LastEvaluatedKey r = Some key') ->
  tabela (calls w) (Query q0) = Ok first ->
  Items first = Some (i :: items) -> LastEvaluatedKey first = Some key ->
  forall fuel : nat,
    fst (OperationsDynamo.listAllPaginate fuel tabela params fields attrnames w) = Diverged /\
    List.length (calls (snd (OperationsDynamo.listAllPaginate fuel tabela params fields
                               attrnames w))) = (List.length (calls w) + 1 + fuel)%nat.
Proof.
  intros q0 Hall Hfirst HI Hk fuel. subst q0.
  step Hfirst. rewrite HI.
  destruct (listAllPaginate_loop_diverges tabela Hall fuel
              (OperationsDynamo.listAllPaginate_query params fields attrnames)
              first key (i :: items)
              (mkWorld (calls w ++ [Query (OperationsDynamo.listAllPaginate_query
                                             params fields attrnames)]) (log w)) Hk)
    as [Hd Hn].
  destruct (OperationsDynamo.listAllPaginate_loop _ _ _ _ _ _) as [[data| |] w'];
    cbn [fst snd] in *; try discriminate.
  split; [reflexivity|]. rewrite Hn. cbn [calls]. rewrite length_app. simpl. lia.
Qed.

Lemma listAllPaginate_never_returns_witness :
  fst (OperationsDynamo.listAllPaginate 7%nat
         (constant_table (page [VStr "a"] (Some (VInt 1))))
         (ExprText "pk = :p") None None empty_world) = Diverged.
Proof.
  refine (proj1 (listAllPaginate_never_returns
                   (constant_table (page [VStr "a"] (Some (VInt 1))))
                   (ExprText "pk = :p") None None empty_world
                   (page [VStr "a"] (Some (VInt 1))) (VStr "a") [] (VInt 1)
                   _ eq_refl eq_refl eq_refl 7%nat)).
  intros history q. exists (page [VStr "a"] (Some (VInt 1))), (VInt 1).
  split; reflexivity.
Defined.

(** X11: when the first response carries no continuation cursor,
    [listAllPaginate] does what [listAll] without a filter does: the same
    query, the same result and the same log, whatever the fuel. *)
Theorem listAllPaginate_agrees_with_listAll (fuel : nat) (tabela : table)
  (params : expression) (fields : option string)
  (attrnames : option (list (string * string))) (w : world) (r : response) :
  tabela (calls w)
    (Query (OperationsDynamo.listAllPaginate_query params fields attrnames)) = Ok r ->
  LastEvaluatedKey r = None ->
  OperationsDynamo.listAllPaginate fuel tabela params fields attrnames w =
    OperationsDynamo.listAll tabela params fields None attrnames w.
Proof.
  intros Hr Hk.
  unfold OperationsDynamo.listAll, OperationsDynamo.listAllPaginate.
  change (when_expr None set_FilterExpression ?q) with q.
  fold (OperationsDynamo.listAllPaginate_query params fields attrnames).
  unfold_monad. cbn [calls log]. rewrite Hr.
  destruct (Items r) as [[|i items]|]; try reflexivity.
  destruct fuel; cbn [OperationsDynamo.listAllPaginate_loop]; rewrite Hk; reflexivity.
Qed.

Lemma listAllPaginate_agrees_with_listAll_witness :
  OperationsDynamo.listAllPaginate 0%nat (scripted_table [Ok (page [VStr "a"] None)])
    (ExprText "pk = :p") (Some "nome") None empty_world =
  OperationsDynamo.listAll (scripted_table [Ok (page [VStr "a"] None)])
    (ExprText "pk = :p") (Some "nome") None None empty_world.
Proof.
  apply (listAllPaginate_agrees_with_listAll 0%nat
           (scripted_table [Ok (page [VStr "a"] None)])
           (ExprText "pk = :p") (Some "nome") None empty_world (page [VStr "a"] None));
    reflexivity.
Defined.

(** ** Scanning page by page *)

(** X12: when the page [scanPaginate] reads holds no items, the cursor the
    backend sent with it is dropped: the result is
    [{lastKey: None, results: []}], the very object a backend fault gives,
    so the caller cannot continue past an empty page. *)
Theorem scanPaginate_empty_page_drops_cursor (tabela : table) (expression : expression)
  (fields : string) (lastKey : option value) (limit : Z)
  (attrnames : option (list (string * string))) (w : world) :
  let q := scanPaginate_query expression fields lastKey limit attrnames in
  (forall r,
     tabela (calls w) (Query q) = Ok r -> Items r = None \/ Items r = Some [] ->
     OperationsDynamo.scanPaginate tabela expression fields lastKey limit attrnames w =
       (Ok (VDict [("lastKey", VNone); ("results", VList [])]),
        mkWorld (calls w ++ [Query q])
          (log w ++ [(WARNING, "Nenhum item encontrado no scan")]))) /\
  (forall msg,
     tabela (calls w) (Query q) = Raise (ClientError msg) ->
     fst (OperationsDynamo.scanPaginate tabela expression fields lastKey limit attrnames w) =
       Ok (VDict [("lastKey", VNone); ("results", VList [])])).
Proof.
  intros q. subst q. unfold scanPaginate_query. split.
  - intros r Hr [HI|HI]; step Hr; rewrite HI; reflexivity.
  - intros msg Hr. step Hr. reflexivity.
Qed.

Lemma scanPaginate_empty_page_drops_cursor_witness :
  OperationsDynamo.scanPaginate
    (scripted_table [Ok (page [] (Some (VDict [("sk", VInt 9)])))])
    (ExprText "pk = :p") "sk" None 10 None empty_world =
    (Ok (VDict [("lastKey", VNone); ("results", VList [])]),
     mkWorld [Query (scanPaginate_query (ExprText "pk = :p") "sk" None 10 None)]
       [(WARNING, "Nenhum item encontrado no scan")]).
Proof.
  apply (proj1 (scanPaginate_empty_page_drops_cursor
                  (scripted_table [Ok (page [] (Some (VDict [("sk", VInt 9)])))])
                  (ExprText "pk = :p") "sk" None 10 None empty_world)
           (page [] (Some (VDict [("sk", VInt 9)])))); [reflexivity | right; reflexivity].
Defined.

(** X13: feeding the [lastKey] a call of [scanPaginate] returned into the
    next call continues where the first stopped.  Over a backend that
    answers the first query with a non-empty page and a cursor [c], and the
    query of the second call with a non-empty page and no cursor, the two
    calls in sequence issue these two queries and return the normalized
    items of the second page with a null [lastKey]; the second query starts
    from [c] when [c] is true (a non-empty mapping, as the backend's cursors
    are) and is the first query again when [c] is false.  When normalizing
    the first page raises, the sequence ends there with that exception,
    after one query; when normalizing the second page raises, it ends with
    that exception after the two.  A returned null [lastKey], fed back,
    starts again from the beginning. *)
Theorem scanPaginate_continues (tabela : table) (expression : expression)
  (fields : string) (limit : Z) (attrnames : option (list (string * string)))
  (w : world) (r1 r2 : response) (i1 i2 : value) (P1 P2 : list value) (c : value) :
  let q1 := scanPaginate_query expression fields None limit attrnames in
  let q2 := scanPaginate_query expression fields (Some c) limit attrnames in
  tabela (calls w) (Query q1) = Ok r1 ->
  Items r1 = Some (i1 :: P1) -> LastEvaluatedKey r1 = Some c ->
  tabela (calls w ++ [Query q1])%list (Query q2) = Ok r2 ->
  Items r2 = Some (i2 :: P2) -> LastEvaluatedKey r2 = None ->
  (first <- OperationsDynamo.scanPaginate tabela expression fields None limit attrnames ;;
   match first with
   | VDict obj =>
       OperationsDynamo.scanPaginate tabela expression fields (dict_get "lastKey" obj)
         limit attrnames
   | _ => raise TypeError
   end) w =
    match normalize (VList (i1 :: P1)) with
    | Ok _ =>
        (rmap (fun res2 => VDict [("lastKey", VNone); ("results", res2)])
           (normalize (VList (i2 :: P2))),
         mkWorld (calls w ++ [Query q1; Query q2]) (log w))
    | Raise e => (Raise e, mkWorld (calls w ++ [Query q1]) (log w))
    | Diverged => (Diverged, mkWorld (calls w ++ [Query q1]) (log w))
    end /\
  ExclusiveStartKey q1 = None /\
  (truthy c = true -> ExclusiveStartKey q2 = Some c) /\
  (truthy c = false -> q2 = q1) /\
  scanPaginate_query expression fields (Some VNone) limit attrnames = q1.
Proof.
  intros q1 q2 H1 HI1 HL1 H2 HI2 HL2.
  split; [|split; [|split; [|split]]].
  - unfold bind at 1.
    assert (Hfirst : OperationsDynamo.scanPaginate tabela expression fields None limit
                       attrnames w =
                     (rmap (fun res1 => VDict [("lastKey", c); ("results", res1)])
                        (normalize (VList (i1 :: P1))),
                      mkWorld (calls w ++ [Query q1]) (log w))).
    { subst q1. unfold scanPaginate_query in *. step H1. rewrite HI1, HL1.
      destruct (normalize (VList (i1 :: P1))); reflexivity. }
    rewrite Hfirst.
    destruct (normalize (VList (i1 :: P1))) as [res1|e|]; cbn [rmap rbind];
      try reflexivity.
    change (dict_get "lastKey" [("lastKey", c); ("results", res1)]) with (Some c).
    subst q2. unfold scanPaginate_query in *.
    unfold_ops. unfold_monad. cbn [calls log]. rewrite H2. cbn [calls log].
    rewrite HI2, HL2. rewrite <- app_assoc.
    destruct (normalize (VList (i2 :: P2))); reflexivity.
  - subst q1. unfold scanPaginate_query, when_value, when_dict.
    destruct attrnames as [a|]; [destruct (truthy_dict (Some a))|]; reflexivity.
  - intros Hc. subst q2. unfold scanPaginate_query, when_value. rewrite Hc. reflexivity.
  - intros Hc. subst q1 q2. unfold scanPaginate_query, when_value. rewrite Hc. reflexivity.
  - reflexivity.
Qed.

Lemma scanPaginate_continues_witness :
  (first <- OperationsDynamo.scanPaginate
              (scripted_table
                 [Ok (page [VStr "a"] (Some (VDict [("sk", VInt 1)])));
                  Ok (page [VStr "b"] None)])
              (ExprText "pk = :p") "sk" None 1 None ;;
   match first with
   | VDict obj =>
       OperationsDynamo.scanPaginate
         (scripted_table
            [Ok (page [VStr "a"] (Some (VDict [("sk", VInt 1)])));
             Ok (page [VStr "b"] None)])
         (ExprText "pk = :p") "sk" (dict_get "lastKey" obj) 1 None
   | _ => raise TypeError
   end) empty_world =
    (Ok (VDict [("lastKey", VNone); ("results", VList [VStr "b"])]),
     mkWorld
       [Query (scanPaginate_query (ExprText "pk = :p") "sk" None 1 None);
        Query (scanPaginate_query (ExprText "pk = :p") "sk"
                 (Some (VDict [("sk", VInt 1)])) 1 None)] []).
Proof.
  exact (proj1 (scanPaginate_continues
                  (scripted_table
                     [Ok (page [VStr "a"] (Some (VDict [("sk", VInt 1)])));
                      Ok (page [VStr "b"] None)])
                  (ExprText "pk = :p") "sk" 1 None empty_world
                  (page [VStr "a"] (Some (VDict [("sk", VInt 1)])))
                  (page [VStr "b"] None)
                  (VStr "a") (VStr "b") [] [] (VDict [("sk", VInt 1)])
                  eq_refl eq_refl eq_refl eq_refl eq_refl eq_refl)).
Defined.

(** X14: whatever the backend answers, [scanFilter] issues one descending
    query limited to [limit]; and over a backend that honours the limit,
    the list it returns holds at most [limit] records. *)
Theorem scanFilter_at_most_limit (tabela : table) (expression : expression) (limit : Z)
  (w : world) :
  calls (snd (OperationsDynamo.scanFilter tabela expression limit w)) =
    (calls w ++
     [Query (mkQuery None expression None None None None (Some false) (Some limit)
               None None)])%list /\
  (honours_limit tabela ->
   forall l : list value,
     fst (OperationsDynamo.scanFilter tabela expression limit w) = Ok (VList l) ->
     (List.length l <= Z.to_nat limit)%nat).
Proof.
  split.
  - unfold OperationsDynamo.scanFilter. apply (read_path_calls tabela). reflexivity.
  - intros Hlim l. unfold_ops. unfold_monad. cbn [calls log].
    destruct (tabela (calls w) (Query _)) as [r|e|] eqn:Hr; [| destruct e |];
      try discriminate.
    destruct (Items r) as [[|i items]|] eqn:HI; try discriminate.
    rewrite normalize_VList.
    destruct (normalize_list (i :: items)) as [ws| |] eqn:Hn; try discriminate.
    simpl. intros H. inversion H; subst.
    rewrite (normalize_list_length _ _ Hn).
    apply (Hlim _ _ _ limit _ Hr eq_refl HI).
Qed.

Lemma scanFilter_at_most_limit_witness :
  (List.length [VInt 3; VInt 2] <= Z.to_nat 2)%nat.
Proof.
  apply (proj2 (scanFilter_at_most_limit
                  (sorted_table [(1, VDecimal (mkDecimal false 1 0));
                                 (2, VDecimal (mkDecimal false 2 0));
                                 (3, VDecimal (mkDecimal false 3 0))])
                  (ExprText "pk = :p") 2 empty_world)).
  - intros history q r n l Hr Hn HI. destruct q; simpl in *.
    unfold sorted_table in Hr. cbn in Hr. subst Limit0.
    inversion Hr; subst. simpl in HI. inversion HI; subst.
    rewrite length_map. apply firstn_le_length.
  - reflexivity.
Defined.

(** ** Records built from rows *)

Lemma dict_get_set_same {A} (k : string) (v : A) (d : list (string * A)) :
  dict_get k (dict_set k v d) = Some v.
Proof.
  induction d as [|[k' v'] d IH]; simpl.
  - rewrite String.eqb_refl. reflexivity.
  - destruct (k' =? k)%string eqn:E; simpl.
    + rewrite String.eqb_refl. reflexivity.
    + rewrite E. exact IH.
Qed.

Lemma dict_get_set_other {A} (k k' : string) (v : A) (d : list (string * A)) :
  k <> k' -> dict_get k' (dict_set k v d) = dict_get k' d.
Proof.
  intros Hne. induction d as [|[k0 v0] d IH]; simpl.
  - destruct (String.eqb_spec k k'); [contradiction | reflexivity].
  - destruct (String.eqb_spec k0 k) as [->|Hk0]; simpl.
    + destruct (String.eqb_spec k k'); [contradiction | reflexivity].
    + destruct (String.eqb_spec k0 k'); [reflexivity | exact IH].
Qed.

Lemma dict_get_app {A} (k : string) (d d' : list (string * A)) :
  dict_get k (d ++ d') =
    match dict_get k d with
    | Some v => Some v
    | None => dict_get k d'
    end.
Proof.
  induction d as [|[k0 v0] d IH]; simpl; [reflexivity|].
  destruct (k0 =? k)%string; [reflexivity | exact IH].
Qed.

Lemma dict_fold_get {A} (k : string) (pairs : list (string * A)) :
  forall acc,
    dict_get k (fold_left (fun d kv => dict_set (fst kv) (snd kv) d) pairs acc) =
      match dict_get k (rev pairs) with
      | Some v => Some v
      | None => dict_get k acc
      end.
Proof.
  induction pairs as [|[k0 v0] pairs IH]; intros acc; simpl; [reflexivity|].
  rewrite IH, dict_get_app. destruct (dict_get k (rev pairs)); [reflexivity|].
  simpl. destruct (String.eqb_spec k0 k) as [->|Hne].
  - apply dict_get_set_same.
  - apply dict_get_set_other, Hne.
Qed.

Lemma dict_get_None_keys {A} (k : string) (d : list (string * A)) :
  dict_get k d = None <-> ~ In k (map fst d).
Proof.
  induction d as [|[k0 v0] d IH]; simpl; [tauto|].
  destruct (String.eqb_spec k0 k) as [->|Hne]; split.
  - discriminate.
  - intros H. exfalso. apply H. left. reflexivity.
  - intros H [Heq|Hin]; [contradiction|]. apply IH in H. contradiction.
  - intros H. apply IH. intros Hin. apply H. right. exact Hin.
Qed.

Lemma dict_set_new {A} (k : string) (v : A) (d : list (string * A)) :
  ~ In k (map fst d) -> dict_set k v d = (d ++ [(k, v)])%list.
Proof.
  induction d as [|[k0 v0] d IH]; simpl; intros Hn; [reflexivity|].
  destruct (String.eqb_spec k0 k) as [->|Hne].
  - exfalso. apply Hn. left. reflexivity.
  - rewrite IH; [reflexivity|]. intros Hin. apply Hn. right. exact Hin.
Qed.

Lemma dict_set_keys_NoDup {A} (k : string) (v : A) (d : list (string * A)) :
  NoDup (map fst d) -> NoDup (map fst (dict_set k v d)).
Proof.
  intros Hd. destruct (in_dec string_dec k (map fst d)) as [Hin|Hn].
  - assert (Hk : map fst (dict_set k v d) = map fst d).
    { clear Hd. induction d as [|[k0 v0] d IH]; simpl in *; [contradiction|].
      destruct (String.eqb_spec k0 k) as [->|Hne]; simpl; [reflexivity|].
      rewrite IH; [reflexivity|]. destruct Hin; [contradiction | assumption]. }
    rewrite Hk. exact Hd.
  - rewrite (dict_set_new k v d Hn), map_app. simpl.
    apply NoDup_app; [exact Hd | repeat constructor; simpl; tauto |].
    intros x Hx [<-|[]]. contradiction.
Qed.

Lemma dict_fold_NoDup {A} (pairs : list (string * A)) :
  forall acc,
    NoDup (map fst acc) ->
    NoDup (map fst (fold_left (fun d kv => dict_set (fst kv) (snd kv) d) pairs acc)).
Proof.
  induction pairs as [|[k v] pairs IH]; intros acc Hacc; simpl; [exact Hacc|].
  apply IH, dict_set_keys_NoDup, Hacc.
Qed.

Lemma dict_fold_distinct {A} (pairs : list (string * A)) :
  forall acc,
    NoDup (map fst (acc ++ pairs)) ->
    fold_left (fun d kv => dict_set (fst kv) (snd kv) d) pairs acc = (acc ++ pairs)%list.
Proof.
  induction pairs as [|[k v] pairs IH]; intros acc Hnd; simpl.
  - rewrite app_nil_r. reflexivity.
  - assert (Hk : ~ In k (map fst acc)).
    { rewrite map_app in Hnd. simpl in Hnd.
      apply NoDup_remove_2 in Hnd. intros Hin. apply Hnd.
      apply in_or_app. left. exact Hin. }
    rewrite (dict_set_new k v acc Hk), IH.
    + rewrite <- app_assoc. reflexivity.
    + rewrite <- app_assoc. exact Hnd.
Qed.

(** X15: the record [dict(zip(columns, row))] built for a row has each
    column name once; a name that occurs several times among the columns
    (as after a join) keeps the place of its first occurrence and the value
    of its last; and when the column names are distinct the record is the
    columns paired with the values in order, cut to the shorter of the
    two. *)
Theorem record_of_columns (columns : list string) (row : list value) :
  exists fields,
    OperationsSQL.record_of columns row = VDict fields /\
    NoDup (map fst fields) /\
    (forall c, dict_get c fields = dict_get c (rev (combine columns row))) /\
    (NoDup columns -> fields = combine columns row).
Proof.
  unfold OperationsSQL.record_of, dict_of. eexists. split; [reflexivity|].
  split; [|split].
  - apply dict_fold_NoDup. constructor.
  - intros c. rewrite dict_fold_get. destruct (dict_get c _); reflexivity.
  - intros Hnd. apply (dict_fold_distinct (combine columns row) []). simpl.
    clear - Hnd. revert row. induction Hnd as [|c cs Hc Hnd IH]; intros row; simpl.
    + constructor.
    + destruct row as [|x row]; simpl; [constructor|].
      constructor; [|apply IH].
      intros Hin. apply Hc. clear - Hin.
      revert row Hin. induction cs as [|c' cs IH]; intros row Hin; simpl in *.
      * contradiction.
      * destruct row as [|y row]; simpl in *; [contradiction|].
        destruct Hin as [->|Hin]; [left; reflexivity | right; eapply IH, Hin].
Qed.

Lemma record_of_columns_witness :
  OperationsSQL.record_of ["id"; "nome"; "id"] [VInt 1; VStr "a"; VInt 2; VInt 9] =
    VDict [("id", VInt 2); ("nome", VStr "a")] /\
  OperationsSQL.record_of ["id"; "nome"] [VInt 1; VStr "a"] =
    VDict (combine ["id"; "nome"] [VInt 1; VStr "a"]).
Proof.
  split; [reflexivity|].
  destruct (record_of_columns ["id"; "nome"] [VInt 1; VStr "a"])
    as (fields & -> & _ & _ & Hdistinct).
  f_equal. apply Hdistinct.
  repeat constructor; simpl; intuition discriminate.
Defined.

(** ** The relational operations *)

(** X16: the relational operations turn every exception of the store into
    their failure value.  Whenever the store answers the statement, with
    rows or by raising whatever exception, [count] and [get] execute that
    one statement and return, [count] a list and [get] a record or [None];
    when the store raises they return the empty list ([count]) or [None]
    ([get]) with one error line that carries the text of the exception.
    [filter] does the same once its statement is built, which it is when
    the page size and the offset have at most 4300 digits each; when one of
    them is longer, building the statement raises [ValueError] before the
    [try] block: [filter] raises it, executes nothing and logs nothing. *)
Theorem sql_operations_convert_faults (conn : connection) (tabela : string)
  (condicao campo_ordenar ordenacao : option string) (limite_por_pagina pagina : Z)
  (inner_join_receive select_receive : option string) (field_count condicao_get : string)
  (w : world) :
  let count_statement :=
    OperationsSQL.count_query tabela field_count condicao inner_join_receive in
  let get_statement :=
    "SELECT * FROM " ++ tabela ++ " WHERE " ++ condicao_get ++ " LIMIT 1" in
  let filter_statement :=
    OperationsSQL.filter_query tabela condicao campo_ordenar ordenacao limite_por_pagina
      pagina inner_join_receive select_receive in
  let run_count :=
    OperationsSQL.count conn tabela field_count condicao inner_join_receive w in
  let run_get := OperationsSQL.get conn tabela condicao_get w in
  let run_filter :=
    OperationsSQL.filter conn tabela condicao campo_ordenar ordenacao limite_por_pagina
      pagina inner_join_receive select_receive w in
  (conn (calls w) count_statement <> Diverged ->
   exists l wc,
     run_count = (Ok (VList l), wc) /\
     calls wc = (calls w ++ [Execute count_statement])%list) /\
  (forall e,
     conn (calls w) count_statement = Raise e ->
     run_count =
       (Ok (VList []),
        mkWorld (calls w ++ [Execute count_statement])
          (log w ++ [(ERROR, "Erro ao executar a consulta 'count': " ++ str_exn e)]))) /\
  (conn (calls w) get_statement <> Diverged ->
   exists v wg,
     run_get = (Ok v, wg) /\
     (v = VNone \/ exists fields, v = VDict fields) /\
     calls wg = (calls w ++ [Execute get_statement])%list) /\
  (forall e,
     conn (calls w) get_statement = Raise e ->
     run_get =
       (Ok VNone,
        mkWorld (calls w ++ [Execute get_statement])
          (log w ++ [(ERROR, "Erro ao executar a consulta 'get': " ++ str_exn e)]))) /\
  (int_str_fits limite_por_pagina = true ->
   int_str_fits ((pagina - 1) * limite_por_pagina) = true ->
   exists statement,
     filter_statement = Ok statement /\
     (conn (calls w) statement <> Diverged ->
      exists l wf,
        run_filter = (Ok (VList l), wf) /\
        calls wf = (calls w ++ [Execute statement])%list) /\
     (forall e,
        conn (calls w) statement = Raise e ->
        run_filter =
          (Ok (VList []),
           mkWorld (calls w ++ [Execute statement])
             (log w ++ [(ERROR, "Erro ao executar a consulta 'filter': " ++ str_exn e)])))) /\
  (int_str_fits limite_por_pagina = false \/
   int_str_fits ((pagina - 1) * limite_por_pagina) = false ->
   run_filter = (Raise ValueError, w)).
Proof.
  intros count_statement get_statement filter_statement run_count run_get run_filter.
  subst count_statement get_statement filter_statement run_count run_get run_filter.
  split; [|split; [|split; [|split; [|split]]]].
  - intros Hterm. unfold_ops. unfold_monad. cbn [calls log].
    destruct (conn (calls w) _) as [[cols rows]|e|] eqn:Hc;
      [| | destruct (Hterm eq_refl)]; do 2 eexists; (split; reflexivity).
  - intros e He. unfold_ops. unfold_monad. cbn [calls log]. rewrite He. reflexivity.
  - intros Hterm. unfold_ops. unfold_monad. cbn [calls log].
    destruct (conn (calls w) _) as [[cols rows]|e|] eqn:Hc; [| | destruct (Hterm eq_refl)].
    + cbn [fst snd]. destruct rows as [|[|c row] rows]; do 2 eexists;
        (split; [reflexivity | split; [|reflexivity]]);
        try (left; reflexivity).
      right. unfold OperationsSQL.record_of. eexists. reflexivity.
    + do 2 eexists. split; [reflexivity|]. split; [left; reflexivity | reflexivity].
  - intros e He. unfold_ops. unfold_monad. cbn [calls log]. rewrite He. reflexivity.
  - intros Hfl Hfo.
    destruct (filter_query_shape tabela condicao campo_ordenar ordenacao limite_por_pagina
                pagina inner_join_receive select_receive Hfl Hfo) as (statement & Hq & _).
    exists statement. split; [exact Hq|].
    rewrite (filter_runs conn _ _ _ _ _ _ _ _ w _ Hq). split.
    + intros Hterm.
      destruct (conn (calls w) statement) as [[cols rows]|e|];
        [| | destruct (Hterm eq_refl)]; do 2 eexists; (split; reflexivity).
    + intros e ->. reflexivity.
  - intros Hlong. unfold_ops. unfold_monad.
    rewrite (filter_query_long _ _ _ _ _ _ _ _ Hlong). reflexivity.
Qed.

Lemma sql_operations_convert_faults_witness :
  OperationsSQL.filter (constant_store ["id"] [[VInt 1]]) "pedidos" None None None
    (10 ^ 4300) 1 None None empty_world = (Raise ValueError, empty_world).
Proof.
  apply (proj2 (proj2 (proj2 (proj2 (proj2
           (sql_operations_convert_faults (constant_store ["id"] [[VInt 1]])
              "pedidos" None None None (10 ^ 4300) 1 None None "id" "id = 1"
              empty_world)))))).
  left. vm_compute. reflexivity.
Defined.

(** X17: the relational [get] executes [SELECT * FROM <table> WHERE
    <condition> LIMIT 1] and builds its record from the first row only:
    further rows change nothing, and no row at all (or a row without
    values) gives [None] with one warning. *)
Theorem sql_get_first_row (conn : connection) (tabela condicao : string) (w : world)
  (columns : list string) :
  let statement := "SELECT * FROM " ++ tabela ++ " WHERE " ++ condicao ++ " LIMIT 1" in
  let after := (calls w ++ [Execute statement])%list in
  (forall x row others,
     conn (calls w) statement = Ok (columns, (x :: row) :: others) ->
     OperationsSQL.get conn tabela condicao w =
       (Ok (OperationsSQL.record_of columns (x :: row)), mkWorld after (log w))) /\
  (forall rows,
     conn (calls w) statement = Ok (columns, rows) ->
     rows = [] \/ (exists others, rows = [] :: others) ->
     OperationsSQL.get conn tabela condicao w =
       (Ok VNone,
        mkWorld after
          (log w ++ [(WARNING, "Nenhum registro encontrado na consulta 'get'")]))).
Proof.
  intros statement after. subst statement after. split.
  - intros x row others Hc. step Hc. reflexivity.
  - intros rows Hc [->|(others & ->)]; step Hc; reflexivity.
Qed.

Lemma sql_get_first_row_witness :
  OperationsSQL.get
    (constant_store ["id"; "nome"] [[VInt 1; VStr "a"]; [VInt 2; VStr "b"]])
    "clientes" "id > 0" empty_world =
    (Ok (VDict [("id", VInt 1); ("nome", VStr "a")]),
     mkWorld [Execute "SELECT * FROM clientes WHERE id > 0 LIMIT 1"] []).
Proof.
  apply (proj1 (sql_get_first_row
                  (constant_store ["id"; "nome"] [[VInt 1; VStr "a"]; [VInt 2; VStr "b"]])
                  "clientes" "id > 0" empty_world ["id"; "nome"])
           (VInt 1) [VStr "a"] [[VInt 2; VStr "b"]]).
  reflexivity.
Defined.

(** X18: [filter] orders its rows only when it is given both a field and a
    direction: with either one missing or empty the statement is the one
    built with neither, and has no [ORDER BY]. *)
Theorem filter_order_needs_both (tabela : string)
  (condicao campo_ordenar ordenacao : option string) (limite_por_pagina pagina : Z)
  (inner_join_receive select_receive : option string) :
  truthy_str campo_ordenar = false \/ truthy_str ordenacao = false ->
  OperationsSQL.filter_query tabela condicao campo_ordenar ordenacao limite_por_pagina
    pagina inner_join_receive select_receive =
  OperationsSQL.filter_query tabela condicao None None limite_por_pagina pagina
    inner_join_receive select_receive /\
  order_by campo_ordenar ordenacao = EmptyString.
Proof.
  intros H. unfold OperationsSQL.filter_query, order_by.
  destruct campo_ordenar as [c|], ordenacao as [o|]; try (split; reflexivity).
  unfold truthy_str in *.
  destruct H as [H|H]; apply negb_false_iff in H; rewrite H; cbn [negb andb orb];
    rewrite ?andb_false_r, ?orb_true_r; split; reflexivity.
Qed.

Lemma filter_order_needs_both_witness :
  OperationsSQL.filter_query "pedidos" None (Some "data") None 5 1 None None =
  OperationsSQL.filter_query "pedidos" None None None 5 1 None None /\
  order_by (Some "data") None = EmptyString.
Proof.
  apply (filter_order_needs_both "pedidos" None (Some "data") None 5 1 None None).
  right. reflexivity.
Defined.

Lemma firstn_plus {A} (a b : nat) (l : list A) :
  firstn (a + b) l = (firstn a l ++ firstn b (skipn a l))%list.
Proof.
  revert l. induction a as [|a IH]; intros l; simpl; [reflexivity|].
  destruct l as [|x l]; simpl.
  - rewrite firstn_nil. reflexivity.
  - rewrite IH. reflexivity.
Qed.

(** X19: over a store that honours [LIMIT] and [OFFSET], the pages of
    [filter] tile the result set, for every page size and offset that the
    interpreter can write (at most 4300 digits): when
    [k * limite_por_pagina] is such a number, pages 1 to [k] of size
    [limite_por_pagina], one after the other, are the records of the first
    [k * limite_por_pagina] rows, none lost and none repeated; and a page
    whose offset is such a number and lies at or past the end of the result
    set is the empty list. *)
Theorem filter_pages_tile (columns : list string) (rows : list (list value))
  (tabela : string) (condicao campo_ordenar ordenacao : option string)
  (limite_por_pagina : Z) (inner_join_receive select_receive : option string)
  (w : world) :
  0 <= limite_por_pagina ->
  int_str_fits limite_por_pagina = true ->
  (forall k : nat,
     int_str_fits (Z.of_nat k * limite_por_pagina) = true ->
     flat_map
       (fun p =>
          page_records
            (fst (OperationsSQL.filter (paged_store columns rows) tabela condicao
                    campo_ordenar ordenacao limite_por_pagina (Z.of_nat p)
                    inner_join_receive select_receive w)))
       (seq 1 k) =
     map (OperationsSQL.record_of columns) (firstn (k * Z.to_nat limite_por_pagina) rows)) /\
  (forall pagina,
     1 <= pagina ->
     int_str_fits ((pagina - 1) * limite_por_pagina) = true ->
     Z.of_nat (List.length rows) <= (pagina - 1) * limite_por_pagina ->
     fst (OperationsSQL.filter (paged_store columns rows) tabela condicao campo_ordenar
            ordenacao limite_por_pagina pagina inner_join_receive select_receive w) =
       Ok (VList [])).
Proof.
  intros Hn Hfl.
  assert (Hpage : forall pagina, 1 <= pagina ->
             int_str_fits ((pagina - 1) * limite_por_pagina) = true ->
             fst (OperationsSQL.filter (paged_store columns rows) tabela condicao
                    campo_ordenar ordenacao limite_por_pagina pagina inner_join_receive
                    select_receive w) =
             Ok (VList (map (OperationsSQL.record_of columns)
                          (firstn (Z.to_nat limite_por_pagina)
                             (skipn (Z.to_nat ((pagina - 1) * limite_por_pagina)) rows))))).
  { intros pagina Hp Hfo.
    destruct (paged_store_answer columns rows (calls w) tabela condicao campo_ordenar
                ordenacao limite_por_pagina pagina inner_join_receive select_receive
                Hn Hp Hfl Hfo) as (statement & Hq & Hanswer).
    rewrite (filter_runs _ _ _ _ _ _ _ _ _ _ _ Hq), Hanswer. reflexivity. }
  split.
  - induction k as [|k IH]; [reflexivity|]. intros Hfk.
    assert (Hfk' : int_str_fits (Z.of_nat k * limite_por_pagina) = true).
    { apply (int_str_fits_le _ (Z.of_nat (S k) * limite_por_pagina)); [nia | exact Hfk]. }
    rewrite seq_S, flat_map_app, (IH Hfk'). cbn [flat_map]. rewrite app_nil_r.
    rewrite Hpage;
      [| lia
       | replace (Z.of_nat (1 + k) - 1) with (Z.of_nat k) by lia; exact Hfk'].
    cbn [page_records].
    replace (Z.to_nat ((Z.of_nat (1 + k) - 1) * limite_por_pagina))
      with (k * Z.to_nat limite_por_pagina)%nat by nia.
    rewrite <- map_app. f_equal.
    replace (S k * Z.to_nat limite_por_pagina)%nat
      with (k * Z.to_nat limite_por_pagina + Z.to_nat limite_por_pagina)%nat by lia.
    symmetry. apply firstn_plus.
  - intros pagina Hp Hfo Hend. rewrite Hpage by assumption.
    rewrite skipn_all2 by lia. rewrite firstn_nil. reflexivity.
Qed.

Lemma filter_pages_tile_witness :
  flat_map
    (fun p =>
       page_records
         (fst (OperationsSQL.filter
                 (paged_store ["id"] [[VInt 1]; [VInt 2]; [VInt 3]; [VInt 4]; [VInt 5]])
                 "pedidos" None None None 2 (Z.of_nat p) None None empty_world)))
    (seq 1 3) =
    map (OperationsSQL.record_of ["id"])
      (firstn (3 * Z.to_nat 2) [[VInt 1]; [VInt 2]; [VInt 3]; [VInt 4]; [VInt 5]]).
Proof.
  apply (proj1 (filter_pages_tile ["id"]
                  [[VInt 1]; [VInt 2]; [VInt 3]; [VInt 4]; [VInt 5]]
                  "pedidos" None None None 2 None None empty_world ltac:(lia) eq_refl)
           3%nat eq_refl).
Defined.

Lemma string_append_assoc (a b c : string) :
  ((a ++ b) ++ c)%string = (a ++ (b ++ c))%string.
Proof. induction a as [|x a IH]; simpl; [reflexivity | rewrite IH; reflexivity]. Qed.

Lemma count_statement_words (P T J W : string) :
  words (OperationsSQL.nl ++ OperationsSQL.indent12 ++ "SELECT " ++ P ++ " FROM " ++ T ++
         OperationsSQL.nl ++ OperationsSQL.indent12 ++ J ++
         OperationsSQL.nl ++ OperationsSQL.indent12 ++ W ++
         OperationsSQL.nl ++ OperationsSQL.indent8) =
  words ("SELECT " ++ P ++ " FROM " ++ T ++ " " ++ J ++ " " ++ W).
Proof.
  unfold words.
  rewrite words_from_newline, words_from_indent12.
  change (flush EmptyString) with (@nil string). cbn [app].
  change (words_from EmptyString ("SELECT " ++ ?x)) with ("SELECT" :: words_from EmptyString x).
  f_equal. apply words_from_piece. intros c.
  change (" FROM " ++ ?x) with (String " " ("FROM " ++ x)).
  rewrite !words_from_space. f_equal.
  change (words_from EmptyString ("FROM " ++ ?x)) with ("FROM" :: words_from EmptyString x).
  f_equal. apply words_from_piece. clear c. intros c.
  rewrite words_from_newline, words_from_indent12.
  change (" " ++ ?x) with (String " " x). rewrite words_from_space.
  f_equal. apply words_from_piece. clear c. intros c.
  rewrite words_from_newline, words_from_indent12.
  change (" " ++ ?x) with (String " " x). rewrite words_from_space.
  f_equal. apply words_from_trailing.
Qed.

(** X20: the statement of [count] has the words of
    [SELECT COUNT(<field>) AS total FROM <table> <join> <where>], the join
    and the predicate being the caller's when given and not empty; [count]
    executes that one statement. *)
Theorem count_query_shape (conn : connection) (tabela field_count : string)
  (condicao inner_join_receive : option string) (w : world) :
  let statement :=
    OperationsSQL.count_query tabela field_count condicao inner_join_receive in
  words statement =
    words (count_shape field_count tabela
             (clause inner_join_receive (fun j => j) EmptyString)
             (clause condicao (fun c => "WHERE " ++ c) EmptyString)) /\
  calls (snd (OperationsSQL.count conn tabela field_count condicao inner_join_receive w)) =
    (calls w ++ [Execute statement])%list.
Proof.
  intros statement. subst statement. split.
  - unfold OperationsSQL.count_query, count_shape.
    rewrite count_statement_words.
    replace (match inner_join_receive with
             | Some j => if truthy_str inner_join_receive then j else EmptyString
             | None => EmptyString
             end) with (clause inner_join_receive (fun j => j) EmptyString)
      by (destruct inner_join_receive as [x|];
          [symmetry; apply (clause_some x (fun j => j)) | reflexivity]).
    replace (match condicao with
             | Some c => if truthy_str condicao then "WHERE " ++ c else EmptyString
             | None => EmptyString
             end) with (clause condicao (fun c => "WHERE " ++ c) EmptyString)
      by (destruct condicao as [c|];
          [symmetry; apply (clause_some c (fun c => "WHERE " ++ c)) | reflexivity]).
    f_equal. cbn [append]. do 13 f_equal.
    apply string_append_assoc.
  - unfold_ops. unfold_monad. cbn [calls log].
    destruct (conn (calls w) _) as [[cols rows]|e|]; reflexivity.
Qed.

(** ** update *)

(** X21: [update] makes one [update_item] call, always asking for
    [UPDATED_NEW] and passing the name aliases only when there are some; it
    returns [True] exactly when the backend's response holds [Attributes].
    A response without them gives [False] with one warning, the value a
    [ClientError] gives too (with one error line). *)
Theorem update_outcomes (tabela : update_table) (condition : list (string * value))
  (expression : string) (attr : list (string * value))
  (attrnames : option (list (string * string))) (w : update_world) :
  let args := update_args_of condition expression attr attrnames in
  let run := OperationsDynamo_update tabela condition expression attr attrnames w in
  update_calls (snd run) = (update_calls w ++ [args])%list /\
  (fst run = Ok (VBool true) <->
   exists response a,
     tabela (update_calls w) args = Ok response /\
     dict_get "Attributes" response = Some a) /\
  (forall response,
     tabela (update_calls w) args = Ok response ->
     dict_get "Attributes" response = None ->
     run = (Ok (VBool false),
            mkUpdateWorld (update_calls w ++ [args])
              (update_log w ++ [(WARNING, "Falha ao atualizar item")]))) /\
  (forall msg,
     tabela (update_calls w) args = Raise (ClientError msg) ->
     run = (Ok (VBool false),
            mkUpdateWorld (update_calls w ++ [args])
              (update_log w ++ [(ERROR, "Erro ao atualizar item: " ++ msg)]))).
Proof.
  intros args run.
  assert (Hrun : run =
            match tabela (update_calls w) args with
            | Raise (ClientError msg) =>
                (Ok (VBool false),
                 mkUpdateWorld (update_calls w ++ [args])
                   (update_log w ++ [(ERROR, "Erro ao atualizar item: " ++ msg)]))
            | Raise e => (Raise e, mkUpdateWorld (update_calls w ++ [args]) (update_log w))
            | Diverged => (Diverged, mkUpdateWorld (update_calls w ++ [args]) (update_log w))
            | Ok response_update =>
                match dict_get "Attributes" response_update with
                | Some _ =>
                    (Ok (VBool true),
                     mkUpdateWorld (update_calls w ++ [args]) (update_log w))
                | None =>
                    (Ok (VBool false),
                     mkUpdateWorld (update_calls w ++ [args])
                       (update_log w ++ [(WARNING, "Falha ao atualizar item")]))
                end
            end).
  { subst run args. unfold OperationsDynamo_update, update_args_of, truthy_dict.
    cbn [upd_Key upd_UpdateExpression upd_ExpressionAttributeValues upd_ReturnValues].
    destruct attrnames as [[|n names]|]; reflexivity. }
  rewrite Hrun. clearbody run args. clear Hrun.
  destruct (tabela (update_calls w) args) as [response|e|] eqn:Ht.
  - destruct (dict_get "Attributes" response) as [a|] eqn:Ha; cbn [fst snd update_calls].
    + split; [reflexivity|]. split; [|split].
      * split; [intros _; exists response, a; split; [reflexivity | exact Ha] | reflexivity].
      * intros r Hr Hn. inversion Hr; subst. congruence.
      * intros msg Hm. discriminate.
    + split; [reflexivity|]. split; [|split].
      * split; [discriminate|]. intros (r & a & Hr & Hra). inversion Hr; subst. congruence.
      * intros r Hr Hn. reflexivity.
      * intros msg Hm. discriminate.
  - destruct e; cbn [fst snd update_calls];
      (split; [reflexivity|]); (split; [|split]);
      try (split; [discriminate | intros (r & a & Hr & _); discriminate]);
      try (intros r Hr; discriminate); intros m Hm; inversion Hm; subst; reflexivity.
  - cbn [fst snd update_calls]. split; [reflexivity|]. split; [|split].
    + split; [discriminate | intros (r & a & Hr & _); discriminate].
    + intros r Hr. discriminate.
    + intros m Hm. discriminate.
Qed.

Lemma update_outcomes_witness :
  OperationsDynamo_update (fun _ _ => Ok [("ResponseMetadata", VDict [])])
    [("id", VStr "a")] "REMOVE obs" [] (Some []) (mkUpdateWorld [] []) =
    (Ok (VBool false),
     mkUpdateWorld [mkUpdateItem [("id", VStr "a")] "REMOVE obs" [] "UPDATED_NEW" None]
       [(WARNING, "Falha ao atualizar item")]).
Proof.
  apply (proj1 (proj2 (proj2
           (update_outcomes (fun _ _ => Ok [("ResponseMetadata", VDict [])])
              [("id", VStr "a")] "REMOVE obs" [] (Some []) (mkUpdateWorld [] []))))
           [("ResponseMetadata", VDict [])]); reflexivity.
Defined.

(** ** Optional arguments *)

(** X22: an optional argument that is empty counts as absent: [listAll]
    with empty fields, filter and aliases is [listAll] with none,
    [queryFilter] with an empty filter object is [queryFilter] with no
    filter, and [scanPaginate] with a last key that is not true (a null or
    an empty mapping) starts from the beginning. *)
Theorem empty_arguments_are_absent (tabela : table) (params : expression)
  (fields : option string) (filter : option expression)
  (attrnames : option (list (string * string))) (lastKey : option value)
  (scan_fields : string) (limit : Z) (fuel : nat) (w : world) :
  truthy_str fields = false -> truthy_expr filter = false ->
  truthy_dict attrnames = false ->
  match lastKey with Some k => truthy k = false | None => True end ->
  OperationsDynamo.listAll tabela params fields filter attrnames w =
    OperationsDynamo.listAll tabela params None None None w /\
  OperationsDynamo.listAllPaginate fuel tabela params fields attrnames w =
    OperationsDynamo.listAllPaginate fuel tabela params None None w /\
  OperationsDynamo.queryFilter tabela params (Some []) w =
    OperationsDynamo.queryFilter tabela params None w /\
  OperationsDynamo.scanPaginate tabela params scan_fields lastKey limit attrnames w =
    OperationsDynamo.scanPaginate tabela params scan_fields None limit None w.
Proof.
  intros Hf He Ha Hk.
  assert (Hs : when_str fields set_ProjectionExpression = fun q => q).
  { unfold when_str. destruct fields as [s|]; [rewrite Hf|]; reflexivity. }
  assert (Hd : when_dict attrnames set_ExpressionAttributeNames = fun q => q).
  { unfold when_dict. destruct attrnames as [a|]; [rewrite Ha|]; reflexivity. }
  assert (Hx : when_expr filter set_FilterExpression = fun q => q).
  { unfold when_expr. destruct filter as [f|]; [rewrite He|]; reflexivity. }
  assert (Hv : when_value lastKey set_ExclusiveStartKey = fun q => q).
  { unfold when_value. destruct lastKey as [k|]; [rewrite Hk|]; reflexivity. }
  split; [|split; [|split]].
  - unfold OperationsDynamo.listAll. rewrite Hs, Hd, Hx. reflexivity.
  - unfold OperationsDynamo.listAllPaginate, OperationsDynamo.listAllPaginate_query.
    rewrite Hs, Hd. reflexivity.
  - reflexivity.
  - unfold OperationsDynamo.scanPaginate. rewrite Hd, Hv. reflexivity.
Qed.

Lemma empty_arguments_are_absent_witness :
  OperationsDynamo.scanPaginate (scripted_table [Ok (page [VStr "a"] None)])
    (ExprText "pk = :p") "sk" (Some (VDict [])) 5 (Some []) empty_world =
  OperationsDynamo.scanPaginate (scripted_table [Ok (page [VStr "a"] None)])
    (ExprText "pk = :p") "sk" None 5 None empty_world.
Proof.
  apply (proj2 (proj2 (proj2
           (empty_arguments_are_absent (scripted_table [Ok (page [VStr "a"] None)])
              (ExprText "pk = :p") (Some EmptyString) (Some (ExprText EmptyString))
              (Some []) (Some (VDict [])) "sk" 5 3%nat empty_world
              eq_refl eq_refl eq_refl eq_refl)))).
Defined.

(** ** The filter object of queryFilter *)

(** X23: [queryFilter] reads nothing of its filter object but [tela]: two
    filter objects with the same [tela] give the same query, result and
    log, whatever else they hold (a [descricao] or [cliente] given by the
    caller is not used). *)
Theorem queryFilter_reads_only_tela (tabela : table) (expression : expression)
  (filtro filtro' : list (string * value)) (t : value) (w : world) :
  dict_get "tela" filtro = Some t -> dict_get "tela" filtro' = Some t ->
  OperationsDynamo.queryFilter tabela expression (Some filtro) w =
    OperationsDynamo.queryFilter tabela expression (Some filtro') w.
Proof.
  intros H H'.
  destruct filtro as [|e f]; [discriminate|].
  destruct filtro' as [|e' f']; [discriminate|].
  unfold OperationsDynamo.queryFilter, try_except_ClientError, bind, subscript.
  rewrite H, H'. reflexivity.
Qed.

Lemma queryFilter_reads_only_tela_witness :
  OperationsDynamo.queryFilter (scripted_table [Ok (page [VStr "a"] None)])
    (ExprText "pk = :p")
    (Some [("descricao", VStr "x"); ("tela", VStr "home"); ("cliente", VInt 7)])
    empty_world =
  OperationsDynamo.queryFilter (scripted_table [Ok (page [VStr "a"] None)])
    (ExprText "pk = :p") (Some [("tela", VStr "home")]) empty_world.
Proof.
  apply (queryFilter_reads_only_tela (scripted_table [Ok (page [VStr "a"] None)])
           (ExprText "pk = :p")
           [("descricao", VStr "x"); ("tela", VStr "home"); ("cliente", VInt 7)]
           [("tela", VStr "home")] (VStr "home") empty_world); reflexivity.
Defined.

(** ** First and last record of any partition *)

Lemma insert_by_key_perm (x : Z * value) (l : list (Z * value)) :
  Permutation (insert_by_key x l) (x :: l).
Proof.
  induction l as [|y l IH]; simpl; [apply Permutation_refl|].
  destruct (fst x <=? fst y); [apply Permutation_refl|].
  eapply perm_trans; [apply perm_skip, IH | apply perm_swap].
Qed.

Lemma sort_by_key_perm (l : list (Z * value)) : Permutation (sort_by_key l) l.
Proof.
  induction l as [|x l IH]; simpl; [apply perm_nil|].
  eapply perm_trans; [apply insert_by_key_perm | apply perm_skip, IH].
Qed.

Lemma insert_by_key_first (x : Z * value) (l : list (Z * value)) :
  (forall a rest, l = a :: rest -> Forall (fun y => fst a <= fst y) rest) ->
  forall a rest, insert_by_key x l = a :: rest -> Forall (fun y => fst a <= fst y) rest.
Proof.
  revert x. induction l as [|y l IH]; intros x Hl a rest Hins; simpl in Hins.
  - inversion Hins. constructor.
  - pose proof (Hl y l eq_refl) as Hy.
    destruct (Z.leb_spec (fst x) (fst y)) as [Hle|Hgt]; inversion Hins; subst.
    + constructor; [exact Hle|].
      eapply Forall_impl; [|exact Hy]. simpl. intros z Hz. lia.
    + assert (Hin : Forall (fun z => fst a <= fst z) (x :: l))
        by (constructor; [lia | exact Hy]).
      eapply Permutation_Forall; [apply Permutation_sym, insert_by_key_perm | exact Hin].
Qed.

Lemma sort_by_key_first (l : list (Z * value)) :
  forall a rest, sort_by_key l = a :: rest -> Forall (fun y => fst a <= fst y) rest.
Proof.
  induction l as [|x l IH]; simpl; [discriminate|].
  apply insert_by_key_first, IH.
Qed.

Lemma insert_by_key_last (x : Z * value) (l : list (Z * value)) (d : Z * value) :
  (Forall (fun y => fst y <= fst (last l d)) l) ->
  Forall (fun y => fst y <= fst (last (insert_by_key x l) d)) (insert_by_key x l).
Proof.
  induction l as [|y l IH]; intros Hl.
  - simpl. constructor; [lia | constructor].
  - cbn [insert_by_key]. destruct (Z.leb_spec (fst x) (fst y)) as [Hle|Hgt].
    + change (last (x :: y :: l) d) with (last (y :: l) d).
      constructor; [|exact Hl]. inversion Hl; subst. lia.
    + destruct l as [|z l].
      * simpl. constructor; [lia | constructor; [lia | constructor]].
      * assert (Hl' : Forall (fun y0 => fst y0 <= fst (last (z :: l) d)) (z :: l)).
        { inversion Hl; subst. assumption. }
        specialize (IH Hl').
        assert (Hne : insert_by_key x (z :: l) <> []).
        { simpl. destruct (fst x <=? fst z); discriminate. }
        destruct (insert_by_key x (z :: l)) as [|u us] eqn:E; [contradiction|].
        change (last (y :: u :: us) d) with (last (u :: us) d).
        constructor; [|exact IH].
        inversion Hl as [|? ? Hy _]; subst.
        change (last (y :: z :: l) d) with (last (z :: l) d) in Hy.
        assert (Hzin : In (last (z :: l) d) (u :: us)).
        { rewrite <- E.
          eapply Permutation_in; [apply Permutation_sym, insert_by_key_perm|].
          right. clear. revert z. induction l as [|a l IHl]; intros z.
          - left. reflexivity.
          - change (last (z :: a :: l) d) with (last (a :: l) d). right. apply IHl. }
        rewrite Forall_forall in IH. specialize (IH _ Hzin). lia.
Qed.

Lemma sort_by_key_last (l : list (Z * value)) (d : Z * value) :
  Forall (fun y => fst y <= fst (last (sort_by_key l) d)) (sort_by_key l).
Proof.
  induction l as [|x l IH]; simpl; [constructor|].
  apply insert_by_key_last, IH.
Qed.

Lemma rev_head_last {A} (l : list A) (d : A) :
  l <> [] -> exists others, rev l = last l d :: others.
Proof.
  destruct l as [|a l] using rev_ind; intros Hne; [contradiction|].
  rewrite rev_app_distr, last_last. simpl. eexists. reflexivity.
Qed.

(** X24: over a partition holding any records, [getFirstRegistry] returns
    (normalized, as a one-element list) a held record whose sort key is
    smallest and [getLastRegistry] one whose sort key is greatest; over an
    empty partition both return [False]. *)
Theorem registry_extremes (held : list (Z * value)) (params : expression)
  (fields : option string) (w : world) :
  held <> [] ->
  (exists k v,
     In (k, v) held /\ (forall k' v', In (k', v') held -> k <= k') /\
     fst (OperationsDynamo.getFirstRegistry (sorted_table held) params fields w) =
       normalize (VList [v])) /\
  (exists k v,
     In (k, v) held /\ (forall k' v', In (k', v') held -> k' <= k) /\
     fst (OperationsDynamo.getLastRegistry (sorted_table held) params fields w) =
       normalize (VList [v])) /\
  fst (OperationsDynamo.getFirstRegistry (sorted_table []) params fields w) =
    Ok (VBool false) /\
  fst (OperationsDynamo.getLastRegistry (sorted_table []) params fields w) =
    Ok (VBool false).
Proof.
  intros Hne.
  pose proof (sort_by_key_perm held) as HP.
  destruct (sort_by_key held) as [|[k v] rest] eqn:Hs.
  { apply Permutation_nil in HP. contradiction. }
  assert (Hrun : forall forward tabela msg1 msg2,
             fst (try_except_ClientError
                    (table_query tabela (registry_query forward params fields))
                    (fun msg => logging_error (msg1 ++ msg) ;;; ret (VBool false))
                    (fun response =>
                       match Items response with
                       | Some (i :: items) => json_roundtrip (VList (i :: items))
                       | _ => logging_warning msg2 ;;; ret (VBool false)
                       end) w) =
             match tabela (calls w) (Query (registry_query forward params fields)) with
             | Ok r =>
                 match Items r with
                 | Some (i :: items) => normalize (VList (i :: items))
                 | _ => Ok (VBool false)
                 end
             | Raise (ClientError _) => Ok (VBool false)
             | Raise e => Raise e
             | Diverged => Diverged
             end).
  { intros forward tabela msg1 msg2. unfold_monad. cbn [calls log].
    destruct (tabela (calls w) _) as [r|e|]; [|destruct e|]; try reflexivity.
    destruct (Items r) as [[|i items]|]; reflexivity. }
  split; [|split; [|split]].
  - exists k, v. split; [|split].
    + eapply Permutation_in; [exact HP | left; reflexivity].
    + intros k' v' Hin.
      apply (Permutation_in _ (Permutation_sym HP)) in Hin.
      destruct Hin as [Heq|Hin]; [inversion Heq; lia|].
      pose proof (sort_by_key_first held (k, v) rest Hs) as Hf.
      rewrite Forall_forall in Hf. apply (Hf _ Hin).
    + unfold OperationsDynamo.getFirstRegistry. fold (registry_query true params fields).
      rewrite Hrun. unfold sorted_table.
      rewrite (proj1 (registry_query_order true params fields)),
        (proj2 (registry_query_order true params fields)), Hs.
      change (Z.to_nat 1) with 1%nat. reflexivity.
  - pose proof (sort_by_key_last held (k, v)) as Hl. rewrite Hs in Hl.
    assert (Hin : In (last ((k, v) :: rest) (k, v)) ((k, v) :: rest)).
    { clear. generalize (k, v) at 1 3 as a. intros a. revert a.
      induction rest as [|b rest IH]; intros a; [left; reflexivity|].
      change (last (a :: b :: rest) (k, v)) with (last (b :: rest) (k, v)).
      right. apply IH. }
    destruct (last ((k, v) :: rest) (k, v)) as [km vm] eqn:Hlast.
    exists km, vm. split; [|split].
    + eapply Permutation_in; [exact HP | exact Hin].
    + intros k' v' Hin'.
      apply (Permutation_in _ (Permutation_sym HP)) in Hin'.
      rewrite Forall_forall in Hl. apply (Hl _ Hin').
    + unfold OperationsDynamo.getLastRegistry. fold (registry_query false params fields).
      rewrite Hrun. unfold sorted_table.
      rewrite (proj1 (registry_query_order false params fields)),
        (proj2 (registry_query_order false params fields)), Hs.
      change (Z.to_nat 1) with 1%nat.
      destruct (rev_head_last ((k, v) :: rest) (k, v) ltac:(discriminate))
        as (others & Hrev).
      rewrite Hrev, Hlast. reflexivity.
  - unfold OperationsDynamo.getFirstRegistry. fold (registry_query true params fields).
    rewrite Hrun. unfold sorted_table.
    rewrite (proj1 (registry_query_order true params fields)),
      (proj2 (registry_query_order true params fields)). reflexivity.
  - unfold OperationsDynamo.getLastRegistry. fold (registry_query false params fields).
    rewrite Hrun. unfold sorted_table.
    rewrite (proj1 (registry_query_order false params fields)),
      (proj2 (registry_query_order false params fields)). reflexivity.
Qed.

Lemma registry_extremes_witness :
  exists k v,
    In (k, v) [(5, VStr "e"); (2, VStr "b"); (9, VStr "i"); (2, VStr "B")] /\
    (forall k' v',
       In (k', v') [(5, VStr "e"); (2, VStr "b"); (9, VStr "i"); (2, VStr "B")] -> k' <= k) /\
    fst (OperationsDynamo.getLastRegistry
           (sorted_table [(5, VStr "e"); (2, VStr "b"); (9, VStr "i"); (2, VStr "B")])
           (ExprText "pk = :p") None empty_world) = normalize (VList [v]).
Proof.
  apply (proj1 (proj2 (registry_extremes
                         [(5, VStr "e"); (2, VStr "b"); (9, VStr "i"); (2, VStr "B")]
                         (ExprText "pk = :p") None empty_world ltac:(discriminate)))).
Defined.
